(** * Style-preserving cell overwrite for .xlsx workbooks

    A shallow embedding of [script/xlsx-overwrite-cells.py] and the
    properties its specification states about it.

    Conventions of the embedding.
    - A Python [str] is a [string]: a sequence of characters with code
      points below 256.  On that range [\d] is [0-9], [[A-Za-z]] is the
      ASCII letters and [str.strip()] removes the code points 9-13, 28-32,
      133 and 160.  [str.upper()] is modelled on the ASCII letters, the
      only characters the script ever passes to it.
    - A Python [int] is a [Z].  The interpreter's limit on the number of
      digits that [int()] and [str()] convert (4300 unless configured
      otherwise) is not modelled: [int()] reads and [str()] prints numerals
      of any length.  The statements about what the address parser raises
      are restricted to addresses within that limit.
    - An [ElementTree] node is an [Element]; a reference to a child node is
      its position in the parent's child list, and in-place mutation is an
      update at that position.
    - A raised exception is a [Raise] result; [try]/[except] is a match. *)

From Stdlib Require Import ZArith String Ascii DecimalString DecimalPos.
From stdpp Require Import base option list gmap strings.

Local Open Scope string_scope.
Local Open Scope list_scope.
Local Open Scope Z_scope.

(** ** Exceptions *)

Inductive exn :=
  | ValueError (msg : string)
  | TypeError
  | ParseError
  | KeyError
  | OSError.

Inductive result (A : Type) :=
  | Ok (a : A)
  | Raise (e : exn).
Arguments Ok {A} a.
Arguments Raise {A} e.

#[global] Instance result_ret : MRet result := λ A a, Ok a.
#[global] Instance result_bind : MBind result := λ A B f m,
  match m with
  | Ok a => f a
  | Raise e => Raise e
  end.

Definition is_Ok {A} (r : result A) : Prop :=
  match r with Ok _ => True | Raise _ => False end.

(** Monadic left fold: the body of a [for] loop that may raise. *)
Fixpoint foldM {S X} (step : S → X → result S) (s : S) (xs : list X) : result S :=
  match xs with
  | [] => Ok s
  | x :: rest => s' ← step s x; foldM step s' rest
  end.

(** ** Python string primitives *)

Module Py.

Definition ord (c : ascii) : Z := Z.of_nat (nat_of_ascii c).

Definition quote : string := String (ascii_of_nat 34) EmptyString.
Definition newline : string := String (ascii_of_nat 10) EmptyString.

Definition isspace (c : ascii) : bool :=
  let n := ord c in
  ((9 <=? n) && (n <=? 13)) || ((28 <=? n) && (n <=? 32))
  || (n =? 133) || (n =? 160).

Definition isdigit (c : ascii) : bool := (48 <=? ord c) && (ord c <=? 57).
Definition isupper (c : ascii) : bool := (65 <=? ord c) && (ord c <=? 90).
Definition islower (c : ascii) : bool := (97 <=? ord c) && (ord c <=? 122).
Definition isletter (c : ascii) : bool := isupper c || islower c.

Definition upper_char (c : ascii) : ascii :=
  if islower c then ascii_of_nat (nat_of_ascii c - 32) else c.

Fixpoint upper (s : string) : string :=
  match s with
  | EmptyString => EmptyString
  | String c r => String (upper_char c) (upper r)
  end.

Fixpoint lstrip (s : string) : string :=
  match s with
  | EmptyString => EmptyString
  | String c r => if isspace c then lstrip r else s
  end.

Fixpoint rstrip (s : string) : string :=
  match s with
  | EmptyString => EmptyString
  | String c r =>
      match rstrip r with
      | EmptyString => if isspace c then EmptyString else String c EmptyString
      | r' => String c r'
      end
  end.

Definition strip (s : string) : string := rstrip (lstrip s).

Definition startswith_space (s : string) : bool :=
  match s with
  | String c _ => bool_decide (c = " "%char)
  | EmptyString => false
  end.

Fixpoint endswith_space (s : string) : bool :=
  match s with
  | EmptyString => false
  | String c EmptyString => bool_decide (c = " "%char)
  | String _ r => endswith_space r
  end.

Fixpoint join (l : list string) : string :=
  match l with
  | [] => EmptyString
  | s :: r => s +:+ join r
  end.

(** [str(n)] for an integer. *)
Definition str_int (n : Z) : string := NilZero.string_of_int (Z.to_int n).

(** The digits of an [int()] literal: decimal digits, single underscores
    allowed between two digits. *)
Fixpoint int_digits (acc : Z) (after_digit : bool) (s : string) : option Z :=
  match s with
  | EmptyString => if after_digit then Some acc else None
  | String c r =>
      if isdigit c then int_digits (acc * 10 + (ord c - 48)) true r
      else if bool_decide (c = "_"%char) && after_digit then int_digits acc false r
      else None
  end.

(** The characters [int()] passes over at either end of its argument:
    code points 9-13, 32, 133 and 160.  Unlike [str.strip()] it keeps the
    code points 28-31. *)
Definition int_isspace (c : ascii) : bool :=
  let n := ord c in
  ((9 <=? n) && (n <=? 13)) || (n =? 32) || (n =? 133) || (n =? 160).

Fixpoint int_lstrip (s : string) : string :=
  match s with
  | EmptyString => EmptyString
  | String c r => if int_isspace c then int_lstrip r else s
  end.

Fixpoint int_rstrip (s : string) : string :=
  match s with
  | EmptyString => EmptyString
  | String c r =>
      match int_rstrip r with
      | EmptyString => if int_isspace c then EmptyString else String c EmptyString
      | r' => String c r'
      end
  end.

(** [int(s)] for a string: [None] stands for [ValueError]. *)
Definition int_str (s : string) : option Z :=
  match int_rstrip (int_lstrip s) with
  | String "-" r => Z.opp <$> int_digits 0 false r
  | String "+" r => int_digits 0 false r
  | r => int_digits 0 false r
  end.

End Py.

(** ** Cell addresses *)

Definition NS_MAIN : string := "http://schemas.openxmlformats.org/spreadsheetml/2006/main".
Definition NS_XML : string := "http://www.w3.org/XML/1998/namespace".

(** Longest prefix of [s] made of characters satisfying [p], and the rest. *)
Fixpoint span (p : ascii → bool) (s : string) : string * string :=
  match s with
  | EmptyString => (EmptyString, EmptyString)
  | String c r =>
      if p c then let '(a, b) := span p r in (String c a, b)
      else (EmptyString, s)
  end.

(** [CELL_REF_RE.match(s)] for [^([A-Za-z]+)(\d+)$]: the two groups.  The
    two character classes are disjoint, so each greedy group is the longest
    run of its class; [$] accepts the end of the string or a single final
    newline. *)
Definition CELL_REF_RE_match (s : string) : option (string * string) :=
  let '(letters, rest) := span Py.isletter s in
  let '(digits, rest') := span Py.isdigit rest in
  match letters, digits with
  | String _ _, String _ _ =>
      if bool_decide (rest' = EmptyString) || bool_decide (rest' = Py.newline)
      then Some (letters, digits) else None
  | _, _ => None
  end.

Definition col_letters_to_index (col_letters : string) : Z :=
  fold_left (λ value ch, value * 26 + (Py.ord ch - 64))
            (list_ascii_of_string (Py.upper col_letters)) 0.

Definition parse_cell_ref (address : string) : result (string * Z) :=
  match CELL_REF_RE_match address with
  | None => Raise (ValueError ("Invalid cell address: " +:+ address))
  | Some (g1, g2) =>
      match Py.int_str g2 with
      | Some n => Ok (Py.upper g1, n)
      | None => Raise (ValueError ("invalid literal for int() with base 10: '" +:+ g2 +:+ "'"))
      end
  end.

(** ** ElementTree nodes *)

#[local] Set Warnings "-register-all".

Inductive Element := mkElement {
  tag : string;
  attrib : gmap string string;
  text : option string;
  tail : option string;
  children : list Element
}.

Definition with_children (e : Element) (cs : list Element) : Element :=
  mkElement (tag e) (attrib e) (text e) (tail e) cs.

Definition with_attrib (e : Element) (a : gmap string string) : Element :=
  mkElement (tag e) a (text e) (tail e) (children e).

(** [parent[i] = child] on the child list. *)
Definition set_child (e : Element) (i : nat) (c : Element) : Element :=
  with_children e (<[i := c]> (children e)).

(** [list.insert(k, x)] for [0 <= k]. *)
Definition list_insert_at {A} (k : nat) (x : A) (l : list A) : list A :=
  take k l ++ x :: drop k l.

Definition qname (ns local : string) : string := "{" +:+ ns +:+ "}" +:+ local.

Definition tag_sheetData : string := qname NS_MAIN "sheetData".
Definition tag_row : string := qname NS_MAIN "row".
Definition tag_c : string := qname NS_MAIN "c".
Definition tag_v : string := qname NS_MAIN "v".
Definition tag_is : string := qname NS_MAIN "is".
Definition tag_t : string := qname NS_MAIN "t".
Definition tag_si : string := qname NS_MAIN "si".
Definition attr_space : string := qname NS_XML "space".

Definition has_tag (t : string) (e : Element) : bool := bool_decide (tag e = t).

(** [e.findall(t)]: the children of [e] tagged [t], in order. *)
Definition findall (t : string) (e : Element) : list Element :=
  List.filter (has_tag t) (children e).

(** [e.iter()]: the node and its descendants in document order. *)
Fixpoint iter (e : Element) : list Element :=
  e :: (fix iter_all (l : list Element) : list Element :=
          match l with
          | [] => []
          | c :: r => iter c ++ iter_all r
          end) (children e).

(** [e.findall(".//" + t)]: the proper descendants of [e] tagged [t], in
    document order. *)
Definition findall_desc (t : string) (e : Element) : list Element :=
  List.filter (has_tag t) (flat_map iter (children e)).

(** First element of [l] satisfying [p], with its position counted from
    [i]. *)
Fixpoint first_at {A} (p : A → bool) (i : nat) (l : list A) : option (nat * A) :=
  match l with
  | [] => None
  | x :: r => if p x then Some (i, x) else first_at p (S i) r
  end.

(** [e.find(t)]: the first child tagged [t]. *)
Definition find (t : string) (e : Element) : option (nat * Element) :=
  first_at (has_tag t) 0%nat (children e).

(** [node.text or ""]. *)
Definition text_or_empty (e : Element) : string := default EmptyString (text e).

(** ** Reading a cell *)

Definition extract_cell_text (cell : Element) (shared_strings : list string) : string :=
  let cell_type := attrib cell !! "t" in
  if bool_decide (cell_type = Some "inlineStr") then
    Py.join (text_or_empty <$> findall_desc tag_t cell)
  else
    match find tag_v cell with
    | None => EmptyString
    | Some (_, value_node) =>
        match text value_node with
        | None => EmptyString
        | Some raw_value =>
            if bool_decide (cell_type = Some "s") then
              match Py.int_str raw_value with
              | Some idx =>
                  if (0 <=? idx) && (idx <? Z.of_nat (length shared_strings))
                  then default raw_value (shared_strings !! Z.to_nat idx)
                  else raw_value
              | None => raw_value
              end
            else raw_value
        end
    end.

(** ** Locating and inserting rows and cells *)

Definition r_is (s : string) (e : Element) : bool :=
  bool_decide (attrib e !! "r" = Some s).

(** The first row child whose [r] attribute is [str(row_num)], with its
    position among the children of [sheet_data]. *)
Definition find_row (sheet_data : Element) (row_num : Z) : option (nat * Element) :=
  first_at (λ row, has_tag tag_row row && r_is (Py.str_int row_num) row)
           0%nat (children sheet_data).

(** The loop of the two sorted inserters: the position of the first element
    that exceeds the target, the length of the list if there is none. *)
Fixpoint insert_index {A} (exceeds : A → bool) (l : list A) : nat :=
  match l with
  | [] => 0%nat
  | x :: r => if exceeds x then 0%nat else S (insert_index exceeds r)
  end.

(** [int(row.attrib.get("r", "0"))], zero on [ValueError]. *)
Definition existing_num (row : Element) : Z :=
  default 0 (Py.int_str (default "0" (attrib row !! "r"))).

(** Returns the updated [sheet_data], the position of the new row among
    its children, and the new row. *)
Definition insert_row_sorted (sheet_data : Element) (row_num : Z)
    : Element * nat * Element :=
  let new_row := mkElement tag_row {[ "r" := Py.str_int row_num ]} None None [] in
  let rows := findall tag_row sheet_data in
  let insert_at := insert_index (λ row, row_num <? existing_num row) rows in
  (with_children sheet_data (list_insert_at insert_at new_row (children sheet_data)),
   insert_at, new_row).

Definition find_cell (row : Element) (address : string) : option (nat * Element) :=
  first_at (λ cell, has_tag tag_c cell && r_is address cell) 0%nat (children row).

(** The test of the cell loop: a sibling whose address does not match is
    passed over ([continue]). *)
Definition cell_exceeds (col_idx : Z) (cell : Element) : bool :=
  match CELL_REF_RE_match (default EmptyString (attrib cell !! "r")) with
  | None => false
  | Some (g1, _) => col_idx <? col_letters_to_index g1
  end.

(** Returns the updated [row], the position of the new cell among its
    children, and the new cell. *)
Definition insert_cell_sorted (row : Element) (address : string)
    : result (Element * nat * Element) :=
  '(col_letters, _) ← parse_cell_ref address;
  let col_idx := col_letters_to_index col_letters in
  let new_cell := mkElement tag_c {[ "r" := address ]} None None [] in
  let cells := findall tag_c row in
  let insert_at := insert_index (cell_exceeds col_idx) cells in
  Ok (with_children row (list_insert_at insert_at new_cell (children row)),
      insert_at, new_cell).

(** ** Rewriting a cell *)

Definition write_inline_string (cell : Element) (value : string) : Element :=
  let text_attrib : gmap string string :=
    if Py.startswith_space value || Py.endswith_space value
    then {[ attr_space := "preserve" ]} else ∅ in
  let text_node := mkElement tag_t text_attrib (Some value) None [] in
  let inline := mkElement tag_is ∅ None None [text_node] in
  mkElement (tag cell) (<["t" := "inlineStr"]> (attrib cell)) (text cell) (tail cell)
            [inline].

(** ** Change requests *)

(** A JSON value as Python holds it after [json.load].  [POther] stands for
    a value of another kind (a float, an array, an object), given by what
    [str()] and [int()] return on it; [int_of = None] means [int()]
    raises. *)
Inductive pyval :=
  | PNone
  | PBool (b : bool)
  | PInt (n : Z)
  | PStr (s : string)
  | POther (str_of : string) (int_of : option Z).

#[global] Instance pyval_eq_dec : EqDecision pyval.
Proof. solve_decision. Defined.

Definition py_str (v : pyval) : string :=
  match v with
  | PNone => "None"
  | PBool true => "True"
  | PBool false => "False"
  | PInt n => Py.str_int n
  | PStr s => s
  | POther s _ => s
  end.

Definition py_int (v : pyval) : result Z :=
  match v with
  | PNone => Raise TypeError
  | PBool b => Ok (if b then 1 else 0)
  | PInt n => Ok n
  | PStr s =>
      match Py.int_str s with
      | Some n => Ok n
      | None => Raise (ValueError ("invalid literal for int() with base 10: '" +:+ s +:+ "'"))
      end
  | POther _ (Some n) => Ok n
  | POther _ None => Raise TypeError
  end.

(** A change request is a JSON object. *)
Abbreviation change := (gmap string pyval).

(** [d.get(key, dflt)]. *)
Definition get (d : change) (key : string) (dflt : pyval) : pyval :=
  default dflt (d !! key).

Record issue := mkIssue {
  i_sheetName : pyval;
  i_sourceAddress : string;
  i_reason : string;
  i_tableIndex : Z;
  i_columnIndex : pyval;
  i_target : string
}.

(** ["table" if change.get("target") == "table" else "column"]. *)
Definition target_of (c : change) : string :=
  if bool_decide (c !! "target" = Some (PStr "table")) then "table" else "column".

Definition mismatch_reason (before current_value : string) : string :=
  "Cell value mismatch. expected=" +:+ Py.quote +:+ before +:+ Py.quote
  +:+ " actual=" +:+ Py.quote +:+ current_value +:+ Py.quote.

(** [None if column_index_raw is None else int(column_index_raw)]. *)
Definition column_index_of (c : change) : result pyval :=
  match get c "columnIndex" PNone with
  | PNone => Ok PNone
  | v => n ← py_int v; Ok (PInt n)
  end.

(** The value the validation step reads: the text of the cell at [address]
    in row [row_num], empty when the row or the cell is absent. *)
Definition current_value_at (shared_strings : list string) (sheet_data : Element)
    (row_num : Z) (address : string) : string :=
  match find_row sheet_data row_num with
  | None => EmptyString
  | Some (_, row) =>
      match find_cell row address with
      | None => EmptyString
      | Some (_, cell) => extract_cell_text cell shared_strings
      end
  end.

(** The state of the loop of [patch_sheet_xml]: the [sheetData] node, the
    [applied] counter and the [issues] list. *)
Abbreviation patch_state := (Element * Z * list issue)%type.

(** One iteration of the loop over [changes]. *)
Definition patch_change (shared_strings : list string) (st : patch_state)
    (c : change) : result patch_state :=
  let '(sheet_data, applied, issues) := st in
  let address := Py.strip (py_str (get c "sourceAddress" (PStr EmptyString))) in
  let before := py_str (get c "beforeName" (PStr EmptyString)) in
  let after := py_str (get c "afterName" (PStr EmptyString)) in
  table_index ← py_int (get c "tableIndex" (PInt (-1)));
  column_index ← column_index_of c;
  let target := target_of c in
  let reject reason :=
    mkIssue (get c "sheetName" (PStr EmptyString)) address reason
            table_index column_index target in
  match parse_cell_ref address with
  | Raise (ValueError msg) => Ok (sheet_data, applied, issues ++ [reject msg])
  | Raise e => Raise e
  | Ok (_, row_num) =>
      let row := find_row sheet_data row_num in
      let existing_cell :=
        match row with
        | Some (_, r) => find_cell r address
        | None => None
        end in
      let current_value :=
        match existing_cell with
        | Some (_, cell) => extract_cell_text cell shared_strings
        | None => EmptyString
        end in
      if bool_decide (Py.strip current_value = Py.strip before)
         || bool_decide (Py.strip current_value = Py.strip after)
      then
        let '(sheet_data1, i, row1) :=
          match row with
          | Some (i, r) => (sheet_data, i, r)
          | None => insert_row_sorted sheet_data row_num
          end in
        '(row2, j, cell) ←
          match existing_cell with
          | Some (j, cell) => Ok (row1, j, cell)
          | None => insert_cell_sorted row1 address
          end;
        let row3 := set_child row2 j (write_inline_string cell after) in
        Ok (set_child sheet_data1 i row3, applied + 1, issues)
      else
        Ok (sheet_data, applied, issues ++ [reject (mismatch_reason before current_value)])
  end.

(** ** Archives and the file system *)

Abbreviation bytes := (list Byte.byte).

(** The descriptive fields of a [ZipInfo].  The sizes, the checksum and the
    header offset of a member follow from its contents and its place in the
    archive and are not carried. *)
Record ZipInfo := mkZipInfo {
  filename : string;
  date_time : Z * Z * Z * Z * Z * Z;
  compress_type : Z;
  compress_level : option Z;
  comment : bytes;
  extra : bytes;
  create_system : Z;
  create_version : Z;
  extract_version : Z;
  reserved : Z;
  flag_bits : Z;
  volume : Z;
  internal_attr : Z;
  external_attr : Z
}.

(** [zipfile.ZipInfo(filename, date_time)]: the other fields take their
    defaults ([create_system] is 3 except on Windows). *)
Definition ZipInfo_init (name : string) (time : Z * Z * Z * Z * Z * Z) : ZipInfo :=
  {| filename := name; date_time := time; compress_type := 0;
     compress_level := None; comment := []; extra := [];
     create_system := 3; create_version := 20; extract_version := 20;
     reserved := 0; flag_bits := 0; volume := 0;
     internal_attr := 0; external_attr := 0 |}.

(** The [new_info] the copy loop builds from [info]. *)
Definition new_info_of (info : ZipInfo) : ZipInfo :=
  let new_info := ZipInfo_init (filename info) (date_time info) in
  {| filename := filename new_info; date_time := date_time new_info;
     compress_type := compress_type info;
     compress_level := compress_level new_info;
     comment := comment info;
     extra := extra info;
     create_system := create_system info;
     create_version := create_version info;
     extract_version := extract_version info;
     reserved := reserved new_info;
     flag_bits := flag_bits info;
     volume := volume new_info;
     internal_attr := internal_attr info;
     external_attr := external_attr info |}.

(** [zipfile.ZIP_LZMA]. *)
Definition ZIP_LZMA : Z := 14.

(** The state in which [zout.writestr(zinfo, data)] leaves [zinfo], which
    is the description the output archive lists for the member.  Before
    the member is written, [ZipFile._open_to_write] sets [zinfo.flag_bits]
    to 0, sets bit 1 again when the member is compressed with LZMA, and
    gives a member whose [external_attr] is 0 the attributes of a regular
    file, [0o600 << 16].  The output archive is a file opened by name,
    hence seekable, and the data-descriptor bit stays clear. *)
Definition writestr_info (zinfo : ZipInfo) : ZipInfo :=
  {| filename := filename zinfo; date_time := date_time zinfo;
     compress_type := compress_type zinfo;
     compress_level := compress_level zinfo;
     comment := comment zinfo;
     extra := extra zinfo;
     create_system := create_system zinfo;
     create_version := create_version zinfo;
     extract_version := extract_version zinfo;
     reserved := reserved zinfo;
     flag_bits := if bool_decide (compress_type zinfo = ZIP_LZMA) then 2 else 0;
     volume := volume zinfo;
     internal_attr := internal_attr zinfo;
     external_attr :=
       if bool_decide (external_attr zinfo = 0) then Z.shiftl 384 16
       else external_attr zinfo |}.

(** An archive: its members in directory order, each with its contents. *)
Abbreviation archive := (list (ZipInfo * bytes)).

Definition infolist (z : archive) : list ZipInfo := fst <$> z.
Definition namelist (z : archive) : list string := filename <$> infolist z.

(** [z.read(name)]: the contents of the member registered under [name],
    the last one of that name; [KeyError] if there is none. *)
Fixpoint zip_lookup (z : archive) (name : string) : option bytes :=
  match z with
  | [] => None
  | (info, data) :: rest =>
      match zip_lookup rest name with
      | Some d => Some d
      | None => if bool_decide (filename info = name) then Some data else None
      end
  end.

Definition zip_read (z : archive) (name : string) : result bytes :=
  match zip_lookup z name with
  | Some d => Ok d
  | None => Raise KeyError
  end.

(** The file system: the archive stored at each path. *)
Abbreviation filesystem := (gmap string archive).

(** Where an operation of the copy fails, if any does: opening the two
    archives, handling member [k], closing the output, or the final
    [os.replace]. *)
Inductive fault :=
  | NoFault
  | FaultOpen
  | FaultEntry (k : nat)
  | FaultClose
  | FaultReplace.

#[global] Instance fault_eq_dec : EqDecision fault.
Proof. solve_decision. Defined.

(** The body of the loop over [zin.infolist()]: members [k], [k+1], ... are
    appended to [out], until one fails.  [zout.writestr(new_info, data)]
    stores [data] under the description [writestr_info new_info]. *)
Fixpoint copy_entries (zin : archive) (replacements : gmap string bytes)
    (f : fault) (k : nat) (infos : list ZipInfo) (out : archive)
    : archive * result unit :=
  match infos with
  | [] => (out, Ok ())
  | info :: rest =>
      if bool_decide (f = FaultEntry k) then (out, Raise OSError)
      else
        match zip_read zin (filename info) with
        | Raise e => (out, Raise e)
        | Ok original =>
            let data := default original (replacements !! filename info) in
            copy_entries zin replacements f (S k) rest
              (out ++ [(writestr_info (new_info_of info), data)])
        end
  end.

(** [temp_path] is the name [NamedTemporaryFile] picks. *)
Definition copy_zip_with_replacements (temp_path workbook_path : string)
    (replacements : gmap string bytes) (f : fault) (fs : filesystem)
    : filesystem * result unit :=
  let fs0 := <[temp_path := []]> fs in
  let '(fs1, r) :=
    match fs0 !! workbook_path with
    | None => (fs0, Raise OSError)
    | Some zin =>
        if bool_decide (f = FaultOpen) then (fs0, Raise OSError)
        else
          let '(out, r) := copy_entries zin replacements f 0%nat (infolist zin) [] in
          let fs_out := <[temp_path := out]> fs0 in
          match r with
          | Raise e => (fs_out, Raise e)
          | Ok _ =>
              if bool_decide (f = FaultClose) then (fs_out, Raise OSError)
              else if bool_decide (f = FaultReplace) then (fs_out, Raise OSError)
              else (<[workbook_path := out]> (delete temp_path fs_out), Ok ())
          end
    end in
  (if bool_decide (is_Some (fs1 !! temp_path)) then delete temp_path fs1 else fs1, r).

(** ** The worksheet patcher and the run *)

(** [dict.setdefault(key, []).append(c)] on a dictionary kept in insertion
    order. *)
Fixpoint setdefault_append (key : string) (c : change)
    (grouped : list (string * list change)) : list (string * list change) :=
  match grouped with
  | [] => [(key, [c])]
  | (k, cs) :: rest =>
      if bool_decide (k = key) then (k, cs ++ [c]) :: rest
      else (k, cs) :: setdefault_append key c rest
  end.

(** The issue [main] records for a change it cannot route to a worksheet. *)
Definition unrouted_issue (c : change) (reason : string) : result issue :=
  let sheet_name := py_str (get c "sheetName" (PStr EmptyString)) in
  let source_address := py_str (get c "sourceAddress" (PStr EmptyString)) in
  table_index ← py_int (get c "tableIndex" (PInt (-1)));
  Ok (mkIssue (PStr sheet_name) source_address reason table_index
              (get c "columnIndex" PNone) (target_of c)).

(** The first loop of [main]: group the changes by worksheet path. *)
Definition group_change (sheet_map : gmap string string)
    (st : list (string * list change) * list issue) (c : change)
    : result (list (string * list change) * list issue) :=
  let '(grouped, issues) := st in
  let sheet_name := py_str (get c "sheetName" (PStr EmptyString)) in
  match sheet_map !! sheet_name with
  | Some (String a p) => Ok (setdefault_append (String a p) c grouped, issues)
  | _ =>
      i ← unrouted_issue c "Worksheet not found in workbook";
      Ok (grouped, issues ++ [i])
  end.

Section Workbook.

(** [ET.fromstring] and [ET.tostring], and the sheet-name resolver, which
    reads [xl/workbook.xml] and its relationships from the archive. *)
Variable ET_fromstring : bytes → result Element.
Variable ET_tostring : Element → bytes.
Variable build_sheet_name_to_path : archive → result (gmap string string).

Definition get_shared_strings (zin : archive) : result (list string) :=
  if bool_decide ("xl/sharedStrings.xml" ∈ namelist zin) then
    data ← zip_read zin "xl/sharedStrings.xml";
    root ← ET_fromstring data;
    Ok ((λ si, Py.join (text_or_empty <$> findall_desc tag_t si))
          <$> findall_desc tag_si root)
  else Ok [].

Definition patch_sheet_xml (sheet_bytes : bytes) (shared_strings : list string)
    (changes : list change) : result (bytes * Z * list issue) :=
  root ← ET_fromstring sheet_bytes;
  match find tag_sheetData root with
  | None => Raise (ValueError "sheetData not found")
  | Some (k, sheet_data) =>
      '(sheet_data', applied, issues) ←
        foldM (patch_change shared_strings) (sheet_data, 0, []) changes;
      Ok (ET_tostring (set_child root k sheet_data'), applied, issues)
  end.

(** The second loop of [main]: one group of changes. *)
Definition patch_group (zin : archive) (shared_strings : list string)
    (st : gmap string bytes * Z * list issue)
    (group : string * list change) : result (gmap string bytes * Z * list issue) :=
  let '(replacements, applied_count, issues) := st in
  let '(sheet_path, sheet_changes) := group in
  if bool_decide (sheet_path ∈ namelist zin) then
    data ← zip_read zin sheet_path;
    '(patched_xml, applied, sheet_issues) ←
      patch_sheet_xml data shared_strings sheet_changes;
    Ok (<[sheet_path := patched_xml]> replacements, applied_count + applied,
        issues ++ sheet_issues)
  else
    issues' ←
      foldM (λ acc c,
               i ← unrouted_issue c "Worksheet xml entry not found in workbook zip";
               Ok (acc ++ [i]))
            issues sheet_changes;
    Ok (replacements, applied_count, issues').

(** The [with zipfile.ZipFile(workbook_path) as zin] block of [main]. *)
Definition plan (zin : archive) (changes : list change)
    : result (gmap string bytes * Z * list issue) :=
  shared_strings ← get_shared_strings zin;
  sheet_map ← build_sheet_name_to_path zin;
  '(grouped, issues) ← foldM (group_change sheet_map) ([], []) changes;
  foldM (patch_group zin shared_strings) (∅, 0, issues) grouped.

(** [main], from the opening of the workbook on, with [changes] the list
    read from the payload.  The result is the pair printed as
    [appliedCount] and [issues]. *)
Definition main (temp_path workbook_path : string) (changes : list change)
    (f : fault) (fs : filesystem) : filesystem * result (Z * list issue) :=
  match fs !! workbook_path with
  | None => (fs, Raise OSError)
  | Some zin =>
      match plan zin changes with
      | Raise e => (fs, Raise e)
      | Ok (replacements, applied_count, issues) =>
          if bool_decide (size replacements = 0%nat)
          then (fs, Ok (applied_count, issues))
          else
            let '(fs', r) :=
              copy_zip_with_replacements temp_path workbook_path replacements f fs in
            (fs', _ ← r; Ok (applied_count, issues))
      end
  end.

End Workbook.

(** ** Vocabulary of the specification *)

(** The value of a column letter, A = 1 ... Z = 26, case ignored. *)
Definition letter_value (c : ascii) : Z := Py.ord (Py.upper_char c) - 64.

Fixpoint all_letters (s : string) : bool :=
  match s with
  | EmptyString => true
  | String c r => Py.isletter c && all_letters r
  end.

(** The value of a letter sequence read as a base-26 numeral, most
    significant letter first. *)
Fixpoint numeral_value (s : string) : Z :=
  match s with
  | EmptyString => 0
  | String c r => letter_value c * 26 ^ Z.of_nat (String.length r) + numeral_value r
  end.

(** Alphabetical order on letter sequences of the same length. *)
Fixpoint alpha_ltb (s t : string) : bool :=
  match s, t with
  | String a r, String b u =>
      (letter_value a <? letter_value b)
      || ((letter_value a =? letter_value b) && alpha_ltb r u)
  | _, _ => false
  end.

(** Spreadsheet column order: A, B, ..., Z, AA, AB, ...: shorter names
    first, names of the same length alphabetically. *)
Definition col_ltb (s t : string) : bool :=
  (String.length s <? String.length t)%nat
  || ((String.length s =? String.length t)%nat && alpha_ltb s t).

(** The loop body of [col_letters_to_index]. *)
Definition index_step (value : Z) (ch : ascii) : Z := value * 26 + (Py.ord ch - 64).

(** Ascending order of a list of numbers. *)
Fixpoint ascending (l : list Z) : bool :=
  match l with
  | a :: r => match r with
              | b :: _ => (a <=? b) && ascending r
              | [] => true
              end
  | [] => true
  end.

(** Ascending order without repetition. *)
Fixpoint strictly_ascending (l : list Z) : bool :=
  match l with
  | a :: r => match r with
              | b :: _ => (a <? b) && strictly_ascending r
              | [] => true
              end
  | [] => true
  end.

(** A cell whose address attribute matches the address pattern. *)
Definition well_formed_cell (cell : Element) : bool :=
  match CELL_REF_RE_match (default EmptyString (attrib cell !! "r")) with
  | Some _ => true
  | None => false
  end.

(** The column index of an existing cell, 0 when its address is
    malformed. *)
Definition cell_column_index (cell : Element) : Z :=
  match CELL_REF_RE_match (default EmptyString (attrib cell !! "r")) with
  | Some (g1, _) => col_letters_to_index g1
  | None => 0
  end.

(** A row whose number attribute reads as an integer. *)
Definition well_formed_row (row : Element) : bool :=
  match Py.int_str (default "0" (attrib row !! "r")) with
  | Some _ => true
  | None => false
  end.

(** The children tagged [t] come before every other child, as the rows of
    a [sheetData] node and the cells of a row do. *)
Fixpoint leading (t : string) (l : list Element) : bool :=
  match l with
  | [] => true
  | x :: r => if has_tag t x then leading t r
              else forallb (λ y, negb (has_tag t y)) r
  end.

(** A change request whose [tableIndex] and [columnIndex], when present,
    can be coerced by [int()]. *)
Definition int_coercible (v : pyval) : bool :=
  match py_int v with Ok _ => true | Raise _ => false end.

Definition well_typed (c : change) : bool :=
  int_coercible (get c "tableIndex" (PInt (-1)))
  && match get c "columnIndex" PNone with
     | PNone => true
     | v => int_coercible v
     end.

(** The cell at position [j] of the row at position [i]. *)
Definition cell_at (sheet_data : Element) (i j : nat) : option Element :=
  row ← children sheet_data !! i; children row !! j.

Fixpoint all_digits (s : string) : bool :=
  match s with
  | EmptyString => true
  | String c r => Py.isdigit c && all_digits r
  end.

(** ** Sample documents *)

Definition sample_cell (address value : string) : Element :=
  mkElement tag_c {[ "r" := address; "t" := "inlineStr" ]} None None
    [mkElement tag_is ∅ None None [mkElement tag_t ∅ (Some value) None []]].

Definition sample_row (n : Z) (cells : list Element) : Element :=
  mkElement tag_row {[ "r" := Py.str_int n ]} None None cells.

(** Rows 1, 2 and 5; row 2 holds A2, B2 and D2. *)
Definition sample_sheet_data : Element :=
  mkElement tag_sheetData ∅ None None
    [sample_row 1 [sample_cell "A1" "Name"];
     sample_row 2 [sample_cell "A2" "Id"; sample_cell "B2" "Old"; sample_cell "D2" "x"];
     sample_row 5 []].

(** A row whose first, third and fifth cells carry malformed addresses. *)
Definition sample_damaged_row : Element :=
  mkElement tag_row {[ "r" := "7" ]} None None
    [mkElement tag_c {[ "r" := "7A" ]} None None [];
     sample_cell "A7" "a";
     mkElement tag_c ∅ None None [];
     sample_cell "C7" "c";
     mkElement tag_c {[ "r" := "D" ]} None None [];
     sample_cell "E7" "e"].

(** Rows numbered 1, "x" (malformed), 5, "" (malformed) and 8. *)
Definition sample_damaged_sheet_data : Element :=
  mkElement tag_sheetData ∅ None None
    [sample_row 1 [];
     mkElement tag_row {[ "r" := "x" ]} None None [];
     sample_row 5 [];
     mkElement tag_row {[ "r" := EmptyString ]} None None [];
     sample_row 8 []].

(** The change request of the specification's example scenario. *)
Definition sample_change (address before after : string) : change :=
  {[ "sheetName" := PStr "Sheet1"; "sourceAddress" := PStr address;
     "beforeName" := PStr before; "afterName" := PStr after;
     "tableIndex" := PInt 0; "target" := PStr "column" ]}.

(** Whether a fault falls on an operation the copy of [zin] performs. *)
Definition fires (f : fault) (zin : archive) : bool :=
  match f with
  | NoFault => false
  | FaultEntry k => (k <? length zin)%nat
  | FaultOpen | FaultClose | FaultReplace => true
  end.

(** The archive a complete copy writes. *)
Definition copied (zin : archive) (replacements : gmap string bytes) : archive :=
  (λ info, (writestr_info (new_info_of info),
            default (default [] (zip_lookup zin (filename info)))
                    (replacements !! filename info)))
    <$> infolist zin.

(** Two member descriptions with the same name, timestamp, compression
    type, comment, extra field, versions, flags and attributes. *)
Definition same_metadata (a b : ZipInfo) : Prop :=
  filename a = filename b ∧ date_time a = date_time b
  ∧ compress_type a = compress_type b ∧ comment a = comment b
  ∧ extra a = extra b ∧ create_system a = create_system b
  ∧ create_version a = create_version b ∧ extract_version a = extract_version b
  ∧ flag_bits a = flag_bits b ∧ internal_attr a = internal_attr b
  ∧ external_attr a = external_attr b.


(** The worksheet path a change request is routed to, if any: the
    non-empty path its sheet name resolves to. *)
Definition route (sheet_map : gmap string string) (c : change) : option string :=
  match sheet_map !! py_str (get c "sheetName" (PStr EmptyString)) with
  | Some (String a p) => Some (String a p)
  | _ => None
  end.

(** The change requests routed to [path], in payload order. *)
Definition routed_to (sheet_map : gmap string string) (path : string)
    (changes : list change) : list change :=
  List.filter (λ c, bool_decide (route sheet_map c = Some path)) changes.

(** The total number of change requests in the groups. *)
Fixpoint group_total (grouped : list (string * list change)) : nat :=
  match grouped with
  | [] => 0%nat
  | (_, cs) :: rest => (length cs + group_total rest)%nat
  end.

(** The group recorded under [key], if any. *)
Fixpoint group_of (grouped : list (string * list change)) (key : string)
    : option (list change) :=
  match grouped with
  | [] => None
  | (k, cs) :: rest => if bool_decide (k = key) then Some cs else group_of rest key
  end.

(** The grouping of the change requests seen so far: one group per path
    some request is routed to, holding the requests routed to it. *)
Definition groups_inv (sheet_map : gmap string string) (seen : list change)
    (grouped : list (string * list change)) : Prop :=
  NoDup grouped.*1
  ∧ ∀ path, group_of grouped path
            = match routed_to sheet_map path seen with
              | [] => None
              | cs => Some cs
              end.

(** The worksheet stored under [path] parses and has a [sheetData] child. *)
Definition readable (fromstring : bytes → result Element) (zin : archive)
    (path : string) : Prop :=
  ∀ data, zip_lookup zin path = Some data →
    ∃ root k sheet_data,
      fromstring data = Ok root ∧ find tag_sheetData root = Some (k, sheet_data).

(** ** A sample workbook *)

Definition sample_info (name : string) : ZipInfo :=
  {| filename := name; date_time := (2024, 1, 2, 3, 4, 6); compress_type := 8;
     compress_level := Some 9; comment := []; extra := [];
     create_system := 0; create_version := 45; extract_version := 20;
     reserved := 0; flag_bits := 6; volume := 0;
     internal_attr := 0; external_attr := 32 |}.

Definition sample_sheet_path : string := "xl/worksheets/sheet1.xml".

Definition sample_archive : archive :=
  [(sample_info "xl/workbook.xml", [Byte.x01]);
   (sample_info sample_sheet_path, [Byte.x02]);
   (sample_info "xl/styles.xml", [Byte.x03])].

Definition sample_fs : filesystem := {[ "book.xlsx" := sample_archive ]}.

Definition sample_worksheet : Element :=
  mkElement (qname NS_MAIN "worksheet") ∅ None None [sample_sheet_data].

(** A stand-in for the XML codec: the contents of the sample worksheet
    member decode to [sample_worksheet], nothing else parses, and every
    tree is written as the same single byte. *)
Definition sample_fromstring (data : bytes) : result Element :=
  match data with
  | [Byte.x02] => Ok sample_worksheet
  | _ => Raise ParseError
  end.

Definition sample_tostring (root : Element) : bytes := [Byte.xff].

Definition sample_resolver (zin : archive) : result (gmap string string) :=
  Ok {[ "Sheet1" := sample_sheet_path ]}.

(** Three requests: one that applies, one with a malformed address, one
    for a sheet the workbook does not have. *)
Definition sample_changes : list change :=
  [sample_change "B2" "Old" "New";
   sample_change "2B" "x" "y";
   <["sheetName" := PStr "NoSuchSheet"]> (sample_change "A1" "Name" "Title")].

(** ** Further vocabulary *)

Fixpoint all_upper (s : string) : bool :=
  match s with
  | EmptyString => true
  | String c r => Py.isupper c && all_upper r
  end.


(** The position of a child after a new child was inserted at [k]. *)
Definition shifted (k : nat) (found : nat * Element) : nat * Element :=
  (if bool_decide (found.1 < k)%nat then found.1 else S found.1, found.2).

(** ** The sheet-name resolver *)

Definition NS_REL_DOC : string :=
  "http://schemas.openxmlformats.org/officeDocument/2006/relationships".
Definition NS_REL_PKG : string :=
  "http://schemas.openxmlformats.org/package/2006/relationships".

(** The functions of [posixpath] the resolver calls, with the string
    methods they rest on, for the separator ["/"]. *)
Module posixpath.

Definition sep : ascii := "/"%char.

(** [s.startswith("/")] and [s.endswith("/")]. *)
Definition startswith_sep (s : string) : bool :=
  match s with
  | String c _ => bool_decide (c = sep)
  | EmptyString => false
  end.

Fixpoint endswith_sep (s : string) : bool :=
  match s with
  | EmptyString => false
  | String c EmptyString => bool_decide (c = sep)
  | String _ r => endswith_sep r
  end.

(** [s.lstrip("/")]. *)
Fixpoint lstrip_sep (s : string) : string :=
  match s with
  | EmptyString => EmptyString
  | String c r => if bool_decide (c = sep) then lstrip_sep r else s
  end.

(** [s.split("/")]. *)
Fixpoint split (s : string) : list string :=
  match s with
  | EmptyString => [EmptyString]
  | String c r =>
      if bool_decide (c = sep) then EmptyString :: split r
      else match split r with
           | comp :: rest => String c comp :: rest
           | [] => [String c EmptyString]
           end
  end.

(** ["/".join(comps)]. *)
Fixpoint join_sep (comps : list string) : string :=
  match comps with
  | [] => EmptyString
  | [comp] => comp
  | comp :: rest => comp +:+ String sep (join_sep rest)
  end.

(** [posixpath.join(a, b)]. *)
Definition join (a b : string) : string :=
  if startswith_sep b then b
  else if bool_decide (a = EmptyString) || endswith_sep a then a +:+ b
  else a +:+ String sep b.

(** One turn of the loop of [normpath] over the components. *)
Definition normpath_step (initial_slashes : nat) (new_comps : list string)
    (comp : string) : list string :=
  if bool_decide (comp = EmptyString ∨ comp = ".") then new_comps
  else if bool_decide (comp ≠ ".."
                       ∨ (initial_slashes = 0%nat ∧ new_comps = [])
                       ∨ last new_comps = Some "..")
  then new_comps ++ [comp]
  else removelast new_comps.

(** [posixpath.normpath(path)]. *)
Definition normpath (path : string) : string :=
  if bool_decide (path = EmptyString) then "."
  else
    let initial_slashes :=
      match path with
      | String "/" (String "/" (String "/" _)) => 1%nat
      | String "/" (String "/" _) => 2%nat
      | String "/" _ => 1%nat
      | _ => 0%nat
      end in
    let comps := fold_left (normpath_step initial_slashes) (split path) [] in
    let path := Py.join (replicate initial_slashes "/") +:+ join_sep comps in
    if bool_decide (path = EmptyString) then "." else path.

End posixpath.

(** The path recorded for a relationship target: the branch on
    [target.startswith("/")] in the loop over the sheets. *)
Definition normalize_target (target : string) : string :=
  if posixpath.startswith_sep target then posixpath.lstrip_sep target
  else posixpath.normpath (posixpath.join "xl" target).

(** The loop over the relationships: one turn. *)
Definition add_relationship (rel_map : gmap string string) (rel : Element)
    : gmap string string :=
  match attrib rel !! "Id", attrib rel !! "Target" with
  | Some (String a rel_id), Some (String b rel_target) =>
      <[String a rel_id := String b rel_target]> rel_map
  | _, _ => rel_map
  end.

(** The loop over the sheets: one turn. *)
Definition add_sheet (rel_map : gmap string string) (result : gmap string string)
    (sheet : Element) : gmap string string :=
  match attrib sheet !! "name", attrib sheet !! qname NS_REL_DOC "id" with
  | Some (String a sheet_name), Some (String b rel_id) =>
      match rel_map !! String b rel_id with
      | Some (String c target) =>
          <[String a sheet_name := normalize_target (String c target)]> result
      | _ => result
      end
  | _, _ => result
  end.

Definition build_sheet_name_to_path (ET_fromstring : bytes → result Element)
    (zin : archive) : result (gmap string string) :=
  workbook_xml ← zip_read zin "xl/workbook.xml";
  workbook_root ← ET_fromstring workbook_xml;
  rels_xml ← zip_read zin "xl/_rels/workbook.xml.rels";
  rels_root ← ET_fromstring rels_xml;
  let rel_map :=
    fold_left add_relationship
      (findall_desc (qname NS_REL_PKG "Relationship") rels_root) ∅ in
  Ok (fold_left (add_sheet rel_map)
        (findall_desc (qname NS_MAIN "sheet") workbook_root) ∅).

(** A path component that [normpath] keeps as it is. *)
Definition plain_component (comp : string) : Prop :=
  comp ≠ EmptyString ∧ comp ≠ "." ∧ comp ≠ "..".

(** A sample package: the sample archive with a relationships part, a
    workbook part naming two sheets, and a codec that decodes them. *)
Definition sample_workbook : Element :=
  mkElement (qname NS_MAIN "workbook") ∅ None None
    [mkElement (qname NS_MAIN "sheets") ∅ None None
       [mkElement (qname NS_MAIN "sheet")
          {[ "name" := "Sheet1"; qname NS_REL_DOC "id" := "rId1" ]} None None [];
        mkElement (qname NS_MAIN "sheet")
          {[ "name" := "Orphan"; qname NS_REL_DOC "id" := "rId9" ]} None None []]].

Definition sample_rels : Element :=
  mkElement (qname NS_REL_PKG "Relationships") ∅ None None
    [mkElement (qname NS_REL_PKG "Relationship")
       {[ "Id" := "rId1"; "Target" := "worksheets/sheet1.xml" ]} None None [];
     mkElement (qname NS_REL_PKG "Relationship")
       {[ "Id" := "rId2"; "Target" := "styles.xml" ]} None None []].

Definition sample_package : archive :=
  sample_archive ++ [(sample_info "xl/_rels/workbook.xml.rels", [Byte.x04])].

Definition sample_codec (data : bytes) : result Element :=
  match data with
  | [Byte.x01] => Ok sample_workbook
  | [Byte.x04] => Ok sample_rels
  | _ => sample_fromstring data
  end.

(** The workbook part lists a sheet called [name] whose relationship id is
    the [Id] of a relationship with target [target], none of the three
    empty. *)
Definition resolves_to (workbook_root rels_root : Element) (name target : string)
    : Prop :=
  ∃ sheet rel rel_id,
    sheet ∈ findall_desc (qname NS_MAIN "sheet") workbook_root
    ∧ rel ∈ findall_desc (qname NS_REL_PKG "Relationship") rels_root
    ∧ attrib sheet !! "name" = Some name
    ∧ attrib sheet !! qname NS_REL_DOC "id" = Some rel_id
    ∧ attrib rel !! "Id" = Some rel_id
    ∧ attrib rel !! "Target" = Some target
    ∧ name ≠ EmptyString ∧ rel_id ≠ EmptyString ∧ target ≠ EmptyString.

(** ** Document order *)

(** The nodes tagged [t] below [e], in document order: a node stands
    before the nodes below it, and those before the siblings that follow
    it. *)
Fixpoint tagged_below (t : string) (e : Element) : list Element :=
  (fix below_all (l : list Element) : list Element :=
     match l with
     | [] => []
     | c :: r =>
         (if bool_decide (tag c = t) then [c] else []) ++ tagged_below t c ++ below_all r
     end) (children e).

(** The texts of the text nodes below [e], in document order; a text node
    without text counts as empty. *)
Definition text_runs (e : Element) : list string :=
  (λ node, default EmptyString (text node)) <$> tagged_below tag_t e.

(** ** Further samples *)

(** An inline-string cell with rich text: two runs, the first with run
    properties, and a phonetic run. *)
Definition sample_rich_cell : Element :=
  mkElement tag_c {[ "r" := "A1"; "t" := "inlineStr" ]} None None
    [mkElement tag_is ∅ None None
       [mkElement (qname NS_MAIN "r") ∅ None None
          [mkElement (qname NS_MAIN "rPr") ∅ None None
             [mkElement (qname NS_MAIN "b") ∅ None None []];
           mkElement tag_t ∅ (Some "Hel") None []];
        mkElement (qname NS_MAIN "r") ∅ None None
          [mkElement tag_t {[ attr_space := "preserve" ]} (Some "lo ") None []];
        mkElement (qname NS_MAIN "rPh") ∅ None None
          [mkElement tag_t ∅ None None []; mkElement tag_t ∅ (Some "!") None []]]].

(** A shared-strings part with two entries, the second in two runs. *)
Definition sample_shared_strings : Element :=
  mkElement (qname NS_MAIN "sst") ∅ None None
    [mkElement tag_si ∅ None None [mkElement tag_t ∅ (Some "Old") None []];
     mkElement tag_si ∅ None None
       [mkElement (qname NS_MAIN "r") ∅ None None
          [mkElement tag_t ∅ (Some "Ne") None []];
        mkElement (qname NS_MAIN "r") ∅ None None
          [mkElement tag_t ∅ (Some "wer") None []]]].

Definition sample_strings_archive : archive :=
  sample_package ++ [(sample_info "xl/sharedStrings.xml", [Byte.x05])].

Definition sample_strings_codec (data : bytes) : result Element :=
  match data with
  | [Byte.x05] => Ok sample_shared_strings
  | _ => sample_codec data
  end.

(** A workbook whose members carry the deflate option bits in their flags
    and no external attributes. *)
Definition sample_office_info (name : string) : ZipInfo :=
  {| filename := name; date_time := (1980, 1, 1, 0, 0, 0); compress_type := 8;
     compress_level := None; comment := []; extra := [];
     create_system := 0; create_version := 45; extract_version := 20;
     reserved := 0; flag_bits := 6; volume := 0;
     internal_attr := 0; external_attr := 0 |}.

Definition sample_office_archive : archive :=
  [(sample_office_info "xl/workbook.xml", [Byte.x01]);
   (sample_office_info sample_sheet_path, [Byte.x02]);
   (sample_office_info "xl/styles.xml", [Byte.x03])].

Definition sample_office_fs : filesystem := {[ "book.xlsx" := sample_office_archive ]}.

(** * Properties *)

(** ** Column indices *)

Section ColumnIndex.

Lemma upper_chars s :
  list_ascii_of_string (Py.upper s) = Py.upper_char <$> list_ascii_of_string s.
Proof. induction s as [|c r IH]; simpl; [done | by rewrite IH]. Qed.

Lemma upper_char_idem c : Py.upper_char (Py.upper_char c) = Py.upper_char c.
Proof. by destruct c as [[] [] [] [] [] [] [] []]. Qed.

Lemma upper_idem s : Py.upper (Py.upper s) = Py.upper s.
Proof. induction s as [|c r IH]; simpl; [done | by rewrite upper_char_idem, IH]. Qed.

Lemma letter_value_range c : Py.isletter c = true → 1 ≤ letter_value c ≤ 26.
Proof.
  destruct c as [[] [] [] [] [] [] [] []]; vm_compute; intros H;
    first [ discriminate H | split; discriminate ].
Qed.

Lemma fold_step_shift l acc :
  fold_left index_step l acc = acc * 26 ^ Z.of_nat (length l) + fold_left index_step l 0.
Proof.
  revert acc. induction l as [|c l IH]; intros acc; simpl.
  - lia.
  - rewrite IH, (IH (index_step 0 c)). unfold index_step.
    rewrite Nat2Z.inj_succ, Z.pow_succ_r by lia. lia.
Qed.

Lemma length_chars s : length (list_ascii_of_string s) = String.length s.
Proof. induction s; simpl; congruence. Qed.

Lemma col_index_numeral s : col_letters_to_index s = numeral_value s.
Proof.
  unfold col_letters_to_index. rewrite upper_chars. fold index_step.
  induction s as [|c r IH]; [done|].
  cbn [list_ascii_of_string fmap list_fmap fold_left numeral_value].
  rewrite (fold_step_shift _ (index_step 0 (Py.upper_char c))), IH, length_fmap, length_chars.
  unfold index_step, letter_value. lia.
Qed.

Lemma col_index_snoc s c :
  col_letters_to_index (s +:+ String c EmptyString)
  = col_letters_to_index s * 26 + letter_value c.
Proof.
  unfold col_letters_to_index. rewrite !upper_chars. fold index_step.
  replace (list_ascii_of_string (s +:+ String c EmptyString))
    with (list_ascii_of_string s ++ [c]).
  - rewrite fmap_app, fold_left_app. reflexivity.
  - induction s as [|a r IH]; simpl; [done | by rewrite IH].
Qed.

(** [25 * numeral_value s] lies between [26^n - 1] and [26 * (26^n - 1)]
    for a sequence of [n] letters. *)
Lemma numeral_bounds s :
  all_letters s = true →
  26 ^ Z.of_nat (String.length s) - 1 ≤ 25 * numeral_value s
  ∧ 25 * numeral_value s ≤ 26 * (26 ^ Z.of_nat (String.length s) - 1).
Proof.
  induction s as [|c r IH]; simpl all_letters; intros H.
  - simpl. lia.
  - apply andb_prop in H as [Hc Hr]. specialize (IH Hr).
    pose proof (letter_value_range c Hc).
    cbn [String.length numeral_value].
    rewrite Nat2Z.inj_succ, Z.pow_succ_r by lia.
    assert (0 < 26 ^ Z.of_nat (String.length r)) by (apply Z.pow_pos_nonneg; lia).
    nia.
Qed.

Lemma pow26_mono (n m : nat) : (n < m)%nat → 26 * 26 ^ Z.of_nat n ≤ 26 ^ Z.of_nat m.
Proof.
  intros H. rewrite <- Z.pow_succ_r by lia.
  apply Z.pow_le_mono_r; lia.
Qed.

Lemma numeral_shorter s t :
  all_letters s = true → all_letters t = true →
  (String.length s < String.length t)%nat → numeral_value s < numeral_value t.
Proof.
  intros Hs Ht Hlen.
  pose proof (numeral_bounds s Hs). pose proof (numeral_bounds t Ht).
  pose proof (pow26_mono _ _ Hlen). lia.
Qed.

Lemma numeral_alpha s t :
  all_letters s = true → all_letters t = true →
  String.length s = String.length t →
  alpha_ltb s t = true → numeral_value s < numeral_value t.
Proof.
  revert t. induction s as [|a r IH]; intros [|b u]; simpl all_letters;
    intros Hs Ht Hlen Hlt; try discriminate.
  apply andb_prop in Hs as [Ha Hr]. apply andb_prop in Ht as [Hb Hu].
  injection Hlen as Hlen. cbn [alpha_ltb] in Hlt. cbn [numeral_value].
  rewrite <- Hlen.
  pose proof (numeral_bounds r Hr) as Br. pose proof (numeral_bounds u Hu) as Bu.
  rewrite <- Hlen in Bu.
  assert (0 < 26 ^ Z.of_nat (String.length r)) by (apply Z.pow_pos_nonneg; lia).
  apply orb_prop in Hlt as [Hlt | Hlt].
  - apply Z.ltb_lt in Hlt. nia.
  - apply andb_prop in Hlt as [Heq Hlt]. apply Z.eqb_eq in Heq.
    specialize (IH u Hr Hu Hlen Hlt). rewrite Heq. lia.
Qed.

Lemma col_ltb_lt s t :
  all_letters s = true → all_letters t = true →
  col_ltb s t = true → numeral_value s < numeral_value t.
Proof.
  intros Hs Ht H. unfold col_ltb in H. apply orb_prop in H as [H | H].
  - apply Nat.ltb_lt in H. by apply numeral_shorter.
  - apply andb_prop in H as [Hlen H]. apply Nat.eqb_eq in Hlen.
    by apply numeral_alpha.
Qed.

Lemma alpha_total s t :
  String.length s = String.length t →
  alpha_ltb s t = false → alpha_ltb t s = false → numeral_value s = numeral_value t.
Proof.
  revert t. induction s as [|a r IH]; intros [|b u]; simpl String.length;
    intros Hlen H1 H2; try discriminate; [done|].
  injection Hlen as Hlen. cbn [alpha_ltb] in H1, H2. cbn [numeral_value].
  apply orb_false_elim in H1 as [H1 H1']. apply orb_false_elim in H2 as [H2 H2'].
  apply Z.ltb_ge in H1, H2.
  assert (letter_value a = letter_value b) as E by lia.
  rewrite E, Z.eqb_refl in H1'. rewrite E, Z.eqb_refl in H2'. simpl in H1', H2'.
  rewrite E, Hlen, (IH u Hlen H1' H2'). reflexivity.
Qed.

Lemma lt_col_ltb s t :
  all_letters s = true → all_letters t = true →
  numeral_value s < numeral_value t → col_ltb s t = true.
Proof.
  intros Hs Ht Hlt. destruct (col_ltb s t) eqn:E; [done|]. exfalso.
  destruct (col_ltb t s) eqn:E'.
  - pose proof (col_ltb_lt t s Ht Hs E'). lia.
  - unfold col_ltb in E, E'.
    apply orb_false_elim in E as [E1 E2]. apply orb_false_elim in E' as [E1' E2'].
    apply Nat.ltb_ge in E1, E1'.
    assert (String.length s = String.length t) as Hlen by lia.
    rewrite Hlen, Nat.eqb_refl in E2, E2'. simpl in E2, E2'.
    pose proof (alpha_total s t Hlen E2 E2'). lia.
Qed.

End ColumnIndex.

(** C3: on a non-empty letter sequence [col_letters_to_index] is the value
    of the base-26 numeral with digits A = 1 ... Z = 26 read most
    significant first, each further letter [c] turning the index into
    [index * 26 + letter_value c]; it sends A, Z, AA, AZ, BA to 1, 26, 27,
    52, 53, and it is strictly monotone for spreadsheet column order. *)
Theorem col_letters_to_index_base26 (s t : string) :
  all_letters s = true → s ≠ EmptyString → all_letters t = true →
  col_letters_to_index s = numeral_value s
  ∧ 1 ≤ col_letters_to_index s
  ∧ (∀ c, Py.isletter c = true →
       1 ≤ letter_value c ≤ 26
       ∧ col_letters_to_index (s +:+ String c EmptyString)
         = col_letters_to_index s * 26 + letter_value c)
  ∧ (col_ltb s t = true ↔ col_letters_to_index s < col_letters_to_index t)
  ∧ col_letters_to_index "A" = 1
  ∧ col_letters_to_index "Z" = 26
  ∧ col_letters_to_index "AA" = 27
  ∧ col_letters_to_index "AZ" = 52
  ∧ col_letters_to_index "BA" = 53.
Proof.
  intros Hs Hne Ht. split; [apply col_index_numeral|].
  split.
  { rewrite col_index_numeral. destruct s as [|c r]; [done|].
    pose proof (numeral_bounds _ Hs) as [B _]. cbn [String.length] in B.
    rewrite Nat2Z.inj_succ, Z.pow_succ_r in B by lia.
    assert (0 < 26 ^ Z.of_nat (String.length r)) by (apply Z.pow_pos_nonneg; lia).
    lia. }
  split.
  { intros c Hc. split; [by apply letter_value_range | apply col_index_snoc]. }
  split.
  { rewrite !col_index_numeral. split; [by apply col_ltb_lt | by apply lt_col_ltb]. }
  repeat split; reflexivity.
Qed.

Lemma col_letters_to_index_base26_witness :
  col_letters_to_index "AZ" = numeral_value "AZ"
  ∧ (col_ltb "AZ" "BA" = true ↔ col_letters_to_index "AZ" < col_letters_to_index "BA").
Proof.
  destruct (col_letters_to_index_base26 "AZ" "BA") as (H1 & _ & _ & H4 & _);
    [reflexivity | discriminate | reflexivity |].
  exact (conj H1 H4).
Defined.

(** ** Printing and reading integers *)

Section IntRoundTrip.

Import Decimal.

Lemma lstrip_uint d :
  Py.int_lstrip (NilEmpty.string_of_uint d) = NilEmpty.string_of_uint d.
Proof. by destruct d. Qed.

Lemma rstrip_uint d :
  Py.int_rstrip (NilEmpty.string_of_uint d) = NilEmpty.string_of_uint d.
Proof.
  induction d as [|d IH|d IH|d IH|d IH|d IH|d IH|d IH|d IH|d IH|d IH];
    cbn [NilEmpty.string_of_uint Py.int_rstrip]; [done|..];
    rewrite IH; by destruct (NilEmpty.string_of_uint d).
Qed.

Lemma int_digits_acc d p :
  Py.int_digits (Z.pos p) true (NilEmpty.string_of_uint d)
  = Some (Z.pos (Pos.of_uint_acc d p)).
Proof.
  revert p.
  induction d as [|d IH|d IH|d IH|d IH|d IH|d IH|d IH|d IH|d IH|d IH]; intros p;
    cbn [NilEmpty.string_of_uint Py.int_digits Pos.of_uint_acc]; [done|..];
    change (Py.isdigit _) with true; cbn iota; rewrite <- IH; f_equal;
    unfold Py.ord;
    match goal with
    | |- context [Z.of_nat (nat_of_ascii ?c)] =>
        let v := eval vm_compute in (Z.of_nat (nat_of_ascii c)) in
        change (Z.of_nat (nat_of_ascii c)) with v
    end; lia.
Qed.

Lemma int_digits_uint d b :
  d ≠ Nil ∨ b = true →
  Py.int_digits 0 b (NilEmpty.string_of_uint d) = Some (Z.of_N (Pos.of_uint d)).
Proof.
  revert b.
  induction d as [|d IH|d IH|d IH|d IH|d IH|d IH|d IH|d IH|d IH|d IH]; intros b Hb;
    cbn [NilEmpty.string_of_uint Py.int_digits Pos.of_uint].
  - destruct Hb as [Hb | ->]; [done | reflexivity].
  - change (Py.isdigit _) with true; cbn iota. apply IH. by right.
  - change (Py.isdigit _) with true; cbn iota. apply (int_digits_acc d 1).
  - change (Py.isdigit _) with true; cbn iota. apply (int_digits_acc d 2).
  - change (Py.isdigit _) with true; cbn iota. apply (int_digits_acc d 3).
  - change (Py.isdigit _) with true; cbn iota. apply (int_digits_acc d 4).
  - change (Py.isdigit _) with true; cbn iota. apply (int_digits_acc d 5).
  - change (Py.isdigit _) with true; cbn iota. apply (int_digits_acc d 6).
  - change (Py.isdigit _) with true; cbn iota. apply (int_digits_acc d 7).
  - change (Py.isdigit _) with true; cbn iota. apply (int_digits_acc d 8).
  - change (Py.isdigit _) with true; cbn iota. apply (int_digits_acc d 9).
Qed.

Lemma to_uint_not_nil p : Pos.to_uint p ≠ Nil.
Proof.
  intros E. pose proof (DecimalPos.Unsigned.of_to p) as H.
  rewrite E in H. discriminate H.
Qed.

Lemma int_str_uint p :
  Py.int_str (NilEmpty.string_of_uint (Pos.to_uint p)) = Some (Z.pos p).
Proof.
  unfold Py.int_str. rewrite lstrip_uint, rstrip_uint.
  pose proof (to_uint_not_nil p) as Hne.
  pose proof (int_digits_uint (Pos.to_uint p) false (or_introl Hne)) as H.
  rewrite DecimalPos.Unsigned.of_to in H. simpl Z.of_N in H.
  destruct (Pos.to_uint p); [done|..]; exact H.
Qed.

(** [int(str(n)) == n]. *)
Lemma int_str_str_int n : Py.int_str (Py.str_int n) = Some n.
Proof.
  destruct n as [|p|p]; [reflexivity|..]; unfold Py.str_int; simpl Z.to_int;
    cbn [NilZero.string_of_int NilZero.string_of_uint].
  - pose proof (int_str_uint p) as H.
    destruct (Pos.to_uint p) eqn:E; [by destruct (to_uint_not_nil p)|..]; exact H.
  - pose proof (to_uint_not_nil p) as Hne.
    assert (NilZero.string_of_uint (Pos.to_uint p)
            = NilEmpty.string_of_uint (Pos.to_uint p)) as ->
      by (by destruct (Pos.to_uint p)).
    unfold Py.int_str. cbn [Py.int_lstrip]. change (Py.int_isspace "-") with false.
    cbn iota. cbn [Py.int_rstrip]. rewrite rstrip_uint.
    pose proof (int_digits_uint (Pos.to_uint p) false (or_introl Hne)) as H.
    rewrite DecimalPos.Unsigned.of_to in H. simpl Z.of_N in H.
    destruct (NilEmpty.string_of_uint (Pos.to_uint p)) eqn:E.
    + by destruct (Pos.to_uint p).
    + cbn iota. rewrite H. reflexivity.
Qed.

End IntRoundTrip.

(** ** The address pattern *)

Lemma span_all_letters s a b : span Py.isletter s = (a, b) → all_letters a = true.
Proof.
  revert a b. induction s as [|c r IH]; intros a b; simpl.
  - by intros [= <- <-].
  - destruct (Py.isletter c) eqn:Hc.
    + destruct (span Py.isletter r) as [a' b'] eqn:E. intros [= <- <-].
      simpl. rewrite Hc. by apply (IH a' b').
    + by intros [= <- <-].
Qed.

Lemma span_all_digits s a b : span Py.isdigit s = (a, b) → all_digits a = true.
Proof.
  revert a b. induction s as [|c r IH]; intros a b; simpl.
  - by intros [= <- <-].
  - destruct (Py.isdigit c) eqn:Hc.
    + destruct (span Py.isdigit r) as [a' b'] eqn:E. intros [= <- <-].
      simpl. rewrite Hc. by apply (IH a' b').
    + by intros [= <- <-].
Qed.

Lemma CELL_REF_RE_match_groups s g1 g2 :
  CELL_REF_RE_match s = Some (g1, g2) →
  all_letters g1 = true ∧ g1 ≠ EmptyString ∧ all_digits g2 = true ∧ g2 ≠ EmptyString.
Proof.
  unfold CELL_REF_RE_match.
  destruct (span Py.isletter s) as [letters rest] eqn:E1.
  destruct (span Py.isdigit rest) as [digits rest'] eqn:E2.
  destruct letters as [|c l]; [done|]. destruct digits as [|d ds]; [done|].
  destruct (_ || _); [|done]. intros [= <- <-].
  split; [by apply (span_all_letters _ _ _ E1)|].
  split; [done|]. split; [by apply (span_all_digits _ _ _ E2) | done].
Qed.

Lemma isdigit_not_space c : Py.isdigit c = true → Py.int_isspace c = false.
Proof. by destruct c as [[] [] [] [] [] [] [] []]. Qed.

Lemma isdigit_ord c : Py.isdigit c = true → 0 ≤ Py.ord c - 48.
Proof. unfold Py.isdigit. lia. Qed.

Lemma rstrip_digits s : all_digits s = true → Py.int_rstrip s = s.
Proof.
  induction s as [|c r IH]; simpl; [done|]. intros H.
  apply andb_prop in H as [Hc Hr]. rewrite (IH Hr), (isdigit_not_space c Hc).
  by destruct r.
Qed.

Lemma int_digits_nonneg s acc b :
  all_digits s = true → 0 ≤ acc → (s ≠ EmptyString ∨ b = true) →
  ∃ n, Py.int_digits acc b s = Some n ∧ 0 ≤ n.
Proof.
  revert acc b. induction s as [|c r IH]; intros acc b Hs Hacc Hb; simpl.
  - destruct Hb as [Hb | ->]; [done | eauto].
  - simpl in Hs. apply andb_prop in Hs as [Hc Hr]. rewrite Hc.
    apply IH; [done | | by right]. pose proof (isdigit_ord c Hc). lia.
Qed.

Lemma int_str_digits s :
  all_digits s = true → s ≠ EmptyString → ∃ n, Py.int_str s = Some n ∧ 0 ≤ n.
Proof.
  intros Hs Hne. unfold Py.int_str.
  assert (Py.int_lstrip s = s) as ->.
  { destruct s as [|c r]; [done|]. simpl in Hs. apply andb_prop in Hs as [Hc _].
    simpl. by rewrite (isdigit_not_space c Hc). }
  rewrite (rstrip_digits s Hs).
  destruct (int_digits_nonneg s 0 false Hs) as (n & Hn & Hpos); [lia | by left |].
  exists n. split; [|done].
  destruct s as [|c r]; [done|]. simpl in Hs. apply andb_prop in Hs as [Hc _].
  destruct c as [[] [] [] [] [] [] [] []]; try discriminate Hc; exact Hn.
Qed.

(** [parse_cell_ref] succeeds exactly on the strings the pattern matches;
    it returns the upper-cased letters and a row number that is not
    negative. *)
Lemma parse_cell_ref_inv address letters n :
  parse_cell_ref address = Ok (letters, n) →
  ∃ g1 g2, CELL_REF_RE_match address = Some (g1, g2)
           ∧ letters = Py.upper g1 ∧ Py.int_str g2 = Some n ∧ 0 ≤ n.
Proof.
  unfold parse_cell_ref.
  destruct (CELL_REF_RE_match address) as [[g1 g2]|] eqn:E; [|done].
  destruct (CELL_REF_RE_match_groups _ _ _ E) as (_ & _ & Hd & Hne).
  destruct (int_str_digits g2 Hd Hne) as (m & Hm & Hpos).
  rewrite Hm. intros [= <- <-]. eauto 10.
Qed.

Lemma parse_cell_ref_matches address g1 g2 :
  CELL_REF_RE_match address = Some (g1, g2) →
  ∃ n, parse_cell_ref address = Ok (Py.upper g1, n).
Proof.
  intros E. unfold parse_cell_ref. rewrite E.
  destruct (CELL_REF_RE_match_groups _ _ _ E) as (_ & _ & Hd & Hne).
  destruct (int_str_digits g2 Hd Hne) as (m & -> & _). eauto.
Qed.

Lemma parse_cell_ref_raises address e :
  parse_cell_ref address = Raise e →
  e = ValueError ("Invalid cell address: " +:+ address).
Proof.
  unfold parse_cell_ref.
  destruct (CELL_REF_RE_match address) as [[g1 g2]|] eqn:E; [|by intros [= <-]].
  destruct (CELL_REF_RE_match_groups _ _ _ E) as (_ & _ & Hd & Hne).
  by destruct (int_str_digits g2 Hd Hne) as (m & -> & _).
Qed.

Lemma col_index_upper s : col_letters_to_index (Py.upper s) = col_letters_to_index s.
Proof. unfold col_letters_to_index. by rewrite upper_idem. Qed.

Lemma col_index_pos s :
  all_letters s = true → s ≠ EmptyString → 1 ≤ col_letters_to_index s.
Proof.
  intros Hs Hne. rewrite col_index_numeral. destruct s as [|c r]; [done|].
  pose proof (numeral_bounds _ Hs) as [B _]. cbn [String.length] in B.
  rewrite Nat2Z.inj_succ, Z.pow_succ_r in B by lia.
  assert (0 < 26 ^ Z.of_nat (String.length r)) by (apply Z.pow_pos_nonneg; lia).
  lia.
Qed.

(** ** Sorted insertion: the list level *)

Section InsertSorted.

Context {A : Type}.
Implicit Types (l : list A) (x : A) (P : A → bool).

Lemma list_insert_at_0 x l : list_insert_at 0 x l = x :: l.
Proof. reflexivity. Qed.

Lemma list_insert_at_S k x a l :
  list_insert_at (S k) x (a :: l) = a :: list_insert_at k x l.
Proof. reflexivity. Qed.

Lemma list_insert_at_delete k x l :
  (k ≤ length l)%nat → delete k (list_insert_at k x l) = l.
Proof.
  revert l. induction k as [|k IH]; intros l Hk; [done|].
  destruct l as [|a l]; simpl in Hk; [lia|].
  rewrite list_insert_at_S. simpl. f_equal. apply IH. lia.
Qed.

Lemma list_insert_at_lookup k x l :
  (k ≤ length l)%nat → list_insert_at k x l !! k = Some x.
Proof.
  revert l. induction k as [|k IH]; intros l Hk; [done|].
  destruct l as [|a l]; simpl in Hk; [lia|].
  rewrite list_insert_at_S. simpl. apply IH. lia.
Qed.

Lemma insert_index_le P l : (insert_index P l ≤ length l)%nat.
Proof. induction l as [|a l IH]; simpl; [lia|]. destruct (P a); simpl; lia. Qed.

Lemma insert_index_before P l i x :
  (i < insert_index P l)%nat → l !! i = Some x → P x = false.
Proof.
  revert i. induction l as [|a l IH]; intros i; simpl; [lia|].
  destruct (P a) eqn:Ha; [lia|]. destruct i as [|i]; simpl.
  - by intros _ [= <-].
  - intros Hi. apply IH. lia.
Qed.

Lemma insert_index_at P l x : l !! insert_index P l = Some x → P x = true.
Proof.
  induction l as [|a l IH]; simpl; [done|].
  destruct (P a) eqn:Ha; simpl; [by intros [= <-] | done].
Qed.

Lemma insert_index_ext P Q l :
  (∀ x, x ∈ l → P x = Q x) → insert_index P l = insert_index Q l.
Proof.
  induction l as [|a l IH]; intros H; simpl; [done|].
  rewrite <- (H a) by apply list_elem_of_here.
  destruct (P a); [done|]. f_equal. apply IH. intros x Hx. apply H.
  by apply list_elem_of_further.
Qed.

(** The position among the elements satisfying [wf] is the one those
    elements alone determine, when only such elements can exceed. *)
Lemma insert_index_filter P (wf : A → bool) l :
  (∀ x, P x = true → wf x = true) →
  length (List.filter wf (take (insert_index P l) l))
  = insert_index P (List.filter wf l).
Proof.
  intros HP. induction l as [|a l IH]; simpl; [done|].
  destruct (P a) eqn:Ha.
  - simpl. by rewrite (HP a Ha); simpl; rewrite Ha.
  - simpl. destruct (wf a); simpl; [rewrite Ha|]; by rewrite IH.
Qed.

Lemma ascending_cons (a : Z) (l : list Z) :
  ascending (a :: l) = true
  ↔ match l with [] => True | b :: _ => a ≤ b end ∧ ascending l = true.
Proof.
  destruct l as [|b l]; simpl; [tauto|].
  rewrite andb_true_iff, Z.leb_le. tauto.
Qed.

(** Inserting before the first key that exceeds [n] keeps the keys
    ascending. *)
Lemma ascending_insert (key : A → Z) (n : Z) x l :
  key x = n →
  ascending (key <$> l) = true →
  ascending (key <$> list_insert_at (insert_index (λ y, n <? key y) l) x l) = true.
Proof.
  intros Hx. induction l as [|a l IH]; intros Hl.
  - reflexivity.
  - cbn [insert_index]. destruct (n <? key a) eqn:Ha.
    + rewrite list_insert_at_0. rewrite !fmap_cons. apply ascending_cons.
      split; [|done]. apply Z.ltb_lt in Ha. lia.
    + rewrite list_insert_at_S, fmap_cons. rewrite fmap_cons in Hl.
      apply ascending_cons in Hl as [Hhd Hl]. apply ascending_cons.
      split; [|by apply IH]. apply Z.ltb_ge in Ha.
      destruct l as [|b l]; [simpl; lia|].
      cbn [insert_index]. destruct (n <? key b); simpl; simpl in Hhd; lia.
Qed.

Lemma strictly_ascending_cons (a : Z) (l : list Z) :
  strictly_ascending (a :: l) = true
  ↔ match l with [] => True | b :: _ => a < b end ∧ strictly_ascending l = true.
Proof.
  destruct l as [|b l]; simpl; [tauto|].
  rewrite andb_true_iff, Z.ltb_lt. tauto.
Qed.

(** Without repetition, when no key equals [n]. *)
Lemma strictly_ascending_insert (key : A → Z) (n : Z) x l :
  key x = n →
  Forall (λ y, key y ≠ n) l →
  strictly_ascending (key <$> l) = true →
  strictly_ascending (key <$> list_insert_at (insert_index (λ y, n <? key y) l) x l)
  = true.
Proof.
  intros Hx. induction l as [|a l IH]; intros Hne Hl.
  - reflexivity.
  - apply Forall_cons in Hne as [Ha' Hne].
    cbn [insert_index]. destruct (n <? key a) eqn:Ha.
    + rewrite list_insert_at_0. rewrite !fmap_cons. apply strictly_ascending_cons.
      split; [|done]. apply Z.ltb_lt in Ha. lia.
    + rewrite list_insert_at_S, fmap_cons. rewrite fmap_cons in Hl.
      apply strictly_ascending_cons in Hl as [Hhd Hl]. apply strictly_ascending_cons.
      split; [|by apply IH]. apply Z.ltb_ge in Ha.
      destruct l as [|b l]; [simpl; lia|].
      cbn [insert_index]. destruct (n <? key b); simpl; simpl in Hhd; lia.
Qed.

End InsertSorted.

(** Children tagged [t] that come first are found at the same positions in
    the child list and in [findall]. *)
Lemma filter_insert_leading t k new l :
  has_tag t new = true → leading t l = true →
  (k ≤ length (List.filter (has_tag t) l))%nat →
  List.filter (has_tag t) (list_insert_at k new l)
  = list_insert_at k new (List.filter (has_tag t) l).
Proof.
  intros Hnew. revert k. induction l as [|a l IH]; intros k Hl Hk.
  - simpl in Hk. assert (k = 0%nat) as -> by lia. simpl. by rewrite Hnew.
  - destruct k as [|k].
    + rewrite !list_insert_at_0. cbn [List.filter]. by rewrite Hnew.
    + rewrite list_insert_at_S. cbn [List.filter leading] in *.
      destruct (has_tag t a) eqn:Ha.
      * rewrite list_insert_at_S. f_equal. apply IH; [done|]. simpl in Hk. lia.
      * exfalso. assert (List.filter (has_tag t) l = []) as E.
        { clear -Hl. induction l as [|b l IH]; [done|]. simpl in Hl.
          apply andb_prop in Hl as [Hb Hl]. simpl.
          destruct (has_tag t b); [done | by apply IH]. }
        rewrite E in Hk. simpl in Hk. lia.
Qed.

(** ** Sorted insertion of rows and cells *)

Lemma cell_exceeds_key col_idx cell :
  0 ≤ col_idx → cell_exceeds col_idx cell = (col_idx <? cell_column_index cell).
Proof.
  intros H. unfold cell_exceeds, cell_column_index.
  destruct (CELL_REF_RE_match _) as [[g1 g2]|]; [done|].
  symmetry. apply Z.ltb_ge. lia.
Qed.

Lemma cell_exceeds_well_formed col_idx cell :
  cell_exceeds col_idx cell = true → well_formed_cell cell = true.
Proof.
  unfold cell_exceeds, well_formed_cell. by destruct (CELL_REF_RE_match _) as [[g1 g2]|].
Qed.

Lemma malformed_row_num row : well_formed_row row = false → existing_num row = 0.
Proof.
  unfold well_formed_row, existing_num. by destruct (Py.int_str _).
Qed.

Lemma malformed_cell_index cell :
  well_formed_cell cell = false → cell_column_index cell = 0.
Proof.
  unfold well_formed_cell, cell_column_index.
  by destruct (CELL_REF_RE_match _) as [[g1 g2]|].
Qed.

Lemma new_row_num row_num :
  existing_num (mkElement tag_row {[ "r" := Py.str_int row_num ]} None None []) = row_num.
Proof.
  unfold existing_num. cbn [attrib]. rewrite lookup_singleton_eq. simpl.
  by rewrite int_str_str_int.
Qed.

Lemma new_cell_index address letters n :
  parse_cell_ref address = Ok (letters, n) →
  cell_column_index (mkElement tag_c {[ "r" := address ]} None None [])
  = col_letters_to_index letters
  ∧ 1 ≤ col_letters_to_index letters.
Proof.
  intros H. apply parse_cell_ref_inv in H as (g1 & g2 & Hm & -> & _ & _).
  unfold cell_column_index. cbn [attrib]. rewrite lookup_singleton_eq. simpl.
  rewrite Hm, col_index_upper.
  destruct (CELL_REF_RE_match_groups _ _ _ Hm) as (Hl & Hne & _).
  split; [done | by apply col_index_pos].
Qed.

(** C2: in a node whose rows (cells) come first among its children and are
    in ascending order of row number (column index, a malformed address
    counting as 0), the sorted inserter puts the new node immediately before
    the first sibling whose number exceeds the target, at the end if there
    is none; the other children keep their places and order, and the rows
    (cells) are again ascending, without repetition if they were so and no
    sibling carries the target number. *)
Theorem sorted_insertion_keeps_order :
  (∀ sheet_data row_num,
     let rows := findall tag_row sheet_data in
     leading tag_row (children sheet_data) = true →
     ascending (existing_num <$> rows) = true →
     ∃ sheet_data' k new_row,
       insert_row_sorted sheet_data row_num = (sheet_data', k, new_row)
       ∧ existing_num new_row = row_num ∧ children new_row = []
       ∧ sheet_data'
         = with_children sheet_data
             (take k (children sheet_data) ++ new_row :: drop k (children sheet_data))
       ∧ delete k (children sheet_data') = children sheet_data
       ∧ findall tag_row sheet_data' = take k rows ++ new_row :: drop k rows
       ∧ ascending (existing_num <$> findall tag_row sheet_data') = true
       ∧ (k ≤ length rows)%nat
       ∧ (∀ i row, (i < k)%nat → rows !! i = Some row → existing_num row ≤ row_num)
       ∧ (∀ row, rows !! k = Some row → row_num < existing_num row)
       ∧ ((∀ row, row ∈ rows → existing_num row ≤ row_num) → k = length rows)
       ∧ (strictly_ascending (existing_num <$> rows) = true →
          (∀ row, row ∈ rows → existing_num row ≠ row_num) →
          strictly_ascending (existing_num <$> findall tag_row sheet_data') = true))
  ∧ (∀ row address letters n,
       let cells := findall tag_c row in
       let col_idx := col_letters_to_index letters in
       parse_cell_ref address = Ok (letters, n) →
       leading tag_c (children row) = true →
       ascending (cell_column_index <$> cells) = true →
       ∃ row' k new_cell,
         insert_cell_sorted row address = Ok (row', k, new_cell)
         ∧ cell_column_index new_cell = col_idx ∧ children new_cell = []
         ∧ row'
           = with_children row
               (take k (children row) ++ new_cell :: drop k (children row))
         ∧ delete k (children row') = children row
         ∧ findall tag_c row' = take k cells ++ new_cell :: drop k cells
         ∧ ascending (cell_column_index <$> findall tag_c row') = true
         ∧ (k ≤ length cells)%nat
         ∧ (∀ i cell, (i < k)%nat → cells !! i = Some cell →
              cell_column_index cell ≤ col_idx)
         ∧ (∀ cell, cells !! k = Some cell → col_idx < cell_column_index cell)
         ∧ ((∀ cell, cell ∈ cells → cell_column_index cell ≤ col_idx) →
            k = length cells)
         ∧ (strictly_ascending (cell_column_index <$> cells) = true →
            (∀ cell, cell ∈ cells → cell_column_index cell ≠ col_idx) →
            strictly_ascending (cell_column_index <$> findall tag_c row') = true)).
Proof.
  split.
  - intros sheet_data row_num rows Hlead Hasc.
    set (P := λ row, row_num <? existing_num row).
    set (new_row := mkElement tag_row {[ "r" := Py.str_int row_num ]} None None []).
    pose proof (insert_index_le P rows) as Hk.
    assert (Hfilter : findall tag_row
              (with_children sheet_data
                 (list_insert_at (insert_index P rows) new_row (children sheet_data)))
            = list_insert_at (insert_index P rows) new_row rows).
    { unfold findall. cbn [children with_children].
      by apply filter_insert_leading. }
    assert (Hk' : (insert_index P rows ≤ length (children sheet_data))%nat).
    { etrans; [exact Hk|]. unfold rows, findall. apply filter_length_le. }
    exists (with_children sheet_data
              (list_insert_at (insert_index P rows) new_row (children sheet_data))),
           (insert_index P rows), new_row.
    split; [reflexivity|]. split; [apply new_row_num|]. split; [reflexivity|].
    split; [reflexivity|].
    split; [by apply list_insert_at_delete|].
    split; [exact Hfilter|].
    split. { rewrite Hfilter. apply ascending_insert; [apply new_row_num | done]. }
    split; [exact Hk|].
    split. { intros i row Hi Hrow. pose proof (insert_index_before P rows i row Hi Hrow) as H.
             apply Z.ltb_ge in H. exact H. }
    split. { intros row Hrow. pose proof (insert_index_at P rows row Hrow) as H.
             by apply Z.ltb_lt in H. }
    split.
    { intros Hall. destruct (rows !! insert_index P rows) as [row|] eqn:E.
      + pose proof (insert_index_at P rows row E) as H. apply Z.ltb_lt in H.
        assert (row ∈ rows) as Hin by (apply list_elem_of_lookup; eauto).
        specialize (Hall row Hin). lia.
      + apply lookup_ge_None in E. lia. }
    intros Hstrict Hfresh. rewrite Hfilter.
    apply strictly_ascending_insert; [apply new_row_num | | done].
    by apply Forall_forall.
  - intros row address letters n cells col_idx Hparse Hlead Hasc.
    destruct (new_cell_index address letters n Hparse) as [Hnew Hpos].
    fold col_idx in Hnew, Hpos.
    set (new_cell := mkElement tag_c {[ "r" := address ]} None None []) in *.
    set (P := λ cell, col_idx <? cell_column_index cell).
    assert (HP : insert_index (cell_exceeds col_idx) cells = insert_index P cells).
    { apply insert_index_ext. intros c _. apply cell_exceeds_key. lia. }
    pose proof (insert_index_le P cells) as Hk.
    assert (Hfilter : findall tag_c
              (with_children row
                 (list_insert_at (insert_index P cells) new_cell (children row)))
            = list_insert_at (insert_index P cells) new_cell cells).
    { unfold findall. cbn [children with_children].
      by apply filter_insert_leading. }
    assert (Hk' : (insert_index P cells ≤ length (children row))%nat).
    { etrans; [exact Hk|]. unfold cells, findall. apply filter_length_le. }
    exists (with_children row
              (list_insert_at (insert_index P cells) new_cell (children row))),
           (insert_index P cells), new_cell.
    split. { unfold insert_cell_sorted. rewrite Hparse. cbn.
             fold cells col_idx new_cell. by rewrite HP. }
    split; [exact Hnew|]. split; [reflexivity|]. split; [reflexivity|].
    split; [by apply list_insert_at_delete|].
    split; [exact Hfilter|].
    split. { rewrite Hfilter. by apply ascending_insert. }
    split; [exact Hk|].
    split. { intros i cell Hi Hcell.
             pose proof (insert_index_before P cells i cell Hi Hcell) as H.
             apply Z.ltb_ge in H. exact H. }
    split. { intros cell Hcell. pose proof (insert_index_at P cells cell Hcell) as H.
             by apply Z.ltb_lt in H. }
    split.
    { intros Hall. destruct (cells !! insert_index P cells) as [cell|] eqn:E.
      + pose proof (insert_index_at P cells cell E) as H. apply Z.ltb_lt in H.
        assert (cell ∈ cells) as Hin by (apply list_elem_of_lookup; eauto).
        specialize (Hall cell Hin). lia.
      + apply lookup_ge_None in E. lia. }
    intros Hstrict Hfresh. rewrite Hfilter.
    apply strictly_ascending_insert; [done | | done].
    by apply Forall_forall.
Qed.

Lemma sorted_insertion_keeps_order_witness :
  (∃ sheet_data' k new_row,
     insert_row_sorted sample_sheet_data 3 = (sheet_data', k, new_row)
     ∧ ascending (existing_num <$> findall tag_row sheet_data') = true)
  ∧ (∃ row' k new_cell,
       insert_cell_sorted
         (sample_row 2 [sample_cell "A2" "Id"; sample_cell "B2" "Old";
                        sample_cell "D2" "x"]) "C2"
       = Ok (row', k, new_cell)
       ∧ ascending (cell_column_index <$> findall tag_c row') = true).
Proof.
  destruct sorted_insertion_keeps_order as [Hrows Hcells]. split.
  - destruct (Hrows sample_sheet_data 3) as (sd & k & new_row & H1 & _ & _ & _ & _ & _ & H2 & _);
      [vm_compute; reflexivity | vm_compute; reflexivity |].
    exists sd, k, new_row. exact (conj H1 H2).
  - destruct (Hcells (sample_row 2 [sample_cell "A2" "Id"; sample_cell "B2" "Old";
                                    sample_cell "D2" "x"]) "C2" "C" 2)
      as (row' & k & new_cell & H1 & _ & _ & _ & _ & _ & H2 & _);
      [vm_compute; reflexivity | vm_compute; reflexivity | vm_compute; reflexivity |].
    exists row', k, new_cell. exact (conj H1 H2).
Defined.

(** The position the loop of an inserter computes, stated without the
    loop: no element before it exceeds, the element at it exceeds, and it
    is the length of the list when no element exceeds.  The same holds
    among the elements satisfying [wf] alone, when only such elements can
    exceed. *)
Lemma insert_index_first {A} (P wf : A → bool) (l : list A) :
  (∀ x, P x = true → wf x = true) →
  let k := insert_index P l in
  let m := length (List.filter wf (take k l)) in
  (k ≤ length l)%nat
  ∧ (∀ i x, (i < k)%nat → l !! i = Some x → P x = false)
  ∧ (∀ x, l !! k = Some x → P x = true)
  ∧ ((∀ x, x ∈ l → P x = false) → k = length l)
  ∧ (m ≤ length (List.filter wf l))%nat
  ∧ (∀ i x, (i < m)%nat → List.filter wf l !! i = Some x → P x = false)
  ∧ (∀ x, List.filter wf l !! m = Some x → P x = true)
  ∧ m = insert_index P (List.filter wf l).
Proof.
  intros Hwf k m.
  assert (Hm : m = insert_index P (List.filter wf l))
    by (by apply insert_index_filter).
  split; [apply insert_index_le|].
  split; [apply insert_index_before|].
  split; [apply insert_index_at|].
  split.
  { intros Hall. destruct (l !! k) as [x|] eqn:E.
    - pose proof (insert_index_at P l x E) as H.
      rewrite Hall in H by (apply list_elem_of_lookup; eauto). done.
    - apply lookup_ge_None in E. pose proof (insert_index_le P l). unfold k in *. lia. }
  rewrite Hm.
  split; [apply insert_index_le|].
  split; [apply insert_index_before | split; [apply insert_index_at | done]].
Qed.

(** C8: sorted insertion goes through whatever the address attributes of
    the existing siblings are, and returns the new node, which carries the
    target address (row number) and nothing else.  A malformed sibling
    counts as index 0 (row number 0) in the comparison, so that it never
    stops the scan: the new node stands immediately before the first
    sibling that is well formed and exceeds the target, after every sibling
    that does not exceed it, and at the end when no well-formed sibling
    exceeds it.  Among the well-formed siblings alone the new node stands
    immediately before the first that exceeds the target.  Every sibling,
    malformed or not, is kept unmodified at its place, and the node itself
    keeps its tag and attributes. *)
Theorem malformed_siblings_are_passed_over :
  (∀ row address letters n,
     let cells := findall tag_c row in
     let col_idx := col_letters_to_index letters in
     let wf_cells := List.filter well_formed_cell cells in
     parse_cell_ref address = Ok (letters, n) →
     ∃ row' k new_cell,
       let m := length (List.filter well_formed_cell (take k cells)) in
       insert_cell_sorted row address = Ok (row', k, new_cell)
       ∧ new_cell = mkElement tag_c {[ "r" := address ]} None None []
       ∧ 1 ≤ col_idx
       ∧ (k ≤ length cells)%nat
       ∧ (∀ i cell, (i < k)%nat → cells !! i = Some cell →
            cell_column_index cell ≤ col_idx)
       ∧ (∀ cell, cells !! k = Some cell →
            well_formed_cell cell = true ∧ col_idx < cell_column_index cell)
       ∧ ((∀ cell, cell ∈ cells → well_formed_cell cell = true →
             cell_column_index cell ≤ col_idx) → k = length cells)
       ∧ (m ≤ length wf_cells)%nat
       ∧ (∀ i cell, (i < m)%nat → wf_cells !! i = Some cell →
            cell_column_index cell ≤ col_idx)
       ∧ (∀ cell, wf_cells !! m = Some cell → col_idx < cell_column_index cell)
       ∧ children row' = take k (children row) ++ new_cell :: drop k (children row)
       ∧ tag row' = tag row ∧ attrib row' = attrib row
       ∧ (∀ cell, well_formed_cell cell = false → cell_column_index cell = 0)
       ∧ k = insert_index (λ cell, col_idx <? cell_column_index cell) cells
       ∧ m = insert_index (λ cell, col_idx <? cell_column_index cell) wf_cells
       ∧ row' = with_children row (list_insert_at k new_cell (children row))
       ∧ delete k (children row') = children row)
  ∧ (∀ sheet_data row_num,
       let rows := findall tag_row sheet_data in
       let wf_rows := List.filter well_formed_row rows in
       0 ≤ row_num →
       ∃ sheet_data' k new_row,
         let m := length (List.filter well_formed_row (take k rows)) in
         insert_row_sorted sheet_data row_num = (sheet_data', k, new_row)
         ∧ new_row = mkElement tag_row {[ "r" := Py.str_int row_num ]} None None []
         ∧ (k ≤ length rows)%nat
         ∧ (∀ i row, (i < k)%nat → rows !! i = Some row → existing_num row ≤ row_num)
         ∧ (∀ row, rows !! k = Some row →
              well_formed_row row = true ∧ row_num < existing_num row)
         ∧ ((∀ row, row ∈ rows → well_formed_row row = true →
               existing_num row ≤ row_num) → k = length rows)
         ∧ (m ≤ length wf_rows)%nat
         ∧ (∀ i row, (i < m)%nat → wf_rows !! i = Some row →
              existing_num row ≤ row_num)
         ∧ (∀ row, wf_rows !! m = Some row → row_num < existing_num row)
         ∧ children sheet_data'
           = take k (children sheet_data) ++ new_row :: drop k (children sheet_data)
         ∧ tag sheet_data' = tag sheet_data ∧ attrib sheet_data' = attrib sheet_data
         ∧ (∀ row, well_formed_row row = false → existing_num row = 0)
         ∧ k = insert_index (λ row, row_num <? existing_num row) rows
         ∧ m = insert_index (λ row, row_num <? existing_num row) wf_rows
         ∧ sheet_data'
           = with_children sheet_data (list_insert_at k new_row (children sheet_data))
         ∧ delete k (children sheet_data') = children sheet_data).
Proof.
  split.
  - intros row address letters n cells col_idx wf_cells Hparse.
    destruct (new_cell_index address letters n Hparse) as [_ Hpos].
    fold col_idx in Hpos.
    set (P := λ cell, col_idx <? cell_column_index cell).
    assert (HP : ∀ l, insert_index (cell_exceeds col_idx) l = insert_index P l).
    { intros l. apply insert_index_ext. intros c _. apply cell_exceeds_key. lia. }
    assert (Hwf : ∀ cell, P cell = true → well_formed_cell cell = true).
    { intros cell Hc. apply (cell_exceeds_well_formed col_idx).
      by rewrite cell_exceeds_key by lia. }
    destruct (insert_index_first P well_formed_cell cells Hwf)
      as (Hk & Hbefore & Hat & Hend & Hm & Hbefore' & Hat' & Hmeq).
    eexists _, (insert_index P cells), _.
    split. { unfold insert_cell_sorted. rewrite Hparse. cbn.
             fold cells col_idx. by rewrite HP. }
    split; [reflexivity|]. split; [exact Hpos|]. split; [exact Hk|].
    split. { intros i cell Hi Hcell. specialize (Hbefore i cell Hi Hcell).
             by apply Z.ltb_ge in Hbefore. }
    split. { intros cell Hcell. specialize (Hat cell Hcell).
             split; [by apply Hwf | by apply Z.ltb_lt in Hat]. }
    split. { intros Hall. apply Hend. intros cell Hcell. apply Z.ltb_ge.
             destruct (well_formed_cell cell) eqn:E; [by apply Hall|].
             rewrite (malformed_cell_index cell E). lia. }
    split; [exact Hm|].
    split. { intros i cell Hi Hcell. specialize (Hbefore' i cell Hi Hcell).
             by apply Z.ltb_ge in Hbefore'. }
    split. { intros cell Hcell. specialize (Hat' cell Hcell).
             by apply Z.ltb_lt in Hat'. }
    split; [reflexivity|]. split; [reflexivity|]. split; [reflexivity|].
    split; [apply malformed_cell_index|]. split; [reflexivity|].
    split; [exact Hmeq|]. split; [reflexivity|].
    cbn [children with_children]. apply list_insert_at_delete.
    etrans; [apply insert_index_le|]. apply filter_length_le.
  - intros sheet_data row_num rows wf_rows Hpos.
    set (P := λ row, row_num <? existing_num row).
    assert (Hwf : ∀ row, P row = true → well_formed_row row = true).
    { intros r Hr. unfold P in Hr. apply Z.ltb_lt in Hr.
      destruct (well_formed_row r) eqn:E; [done|].
      rewrite (malformed_row_num r E) in Hr. lia. }
    destruct (insert_index_first P well_formed_row rows Hwf)
      as (Hk & Hbefore & Hat & Hend & Hm & Hbefore' & Hat' & Hmeq).
    eexists _, (insert_index P rows), _.
    split; [reflexivity|]. split; [reflexivity|]. split; [exact Hk|].
    split. { intros i row Hi Hrow. specialize (Hbefore i row Hi Hrow).
             by apply Z.ltb_ge in Hbefore. }
    split. { intros row Hrow. specialize (Hat row Hrow).
             split; [by apply Hwf | by apply Z.ltb_lt in Hat]. }
    split. { intros Hall. apply Hend. intros row Hrow. apply Z.ltb_ge.
             destruct (well_formed_row row) eqn:E; [by apply Hall|].
             rewrite (malformed_row_num row E). lia. }
    split; [exact Hm|].
    split. { intros i row Hi Hrow. specialize (Hbefore' i row Hi Hrow).
             by apply Z.ltb_ge in Hbefore'. }
    split. { intros row Hrow. specialize (Hat' row Hrow).
             by apply Z.ltb_lt in Hat'. }
    split; [reflexivity|]. split; [reflexivity|]. split; [reflexivity|].
    split; [apply malformed_row_num|]. split; [reflexivity|].
    split; [exact Hmeq|]. split; [reflexivity|].
    cbn [children with_children]. apply list_insert_at_delete.
    etrans; [apply insert_index_le|]. apply filter_length_le.
Qed.

Lemma malformed_siblings_are_passed_over_witness :
  (∃ row',
     insert_cell_sorted sample_damaged_row "B7"
     = Ok (row', 3%nat, mkElement tag_c {[ "r" := "B7" ]} None None [])
     ∧ children row'
       = take 3 (children sample_damaged_row)
         ++ mkElement tag_c {[ "r" := "B7" ]} None None []
            :: drop 3 (children sample_damaged_row))
  ∧ (∃ sheet_data',
       insert_row_sorted sample_damaged_sheet_data 3
       = (sheet_data', 2%nat, mkElement tag_row {[ "r" := "3" ]} None None [])
       ∧ children sheet_data'
         = take 2 (children sample_damaged_sheet_data)
           ++ mkElement tag_row {[ "r" := "3" ]} None None []
              :: drop 2 (children sample_damaged_sheet_data)).
Proof.
  destruct malformed_siblings_are_passed_over as [Hcells Hrows]. split.
  - destruct (Hcells sample_damaged_row "B7" "B" 7)
      as (row' & k & new_cell & H1 & -> & _ & _ & _ & _ & _ & _ & _ & _ & H2
          & _ & _ & _ & Hk & _);
      [vm_compute; reflexivity|].
    assert (k = 3%nat) as -> by (rewrite Hk; vm_compute; reflexivity).
    exists row'. exact (conj H1 H2).
  - destruct (Hrows sample_damaged_sheet_data 3)
      as (sd & k & new_row & H1 & -> & _ & _ & _ & _ & _ & _ & _ & H2
          & _ & _ & _ & Hk & _); [lia|].
    assert (k = 2%nat) as -> by (rewrite Hk; vm_compute; reflexivity).
    exists sd. exact (conj H1 H2).
Defined.

(** ** Locating nodes *)

Section FirstAt.

Context {A : Type}.
Implicit Types (l : list A) (P : A → bool).

Lemma first_at_Some P o l i x :
  first_at P o l = Some (i, x) →
  (o ≤ i)%nat ∧ l !! (i - o)%nat = Some x ∧ P x = true
  ∧ ∀ j y, (j < i - o)%nat → l !! j = Some y → P y = false.
Proof.
  revert o. induction l as [|a l IH]; intros o; simpl; [done|].
  destruct (P a) eqn:Ha.
  - intros [= <- <-]. rewrite Nat.sub_diag. repeat split; [lia | done | lia].
  - intros H. destruct (IH _ H) as (Ho & Hl & Hx & Hbefore).
    split; [lia|]. replace (i - o)%nat with (S (i - S o)) by lia.
    split; [done|]. split; [done|].
    intros [|j] y Hj; simpl; [by intros [= <-] | apply Hbefore; lia].
Qed.

Lemma first_at_None P o l : first_at P o l = None → ∀ y, y ∈ l → P y = false.
Proof.
  revert o. induction l as [|a l IH]; intros o; simpl.
  - intros _ y Hy. by apply not_elem_of_nil in Hy.
  - destruct (P a) eqn:Ha; [done|]. intros H y Hy.
    apply elem_of_cons in Hy as [-> | Hy]; [done | by apply (IH _ H)].
Qed.

(** Replacing the node found by one that still satisfies the test. *)
Lemma first_at_update P o l i x x' :
  first_at P o l = Some (i, x) → P x' = true →
  first_at P o (<[(i - o)%nat := x']> l) = Some (i, x').
Proof.
  revert o. induction l as [|a l IH]; intros o; simpl; [done|].
  destruct (P a) eqn:Ha.
  - intros [= <- <-] Hx'. rewrite Nat.sub_diag. simpl. by rewrite Hx'.
  - intros H Hx'. destruct (first_at_Some _ _ _ _ _ H) as (Ho & _).
    replace (i - o)%nat with (S (i - S o)) by lia. simpl. rewrite Ha.
    by apply IH.
Qed.

(** Inserting a node that satisfies the test where none did. *)
Lemma first_at_insert P o l k x' :
  first_at P o l = None → P x' = true → (k ≤ length l)%nat →
  first_at P o (list_insert_at k x' l) = Some ((o + k)%nat, x').
Proof.
  revert o k. induction l as [|a l IH]; intros o k; simpl.
  - intros _ Hx' Hk. assert (k = 0%nat) as -> by lia. simpl.
    rewrite Hx'. by rewrite Nat.add_0_r.
  - destruct (P a) eqn:Ha; [done|]. intros H Hx' Hk.
    destruct k as [|k].
    + rewrite list_insert_at_0. simpl. rewrite Hx'. by rewrite Nat.add_0_r.
    + rewrite list_insert_at_S. simpl. rewrite Ha.
      rewrite (IH (S o) k H Hx') by lia. do 2 f_equal. lia.
Qed.

End FirstAt.

Lemma list_insert_at_update {A} k (x y : A) l :
  (k ≤ length l)%nat → <[k := y]> (list_insert_at k x l) = list_insert_at k y l.
Proof.
  revert l. induction k as [|k IH]; intros l Hk; [done|].
  destruct l as [|a l]; simpl in Hk; [lia|].
  rewrite !list_insert_at_S. simpl. f_equal. apply IH. lia.
Qed.

(** ** Rewriting a cell *)

Lemma tag_is_not_t : has_tag tag_t (mkElement tag_is ∅ None None []) = false.
Proof. by vm_compute. Qed.

Lemma append_empty_r s : s +:+ EmptyString = s.
Proof.
  induction s as [|c r IH]; [reflexivity|].
  change (String c (r +:+ EmptyString) = String c r). by rewrite IH.
Qed.

Lemma write_inline_string_type cell value :
  attrib (write_inline_string cell value) !! "t" = Some "inlineStr".
Proof. unfold write_inline_string. cbn [attrib]. apply lookup_insert_eq. Qed.

Lemma write_inline_string_r cell value :
  attrib (write_inline_string cell value) !! "r" = attrib cell !! "r".
Proof. unfold write_inline_string. cbn [attrib]. by apply lookup_insert_ne. Qed.

Lemma write_inline_string_tag cell value :
  tag (write_inline_string cell value) = tag cell.
Proof. reflexivity. Qed.

(** The rewritten cell reads back as the value written. *)
Lemma extract_write_inline_string cell value shared_strings :
  extract_cell_text (write_inline_string cell value) shared_strings = value.
Proof.
  unfold extract_cell_text. rewrite write_inline_string_type.
  rewrite bool_decide_eq_true_2 by done.
  unfold findall_desc, write_inline_string. cbn [children flat_map iter app].
  cbn [List.filter]. unfold has_tag at 1. cbn [tag].
  assert (bool_decide (tag_is = tag_t) = false) as -> by (by vm_compute).
  unfold has_tag. cbn [tag]. rewrite bool_decide_eq_true_2 by done.
  cbn. apply append_empty_r.
Qed.

(** ** Reading a cell *)

Lemma iter_children e : iter e = e :: flat_map iter (children e).
Proof.
  destruct e as [t a tx tl cs]. reflexivity.
Qed.

Lemma tagged_below_children t e :
  tagged_below t e
  = flat_map (λ c, (if bool_decide (tag c = t) then [c] else []) ++ tagged_below t c)
             (children e).
Proof.
  destruct e as [tg a tx tl cs]. cbn [tagged_below children].
  induction cs as [|c cs IH]; [done|]. cbn [flat_map]. rewrite <- IH.
  by rewrite <- app_assoc.
Qed.

(** Induction on a tree: a property that holds of a node whenever it holds
    of its children holds of every node. *)
Lemma Element_children_ind (P : Element → Prop) :
  (∀ e, Forall P (children e) → P e) → ∀ e, P e.
Proof.
  intros H. fix IH 1. intros [tg a tx tl cs]. apply H. cbn [children].
  induction cs as [|c cs IHcs]; constructor; [apply IH | exact IHcs].
Qed.

(** [findall(".//" + t)] lists the nodes below in document order. *)
Lemma findall_desc_tagged_below t e : findall_desc t e = tagged_below t e.
Proof.
  induction e as [e IH] using Element_children_ind.
  unfold findall_desc in *. rewrite tagged_below_children.
  induction IH as [|c cs Hc _ IHcs]; [done|].
  cbn [flat_map]. rewrite iter_children, List.filter_app. cbn [List.filter].
  rewrite Hc, IHcs. unfold has_tag. rewrite <- app_assoc.
  by destruct (bool_decide (tag c = t)).
Qed.

(** ["".join(l)] is the concatenation of the strings of [l]. *)
Lemma join_concat l : Py.join l = String.concat EmptyString l.
Proof.
  induction l as [|x l IH]; [done|]. cbn [Py.join String.concat]. rewrite IH.
  destruct l as [|y l]; [apply append_empty_r | done].
Qed.

(** C9: [extract_cell_text] returns, for an inline-string cell, the
    concatenation of the texts of the text nodes below the cell, in
    document order.  For any other cell it reads the value node, the first
    child tagged [v]: without one, or when it has no text, the result is
    the empty string; for a shared-string cell whose value reads as an
    index in range (a decimal numeral among others) it is the shared
    string at that index; otherwise (index out of range or unreadable, or
    any other cell type) it is the raw value text. *)
Theorem extract_cell_text_cases (cell : Element) (shared_strings : list string) :
  (attrib cell !! "t" = Some "inlineStr" →
     extract_cell_text cell shared_strings = String.concat EmptyString (text_runs cell)
     ∧ extract_cell_text cell shared_strings
       = Py.join (text_or_empty <$> findall_desc tag_t cell))
  ∧ (attrib cell !! "t" ≠ Some "inlineStr" → find tag_v cell = None →
     extract_cell_text cell shared_strings = EmptyString
     ∧ ∀ child, child ∈ children cell → tag child ≠ tag_v)
  ∧ (∀ k value_node,
       attrib cell !! "t" ≠ Some "inlineStr" →
       find tag_v cell = Some (k, value_node) →
       (children cell !! k = Some value_node ∧ tag value_node = tag_v
        ∧ ∀ j child, (j < k)%nat → children cell !! j = Some child → tag child ≠ tag_v)
       ∧ (text value_node = None → extract_cell_text cell shared_strings = EmptyString)
       ∧ (∀ raw, text value_node = Some raw →
            (attrib cell !! "t" ≠ Some "s" →
               extract_cell_text cell shared_strings = raw)
            ∧ (attrib cell !! "t" = Some "s" →
                 (Py.int_str raw = None →
                    extract_cell_text cell shared_strings = raw)
                 ∧ (∀ idx, Py.int_str raw = Some idx →
                      (idx < 0 ∨ Z.of_nat (length shared_strings) ≤ idx →
                         extract_cell_text cell shared_strings = raw)
                      ∧ (∀ s, 0 ≤ idx →
                           shared_strings !! Z.to_nat idx = Some s →
                           extract_cell_text cell shared_strings = s))
                 ∧ (∀ n s, raw = Py.str_int (Z.of_nat n) →
                      shared_strings !! n = Some s →
                      extract_cell_text cell shared_strings = s)
                 ∧ (∀ n, raw = Py.str_int (Z.of_nat n) →
                      (length shared_strings ≤ n)%nat →
                      extract_cell_text cell shared_strings = raw)))).
Proof.
  unfold extract_cell_text. split; [|split].
  - intros ->. rewrite bool_decide_eq_true_2 by done. split; [|done].
    rewrite join_concat. unfold text_runs. by rewrite findall_desc_tagged_below.
  - intros Hni Hv. rewrite Hv. rewrite bool_decide_eq_false_2 by done.
    split; [done|]. intros child Hchild.
    pose proof (first_at_None _ _ _ Hv child Hchild) as H.
    unfold has_tag in H. by apply bool_decide_eq_false_1 in H.
  - intros k value_node Hni Hv. rewrite Hv. rewrite (bool_decide_eq_false_2 _ Hni).
    split.
    { destruct (first_at_Some _ _ _ _ _ Hv) as (_ & Hk & Ht & Hbefore).
      rewrite Nat.sub_0_r in Hk, Hbefore. split; [done|].
      split; [unfold has_tag in Ht; by apply bool_decide_eq_true_1 in Ht|].
      intros j child Hj Hchild. specialize (Hbefore j child Hj Hchild).
      unfold has_tag in Hbefore. by apply bool_decide_eq_false_1 in Hbefore. }
    split.
    + by intros ->.
    + intros raw ->. split.
      * intros Hns. by rewrite bool_decide_eq_false_2.
      * intros Hs. rewrite (bool_decide_eq_true_2 _ Hs).
        assert (Hin : ∀ idx s, Py.int_str raw = Some idx → 0 ≤ idx →
                  shared_strings !! Z.to_nat idx = Some s →
                  match Py.int_str raw with
                  | Some idx =>
                      if (0 <=? idx) && (idx <? Z.of_nat (length shared_strings))
                      then default raw (shared_strings !! Z.to_nat idx) else raw
                  | None => raw
                  end = s).
        { intros idx s -> Hpos Hs'. rewrite Hs'. apply lookup_lt_Some in Hs'.
          by rewrite (proj2 (Z.leb_le 0 idx)), (proj2 (Z.ltb_lt idx _)) by lia. }
        assert (Hout : ∀ idx, Py.int_str raw = Some idx →
                  idx < 0 ∨ Z.of_nat (length shared_strings) ≤ idx →
                  match Py.int_str raw with
                  | Some idx =>
                      if (0 <=? idx) && (idx <? Z.of_nat (length shared_strings))
                      then default raw (shared_strings !! Z.to_nat idx) else raw
                  | None => raw
                  end = raw).
        { intros idx -> [Hneg | Hbig].
          - by rewrite (proj2 (Z.leb_gt 0 idx)).
          - rewrite (proj2 (Z.ltb_ge idx _)) by done. by rewrite andb_false_r. }
        split; [by intros ->|]. split; [|split].
        -- intros idx Hidx. split; [by apply Hout | intros s; by apply Hin].
        -- intros n s -> Hs'. apply (Hin (Z.of_nat n)).
           ++ apply int_str_str_int.
           ++ lia.
           ++ by rewrite Nat2Z.id.
        -- intros n -> Hn. apply (Hout (Z.of_nat n)); [apply int_str_str_int | lia].
Qed.

Lemma extract_cell_text_cases_witness :
  extract_cell_text sample_rich_cell [] = "Hello !"
  ∧ extract_cell_text
      (mkElement tag_c {[ "r" := "B2"; "t" := "s" ]} None None
         [mkElement tag_v ∅ (Some "1") None []])
      ["Old"; "New"]
    = "New"
  ∧ extract_cell_text
      (mkElement tag_c {[ "r" := "B2"; "t" := "s" ]} None None
         [mkElement tag_v ∅ (Some "7") None []])
      ["Old"; "New"]
    = "7"
  ∧ extract_cell_text
      (mkElement tag_c {[ "r" := "B2"; "t" := "n" ]} None None
         [mkElement (qname NS_MAIN "f") ∅ (Some "A1+1") None [];
          mkElement tag_v ∅ (Some "42") None []])
      ["Old"; "New"]
    = "42"
  ∧ extract_cell_text (mkElement tag_c {[ "r" := "B2"; "t" := "s" ]} None None [])
      ["Old"; "New"]
    = EmptyString.
Proof.
  split; [|split; [|split; [|split]]].
  - destruct (extract_cell_text_cases sample_rich_cell []) as (H & _).
    destruct H as [H _]; [vm_compute; reflexivity|].
    rewrite H. vm_compute. reflexivity.
  - set (value_node := mkElement tag_v ∅ (Some "1") None []).
    set (cell := mkElement tag_c {[ "r" := "B2"; "t" := "s" ]} None None [value_node]).
    destruct (extract_cell_text_cases cell ["Old"; "New"]) as (_ & _ & H).
    destruct (H 0%nat value_node) as (_ & _ & H');
      [vm_compute; discriminate | reflexivity |].
    destruct (H' "1" eq_refl) as [_ Hs].
    destruct Hs as (_ & _ & Hidx & _); [reflexivity|].
    apply (Hidx 1%nat "New"); reflexivity.
  - set (value_node := mkElement tag_v ∅ (Some "7") None []).
    set (cell := mkElement tag_c {[ "r" := "B2"; "t" := "s" ]} None None [value_node]).
    destruct (extract_cell_text_cases cell ["Old"; "New"]) as (_ & _ & H).
    destruct (H 0%nat value_node) as (_ & _ & H');
      [vm_compute; discriminate | reflexivity |].
    destruct (H' "7" eq_refl) as [_ Hs].
    destruct Hs as (_ & _ & _ & Hidx); [reflexivity|].
    apply (Hidx 7%nat); [reflexivity | simpl; lia].
  - set (value_node := mkElement tag_v ∅ (Some "42") None []).
    set (cell := mkElement tag_c {[ "r" := "B2"; "t" := "n" ]} None None
                   [mkElement (qname NS_MAIN "f") ∅ (Some "A1+1") None []; value_node]).
    destruct (extract_cell_text_cases cell ["Old"; "New"]) as (_ & _ & H).
    destruct (H 1%nat value_node) as (_ & _ & H');
      [vm_compute; discriminate | vm_compute; reflexivity |].
    destruct (H' "42" eq_refl) as [Hraw _].
    apply Hraw. vm_compute. discriminate.
  - destruct (extract_cell_text_cases
                (mkElement tag_c {[ "r" := "B2"; "t" := "s" ]} None None [])
                ["Old"; "New"]) as (_ & H & _).
    destruct H as [H _]; [vm_compute; discriminate | reflexivity | exact H].
Defined.

(** ** Applying one change *)

Lemma well_typed_ints c :
  well_typed c = true →
  ∃ table_index column_index,
    py_int (get c "tableIndex" (PInt (-1))) = Ok table_index
    ∧ column_index_of c = Ok column_index.
Proof.
  unfold well_typed, column_index_of, int_coercible. intros H.
  apply andb_prop in H as [H1 H2].
  destruct (py_int (get c "tableIndex" (PInt (-1)))) as [ti|]; [|done].
  exists ti. destruct (get c "columnIndex" PNone) as [| b | n | s | s o]; cbn in *;
    try (eexists; split; reflexivity).
  - destruct (Py.int_str s); [|done]. eexists; split; reflexivity.
  - destruct o; [|done]. eexists; split; reflexivity.
Qed.

Lemma insert_cell_sorted_eq row address letters n :
  parse_cell_ref address = Ok (letters, n) →
  let new_cell := mkElement tag_c {[ "r" := address ]} None None [] in
  let k := insert_index (cell_exceeds (col_letters_to_index letters)) (findall tag_c row) in
  insert_cell_sorted row address
  = Ok (with_children row (list_insert_at k new_cell (children row)), k, new_cell)
  ∧ (k ≤ length (children row))%nat.
Proof.
  intros H new_cell k. split.
  - unfold insert_cell_sorted. rewrite H. reflexivity.
  - etrans; [apply insert_index_le|]. apply filter_length_le.
Qed.

Lemma row_test_set_child row j cell' s :
  has_tag tag_row (set_child row j cell') && r_is s (set_child row j cell')
  = has_tag tag_row row && r_is s row.
Proof. reflexivity. Qed.

Lemma cell_test_written cell value s :
  has_tag tag_c (write_inline_string cell value) && r_is s (write_inline_string cell value)
  = has_tag tag_c cell && r_is s cell.
Proof.
  unfold has_tag, r_is. by rewrite write_inline_string_tag, write_inline_string_r.
Qed.

Lemma new_cell_test address :
  has_tag tag_c (mkElement tag_c {[ "r" := address ]} None None [])
  && r_is address (mkElement tag_c {[ "r" := address ]} None None []) = true.
Proof.
  unfold has_tag, r_is. cbn [tag attrib]. rewrite lookup_singleton_eq.
  by rewrite !bool_decide_eq_true_2.
Qed.

Lemma new_row_test n cs :
  has_tag tag_row (mkElement tag_row {[ "r" := Py.str_int n ]} None None cs)
  && r_is (Py.str_int n) (mkElement tag_row {[ "r" := Py.str_int n ]} None None cs) = true.
Proof.
  unfold has_tag, r_is. cbn [tag attrib]. rewrite lookup_singleton_eq.
  by rewrite !bool_decide_eq_true_2.
Qed.

Section PatchChange.

Variables (shared_strings : list string) (sheet_data : Element) (applied : Z)
          (issues : list issue) (c : change) (letters : string) (row_num : Z).

Let address := Py.strip (py_str (get c "sourceAddress" (PStr EmptyString))).
Let before := py_str (get c "beforeName" (PStr EmptyString)).
Let after := py_str (get c "afterName" (PStr EmptyString)).
Let current_value := current_value_at shared_strings sheet_data row_num address.

Hypothesis Htyped : well_typed c = true.
Hypothesis Hparse : parse_cell_ref address = Ok (letters, row_num).

Lemma patch_change_mismatch :
  Py.strip current_value ≠ Py.strip before →
  Py.strip current_value ≠ Py.strip after →
  ∃ table_index column_index,
    patch_change shared_strings (sheet_data, applied, issues) c
    = Ok (sheet_data, applied,
          issues ++ [mkIssue (get c "sheetName" (PStr EmptyString)) address
                             (mismatch_reason before current_value)
                             table_index column_index (target_of c)]).
Proof.
  intros Hb Ha. destruct (well_typed_ints c Htyped) as (ti & ci & Hti & Hci).
  exists ti, ci. unfold patch_change. rewrite Hti, Hci. cbn [mbind result_bind].
  fold address before after. rewrite Hparse.
  unfold current_value, current_value_at in Hb, Ha |- *.
  destruct (find_row sheet_data row_num) as [[i row]|].
  - destruct (find_cell row address) as [[j cell]|];
      rewrite (bool_decide_eq_false_2 _ Hb), (bool_decide_eq_false_2 _ Ha); reflexivity.
  - rewrite (bool_decide_eq_false_2 _ Hb), (bool_decide_eq_false_2 _ Ha); reflexivity.
Qed.

Lemma patch_change_existing i row j cell :
  find_row sheet_data row_num = Some (i, row) →
  find_cell row address = Some (j, cell) →
  Py.strip (extract_cell_text cell shared_strings) = Py.strip before
  ∨ Py.strip (extract_cell_text cell shared_strings) = Py.strip after →
  patch_change shared_strings (sheet_data, applied, issues) c
  = Ok (set_child sheet_data i (set_child row j (write_inline_string cell after)),
        applied + 1, issues).
Proof.
  intros Hrow Hcell Hmatch.
  destruct (well_typed_ints c Htyped) as (ti & ci & Hti & Hci).
  unfold patch_change. rewrite Hti, Hci. cbn [mbind result_bind].
  fold address before after. rewrite Hparse, Hrow, Hcell.
  assert (bool_decide (Py.strip (extract_cell_text cell shared_strings) = Py.strip before)
          || bool_decide (Py.strip (extract_cell_text cell shared_strings) = Py.strip after)
          = true) as ->.
  { destruct Hmatch as [H | H]; rewrite (bool_decide_eq_true_2 _ H);
      [done | apply orb_true_r]. }
  reflexivity.
Qed.

(** After a change is applied the validation step would read [afterName]
    at its address. *)
Lemma patch_change_applied :
  Py.strip current_value = Py.strip before ∨ Py.strip current_value = Py.strip after →
  ∃ sheet_data',
    patch_change shared_strings (sheet_data, applied, issues) c
    = Ok (sheet_data', applied + 1, issues)
    ∧ current_value_at shared_strings sheet_data' row_num address = after.
Proof.
  intros Hmatch.
  destruct (well_typed_ints c Htyped) as (ti & ci & Hti & Hci).
  unfold patch_change. rewrite Hti, Hci. cbn [mbind result_bind].
  fold address before after. rewrite Hparse.
  unfold current_value, current_value_at in Hmatch.
  destruct (find_row sheet_data row_num) as [[i row]|] eqn:Hrow.
  - destruct (first_at_Some _ _ _ _ _ Hrow) as (_ & _ & Hrowtest & _).
    destruct (find_cell row address) as [[j cell]|] eqn:Hcell.
    + assert (bool_decide (Py.strip (extract_cell_text cell shared_strings) = Py.strip before)
              || bool_decide (Py.strip (extract_cell_text cell shared_strings) = Py.strip after)
              = true) as ->.
      { destruct Hmatch as [H | H]; rewrite (bool_decide_eq_true_2 _ H);
          [done | apply orb_true_r]. }
      eexists. split; [reflexivity|].
      destruct (first_at_Some _ _ _ _ _ Hcell) as (_ & _ & Hcelltest & _).
      unfold current_value_at, find_row. cbn [set_child with_children children].
      rewrite <- (Nat.sub_0_r i) at 1.
      rewrite (first_at_update _ _ _ _ _ (set_child row j (write_inline_string cell after)) Hrow)
        by (by rewrite row_test_set_child).
      unfold find_cell. cbn [set_child with_children children].
      rewrite <- (Nat.sub_0_r j) at 1.
      rewrite (first_at_update _ _ _ _ _ (write_inline_string cell after) Hcell)
        by (by rewrite cell_test_written).
      apply extract_write_inline_string.
    + assert (bool_decide (Py.strip EmptyString = Py.strip before)
              || bool_decide (Py.strip EmptyString = Py.strip after) = true) as ->.
      { destruct Hmatch as [H | H]; rewrite (bool_decide_eq_true_2 _ H);
          [done | apply orb_true_r]. }
      destruct (insert_cell_sorted_eq row address letters row_num Hparse) as [-> Hk].
      cbn [mbind result_bind].
      eexists. split; [reflexivity|].
      unfold current_value_at, find_row. cbn [set_child with_children children].
      rewrite <- (Nat.sub_0_r i) at 1.
      erewrite (first_at_update _ _ _ _ _ _ Hrow) by exact Hrowtest.
      unfold find_cell. cbn [set_child with_children children].
      rewrite list_insert_at_update by exact Hk.
      rewrite (first_at_insert _ _ _ _ _ Hcell) by
        (first [ by rewrite cell_test_written, new_cell_test | exact Hk ]).
      apply extract_write_inline_string.
  - assert (bool_decide (Py.strip EmptyString = Py.strip before)
            || bool_decide (Py.strip EmptyString = Py.strip after) = true) as ->.
    { destruct Hmatch as [H | H]; rewrite (bool_decide_eq_true_2 _ H);
        [done | apply orb_true_r]. }
    unfold insert_row_sorted.
    destruct (insert_cell_sorted_eq
                (mkElement tag_row {[ "r" := Py.str_int row_num ]} None None [])
                address letters row_num Hparse) as [-> _].
    cbn [mbind result_bind].
    eexists. split; [reflexivity|].
    unfold current_value_at, find_row. cbn [set_child with_children children].
    rewrite list_insert_at_update
      by (etrans; [apply insert_index_le | apply filter_length_le]).
    rewrite (first_at_insert _ _ _ _ _ Hrow)
      by (first [ apply new_row_test
                | etrans; [apply insert_index_le | apply filter_length_le] ]).
    unfold find_cell, findall.
    cbn [children List.filter insert_index list_insert_at take drop app
         set_child with_children insert list_insert first_at].
    rewrite cell_test_written, new_cell_test.
    apply extract_write_inline_string.
Qed.

End PatchChange.



(** C7: when the target cell exists and its trimmed value already equals
    the trimmed [afterName], whatever [beforeName] is, the change is
    counted as applied; the cell becomes an inline string that reads
    [afterName], whatever its type was; every other cell of the document
    is left as it was. *)
Theorem applying_twice_is_idempotent
    (shared_strings : list string) (sheet_data : Element) (applied : Z)
    (issues : list issue) (c : change) (letters : string) (row_num : Z)
    (i j : nat) (row cell : Element) :
  let address := Py.strip (py_str (get c "sourceAddress" (PStr EmptyString))) in
  let after := py_str (get c "afterName" (PStr EmptyString)) in
  let cell' := write_inline_string cell after in
  let sheet_data' := set_child sheet_data i (set_child row j cell') in
  well_typed c = true →
  parse_cell_ref address = Ok (letters, row_num) →
  find_row sheet_data row_num = Some (i, row) →
  find_cell row address = Some (j, cell) →
  Py.strip (extract_cell_text cell shared_strings) = Py.strip after →
  patch_change shared_strings (sheet_data, applied, issues) c
  = Ok (sheet_data', applied + 1, issues)
  ∧ attrib cell' !! "t" = Some "inlineStr"
  ∧ extract_cell_text cell' shared_strings = after
  ∧ current_value_at shared_strings sheet_data' row_num address = after
  ∧ cell_at sheet_data i j = Some cell
  ∧ cell_at sheet_data' i j = Some cell'
  ∧ (∀ i' j', (i', j') ≠ (i, j) → cell_at sheet_data' i' j' = cell_at sheet_data i' j')
  ∧ length (children sheet_data') = length (children sheet_data)
  ∧ (∀ i' r r', children sheet_data !! i' = Some r →
       children sheet_data' !! i' = Some r' →
       length (children r') = length (children r)).
Proof.
  intros address after cell' sheet_data' Htyped Hparse Hrow Hcell Hmatch.
  pose proof (patch_change_existing shared_strings sheet_data applied issues c
                letters row_num Htyped Hparse i row j cell Hrow Hcell
                (or_intror Hmatch)) as Hpatch.
  destruct (first_at_Some _ _ _ _ _ Hrow) as (_ & Hi & _).
  destruct (first_at_Some _ _ _ _ _ Hcell) as (_ & Hj & _).
  rewrite Nat.sub_0_r in Hi, Hj.
  pose proof (lookup_lt_Some _ _ _ Hi) as Hilt.
  pose proof (lookup_lt_Some _ _ _ Hj) as Hjlt.
  split; [exact Hpatch|].
  split; [apply write_inline_string_type|].
  split; [apply extract_write_inline_string|].
  split.
  { destruct (patch_change_applied shared_strings sheet_data applied issues c
                letters row_num Htyped Hparse) as (sd & Hsd & Hcur).
    - right. unfold current_value_at. fold address. rewrite Hrow, Hcell.
      exact Hmatch.
    - rewrite Hpatch in Hsd. injection Hsd as <-. exact Hcur. }
  split. { unfold cell_at. rewrite Hi. exact Hj. }
  split.
  { unfold cell_at, sheet_data'. cbn [set_child with_children children].
    rewrite list_lookup_insert_eq by done. cbn.
    by rewrite list_lookup_insert_eq. }
  split.
  { intros i' j' Hne. unfold cell_at, sheet_data'.
    cbn [set_child with_children children].
    destruct (decide (i' = i)) as [->|Hi'].
    - rewrite list_lookup_insert_eq by done. rewrite Hi. cbn.
      apply list_lookup_insert_ne. congruence.
    - by rewrite list_lookup_insert_ne. }
  split. { unfold sheet_data'. cbn [set_child with_children children].
           apply length_insert. }
  intros i' r r' Hr Hr'. unfold sheet_data' in Hr'.
  cbn [set_child with_children children] in Hr'.
  destruct (decide (i' = i)) as [->|Hi'].
  - rewrite list_lookup_insert_eq in Hr' by done. injection Hr' as <-.
    rewrite Hi in Hr. injection Hr as <-. cbn. apply length_insert.
  - rewrite list_lookup_insert_ne in Hr' by done. congruence.
Qed.

Lemma applying_twice_is_idempotent_witness :
  ∃ sheet_data',
    patch_change [] (sample_sheet_data, 0, []) (sample_change "B2" "Older" " Old ")
    = Ok (sheet_data', 1, [])
    ∧ current_value_at [] sheet_data' 2 "B2" = " Old "
    ∧ cell_at sheet_data' 1 0 = Some (sample_cell "A2" "Id").
Proof.
  destruct (applying_twice_is_idempotent [] sample_sheet_data 0 []
              (sample_change "B2" "Older" " Old ") "B" 2 1 1
              (sample_row 2 [sample_cell "A2" "Id"; sample_cell "B2" "Old";
                             sample_cell "D2" "x"])
              (sample_cell "B2" "Old"))
    as (H1 & _ & _ & H2 & _ & _ & H3 & _);
    [vm_compute; reflexivity .. |].
  eexists. split; [exact H1|]. split; [exact H2|].
  rewrite H3 by discriminate. vm_compute. reflexivity.
Defined.

(** C4 (the code departs from the claim): the lower-case address "b2" does
    not locate the existing cell B2.  [patch_change] reads an empty current
    value through it, so the change the upper-case address applies is
    rejected as a mismatch; and when the empty value is an accepted one, a
    second cell addressed "b2" is written while B2 keeps its value. *)
Theorem lowercase_address_misses_cell :
  parse_cell_ref "b2" = parse_cell_ref "B2"
  ∧ (∃ sheet_data',
       patch_change [] (sample_sheet_data, 0, []) (sample_change "B2" "Old" "New")
       = Ok (sheet_data', 1, [])
       ∧ current_value_at [] sheet_data' 2 "B2" = "New")
  ∧ patch_change [] (sample_sheet_data, 0, []) (sample_change "b2" "Old" "New")
    = Ok (sample_sheet_data, 0,
          [mkIssue (PStr "Sheet1") "b2" (mismatch_reason "Old" EmptyString)
                   0 PNone "column"])
  ∧ (∃ sheet_data',
       patch_change [] (sample_sheet_data, 0, []) (sample_change "b2" EmptyString "New")
       = Ok (sheet_data', 1, [])
       ∧ current_value_at [] sheet_data' 2 "B2" = "Old"
       ∧ current_value_at [] sheet_data' 2 "b2" = "New"
       ∧ (attrib <$> cell_at sheet_data' 1 2) = Some {[ "r" := "b2"; "t" := "inlineStr" ]}).
Proof.
  split; [reflexivity|]. split; [|split].
  - eexists. split; [vm_compute; reflexivity|]. vm_compute. reflexivity.
  - vm_compute. reflexivity.
  - eexists. split; [vm_compute; reflexivity|].
    repeat split; vm_compute; reflexivity.
Qed.

(** ** Copying the archive *)

Lemma zip_lookup_is_Some zin name :
  name ∈ namelist zin ↔ is_Some (zip_lookup zin name).
Proof.
  unfold namelist, infolist. induction zin as [|[info data] rest IH]; simpl.
  - split; [by intros ?%not_elem_of_nil | by intros [? ?]].
  - rewrite elem_of_cons, IH. destruct (zip_lookup rest name) as [d|].
    + split; [eauto | intros _; right; eauto].
    + case_bool_decide as Hn.
      * split; [eauto | by left].
      * split; [intros [-> | [? ?]]; done | by intros [? ?]].
Qed.


Lemma new_info_same_metadata info : same_metadata (new_info_of info) info.
Proof. repeat split. Qed.

Lemma copy_entries_complete zin replacements f k infos out :
  (∀ info, info ∈ infos → is_Some (zip_lookup zin (filename info))) →
  (∀ j, f = FaultEntry j → (j < k ∨ k + length infos ≤ j)%nat) →
  copy_entries zin replacements f k infos out
  = (out ++ ((λ info, (writestr_info (new_info_of info),
                       default (default [] (zip_lookup zin (filename info)))
                               (replacements !! filename info))) <$> infos),
     Ok ()).
Proof.
  revert k out. induction infos as [|info rest IH]; intros k out Hin Hf; simpl.
  - by rewrite app_nil_r.
  - rewrite bool_decide_eq_false_2.
    2:{ intros ->. destruct (Hf k eq_refl) as [H | H]; simpl in H; lia. }
    unfold zip_read.
    destruct (Hin info) as [d Hd]; [apply list_elem_of_here|]. rewrite Hd. cbn.
    rewrite IH.
    + by rewrite <- app_assoc.
    + intros i Hi. apply Hin. by apply list_elem_of_further.
    + intros j Hj. destruct (Hf j Hj) as [H | H]; simpl in H; lia.
Qed.

Lemma copy_entries_fault zin replacements j k infos out :
  (∀ info, info ∈ infos → is_Some (zip_lookup zin (filename info))) →
  (k ≤ j < k + length infos)%nat →
  ∃ out', copy_entries zin replacements (FaultEntry j) k infos out
          = (out', Raise OSError).
Proof.
  revert k out. induction infos as [|info rest IH]; intros k out Hin Hj; simpl in *.
  - lia.
  - case_bool_decide as Hk; [eauto|].
    unfold zip_read.
    destruct (Hin info) as [d Hd]; [apply list_elem_of_here|]. rewrite Hd.
    apply IH.
    + intros i Hi. apply Hin. by apply list_elem_of_further.
    + assert (j ≠ k) by congruence. lia.
Qed.

Lemma infolist_lookup_is_Some zin info :
  info ∈ infolist zin → is_Some (zip_lookup zin (filename info)).
Proof.
  intros H. apply zip_lookup_is_Some. unfold namelist.
  by apply list_elem_of_fmap_2.
Qed.

Section CopyZip.

Variables (temp_path workbook_path : string) (replacements : gmap string bytes)
          (f : fault) (fs : filesystem) (zin : archive).

Hypothesis Hworkbook : fs !! workbook_path = Some zin.
Hypothesis Htemp : fs !! temp_path = None.

Lemma temp_is_not_workbook : temp_path ≠ workbook_path.
Proof. intros E. rewrite E in Htemp. congruence. Qed.

Lemma temp_file_removed out :
  delete temp_path (<[temp_path := out]> (<[temp_path := []]> fs)) = fs.
Proof. rewrite !delete_insert_eq. by apply delete_id. Qed.

Lemma copy_zip_completes :
  fires f zin = false →
  copy_zip_with_replacements temp_path workbook_path replacements f fs
  = (<[workbook_path := copied zin replacements]> fs, Ok ()).
Proof.
  pose proof temp_is_not_workbook as Hne.
  intros Hf. unfold copy_zip_with_replacements.
  rewrite lookup_insert_ne, Hworkbook by done.
  rewrite bool_decide_eq_false_2 by (by intros ->).
  rewrite copy_entries_complete; cycle 1.
  { intros info. apply infolist_lookup_is_Some. }
  { intros j ->. right. simpl in Hf. apply Nat.ltb_ge in Hf.
    unfold infolist. rewrite length_fmap. lia. }
  rewrite bool_decide_eq_false_2 by (by intros ->).
  rewrite bool_decide_eq_false_2 by (by intros ->).
  rewrite temp_file_removed. simpl app. fold (copied zin replacements).
  rewrite bool_decide_eq_false_2; [done|].
  rewrite lookup_insert_ne, Htemp by done. by intros [? ?].
Qed.

Lemma copy_zip_fails :
  fires f zin = true →
  ∃ e, copy_zip_with_replacements temp_path workbook_path replacements f fs
       = (fs, Raise e).
Proof.
  pose proof temp_is_not_workbook as Hne.
  intros Hf. unfold copy_zip_with_replacements.
  rewrite lookup_insert_ne, Hworkbook by done.
  assert (Hfin : ∀ out e,
    (let '(fs1, r) := (<[temp_path := out]> (<[temp_path := []]> fs), @Raise unit e) in
     (if bool_decide (is_Some (fs1 !! temp_path)) then delete temp_path fs1 else fs1, r))
    = (fs, Raise e)).
  { intros out e. cbn. rewrite bool_decide_eq_true_2
      by (rewrite lookup_insert_eq; eauto). by rewrite temp_file_removed. }
  assert (Hfin0 : ∀ e,
    (let '(fs1, r) := (<[temp_path := []]> fs, @Raise unit e) in
     (if bool_decide (is_Some (fs1 !! temp_path)) then delete temp_path fs1 else fs1, r))
    = (fs, Raise e)).
  { intros e. cbn. rewrite bool_decide_eq_true_2
      by (rewrite lookup_insert_eq; eauto).
    rewrite delete_insert_eq. by rewrite delete_id. }
  destruct f as [| |j| |]; simpl in Hf; [done|..].
  - rewrite bool_decide_eq_true_2 by done. eauto.
  - rewrite bool_decide_eq_false_2 by done. apply Nat.ltb_lt in Hf.
    destruct (copy_entries_fault zin replacements j 0 (infolist zin) [])
      as [out' ->].
    { intros info. apply infolist_lookup_is_Some. }
    { unfold infolist. rewrite length_fmap. lia. }
    eauto.
  - rewrite bool_decide_eq_false_2 by done.
    rewrite copy_entries_complete; [| intros info; apply infolist_lookup_is_Some | done].
    rewrite bool_decide_eq_true_2 by done. eauto.
  - rewrite bool_decide_eq_false_2 by done.
    rewrite copy_entries_complete; [| intros info; apply infolist_lookup_is_Some | done].
    rewrite bool_decide_eq_false_2 by done.
    rewrite bool_decide_eq_true_2 by done. eauto.
Qed.

End CopyZip.

(** C6: the copy writes the new archive under the temporary name and puts
    it in place of the workbook only once every member is written and the
    output is closed.  When no operation fails the workbook holds the
    complete new archive; when any operation fails the copy raises and the
    file system is what it was: the workbook unchanged, the temporary file
    removed.  In either case no temporary file is left and no other file is
    touched. *)
Theorem archive_replacement_is_atomic
    (temp_path workbook_path : string) (replacements : gmap string bytes)
    (f : fault) (fs : filesystem) (zin : archive) :
  fs !! workbook_path = Some zin →
  fs !! temp_path = None →
  (fires f zin = false →
     copy_zip_with_replacements temp_path workbook_path replacements f fs
     = (<[workbook_path := copied zin replacements]> fs, Ok ()))
  ∧ (fires f zin = true →
     ∃ e, copy_zip_with_replacements temp_path workbook_path replacements f fs
          = (fs, Raise e))
  ∧ (∀ fs' r,
       copy_zip_with_replacements temp_path workbook_path replacements f fs = (fs', r) →
       fs' !! temp_path = None
       ∧ (∀ p, p ≠ workbook_path → fs' !! p = fs !! p)
       ∧ (fs' !! workbook_path = Some zin
          ∨ (r = Ok () ∧ fs' !! workbook_path = Some (copied zin replacements)))).
Proof.
  intros Hwb Htemp.
  pose proof (temp_is_not_workbook temp_path workbook_path fs zin Hwb Htemp) as Hne.
  pose proof (copy_zip_completes temp_path workbook_path replacements f fs zin Hwb Htemp)
    as Hyes.
  pose proof (copy_zip_fails temp_path workbook_path replacements f fs zin Hwb Htemp)
    as Hno.
  split; [exact Hyes|]. split; [exact Hno|].
  intros fs' r Hrun. destruct (fires f zin) eqn:Hf.
  - destruct (Hno eq_refl) as [e He]. rewrite He in Hrun. injection Hrun as <- <-.
    split; [done|]. split; [done | by left].
  - rewrite (Hyes eq_refl) in Hrun. injection Hrun as <- <-.
    split; [by rewrite lookup_insert_ne|].
    split; [intros p Hp; by rewrite lookup_insert_ne|].
    right. split; [done | apply lookup_insert_eq].
Qed.

(** ** Accounting *)

Lemma foldM_app {S X} (step : S → X → result S) s xs ys :
  foldM step s (xs ++ ys) = (s' ← foldM step s xs; foldM step s' ys).
Proof.
  revert s. induction xs as [|x xs IH]; intros s; simpl; [done|].
  destruct (step s x) as [s'|e]; cbn; [apply IH | done].
Qed.

(** Whenever an iteration returns, it has either counted one more applied
    change or recorded one more issue. *)
Lemma patch_change_outcome shared_strings sheet_data applied issues c st' :
  patch_change shared_strings (sheet_data, applied, issues) c = Ok st' →
  (∃ sheet_data', st' = (sheet_data', applied + 1, issues))
  ∨ (∃ i, st' = (sheet_data, applied, issues ++ [i])).
Proof.
  unfold patch_change.
  destruct (py_int _) as [ti|]; [|done].
  destruct (column_index_of c) as [ci|]; [|done]. cbn [mbind result_bind].
  destruct (parse_cell_ref _) as [[l n]|e].
  - destruct (find_row sheet_data n) as [[i row]|].
    + destruct (find_cell row _) as [[j cell]|].
      * destruct (_ || _); intros [= <-]; eauto.
      * destruct (_ || _); [|intros [= <-]; eauto].
        destruct (insert_cell_sorted row _) as [[[r2 j] cell]|]; [|done].
        intros [= <-]. eauto.
    + destruct (_ || _); [|intros [= <-]; eauto].
      destruct (insert_row_sorted sheet_data n) as [[sd1 i] row1].
      destruct (insert_cell_sorted row1 _) as [[[r2 j] cell]|]; [|done].
      intros [= <-]. eauto.
  - destruct e; try done. intros [= <-]. eauto.
Qed.

Lemma patch_change_count shared_strings sheet_data applied issues c sheet_data' applied' issues' :
  patch_change shared_strings (sheet_data, applied, issues) c
  = Ok (sheet_data', applied', issues') →
  applied' + Z.of_nat (length issues') = applied + Z.of_nat (length issues) + 1.
Proof.
  intros H. apply patch_change_outcome in H as [(sd & [= -> -> ->]) | (i & [= -> -> ->])].
  - lia.
  - rewrite length_app. simpl. lia.
Qed.

Lemma patch_changes_count shared_strings changes :
  ∀ sheet_data applied issues sheet_data' applied' issues',
    foldM (patch_change shared_strings) (sheet_data, applied, issues) changes
    = Ok (sheet_data', applied', issues') →
    applied' + Z.of_nat (length issues')
    = applied + Z.of_nat (length issues) + Z.of_nat (length changes).
Proof.
  induction changes as [|c cs IH]; intros sd a i sd' a' i'; cbn [foldM].
  - intros [= -> -> ->]. simpl. lia.
  - destruct (patch_change shared_strings (sd, a, i) c) as [[[sd1 a1] i1]|] eqn:E;
      cbn [mbind result_bind]; [|done].
    intros H. apply IH in H. apply patch_change_count in E. cbn [length]. lia.
Qed.

(** A well-typed change request never makes an iteration raise. *)
Lemma patch_change_total shared_strings sheet_data applied issues c :
  well_typed c = true →
  ∃ st', patch_change shared_strings (sheet_data, applied, issues) c = Ok st'.
Proof.
  intros Htyped.
  set (address := Py.strip (py_str (get c "sourceAddress" (PStr EmptyString)))).
  destruct (parse_cell_ref address) as [[letters row_num]|e] eqn:Hparse.
  - set (before := py_str (get c "beforeName" (PStr EmptyString))).
    set (after := py_str (get c "afterName" (PStr EmptyString))).
    set (cur := current_value_at shared_strings sheet_data row_num address).
    destruct (decide (Py.strip cur = Py.strip before)) as [Hb|Hb].
    { destruct (patch_change_applied shared_strings sheet_data applied issues c
                  letters row_num Htyped Hparse (or_introl Hb)) as (sd & H & _).
      eauto. }
    destruct (decide (Py.strip cur = Py.strip after)) as [Ha|Ha].
    { destruct (patch_change_applied shared_strings sheet_data applied issues c
                  letters row_num Htyped Hparse (or_intror Ha)) as (sd & H & _).
      eauto. }
    destruct (patch_change_mismatch shared_strings sheet_data applied issues c
                letters row_num Htyped Hparse Hb Ha) as (ti & ci & H).
    eauto.
  - destruct (well_typed_ints c Htyped) as (ti & ci & Hti & Hci).
    unfold patch_change. rewrite Hti, Hci. cbn [mbind result_bind].
    fold address. rewrite Hparse.
    rewrite (parse_cell_ref_raises _ _ Hparse). eauto.
Qed.

Lemma patch_changes_total shared_strings changes :
  Forall (λ c, well_typed c = true) changes →
  ∀ st, ∃ st', foldM (patch_change shared_strings) st changes = Ok st'.
Proof.
  induction 1 as [|c cs Hc _ IH]; intros st; cbn [foldM]; [eauto|].
  destruct st as [[sd a] i].
  destruct (patch_change_total shared_strings sd a i c Hc) as [st' ->].
  cbn [mbind result_bind]. apply IH.
Qed.

Lemma unrouted_issue_total c reason :
  well_typed c = true → ∃ i, unrouted_issue c reason = Ok i.
Proof.
  intros H. destruct (well_typed_ints c H) as (ti & _ & Hti & _).
  unfold unrouted_issue. rewrite Hti. cbn. eauto.
Qed.

Lemma group_total_setdefault key c grouped :
  group_total (setdefault_append key c grouped) = S (group_total grouped).
Proof.
  induction grouped as [|[k cs] rest IH]; simpl; [done|].
  case_bool_decide; simpl.
  - rewrite length_app. simpl. lia.
  - rewrite IH. lia.
Qed.

Lemma group_change_count sheet_map grouped issues c grouped' issues' :
  group_change sheet_map (grouped, issues) c = Ok (grouped', issues') →
  (group_total grouped' + length issues' = S (group_total grouped + length issues))%nat.
Proof.
  unfold group_change.
  assert (Hissue :
    (i ← unrouted_issue c "Worksheet not found in workbook"; Ok (grouped, issues ++ [i]))
    = Ok (grouped', issues') →
    (group_total grouped' + length issues' = S (group_total grouped + length issues))%nat).
  { destruct (unrouted_issue c _) as [i|]; [|done]. cbn. intros [= <- <-].
    rewrite length_app. simpl. lia. }
  destruct (sheet_map !! _) as [[|a p]|]; [exact Hissue | | exact Hissue].
  intros [= <- <-]. rewrite group_total_setdefault. lia.
Qed.

Lemma group_changes_count sheet_map changes :
  ∀ grouped issues grouped' issues',
    foldM (group_change sheet_map) (grouped, issues) changes = Ok (grouped', issues') →
    (group_total grouped' + length issues'
     = group_total grouped + length issues + length changes)%nat.
Proof.
  induction changes as [|c cs IH]; intros g i g' i'; cbn [foldM].
  - intros [= -> ->]. simpl. lia.
  - destruct (group_change sheet_map (g, i) c) as [[g1 i1]|] eqn:E;
      cbn [mbind result_bind]; [|done].
    intros H. apply IH in H. apply group_change_count in E. cbn [length]. lia.
Qed.

(** ** Grouping the change requests *)

(** Settles the equality tests the context decides. *)
Ltac decide_equalities :=
  repeat match goal with
         | |- context [bool_decide (?a = ?b)] =>
             first [ rewrite (bool_decide_eq_true_2 (a = b)) by congruence
                   | rewrite (bool_decide_eq_false_2 (a = b)) by congruence ]
         end.

Lemma group_change_route sheet_map grouped issues c :
  group_change sheet_map (grouped, issues) c
  = match route sheet_map c with
    | Some path => Ok (setdefault_append path c grouped, issues)
    | None =>
        i ← unrouted_issue c "Worksheet not found in workbook";
        Ok (grouped, issues ++ [i])
    end.
Proof.
  unfold group_change, route. by destruct (sheet_map !! _) as [[|a p]|].
Qed.

Lemma keys_setdefault key c grouped :
  (setdefault_append key c grouped).*1
  = if bool_decide (key ∈ grouped.*1) then grouped.*1 else grouped.*1 ++ [key].
Proof.
  induction grouped as [|[k cs] rest IH]; cbn [setdefault_append fmap list_fmap fst].
  - rewrite bool_decide_eq_false_2; [done | apply not_elem_of_nil].
  - destruct (decide (k = key)) as [->|Hk].
    + rewrite (bool_decide_eq_true_2 (key = key)) by done.
      cbn [fmap list_fmap fst].
      by rewrite bool_decide_eq_true_2 by apply list_elem_of_here.
    + rewrite (bool_decide_eq_false_2 (k = key)) by done.
      cbn [fmap list_fmap fst].
      fold (fmap (M:=list) (@fst string (list change))).
      rewrite IH. destruct (decide (key ∈ rest.*1)) as [Hin|Hin].
      * rewrite !bool_decide_eq_true_2;
          [done | by apply list_elem_of_further | done].
      * rewrite !bool_decide_eq_false_2; [done | | done].
        intros [->|?]%elem_of_cons; done.
Qed.

Lemma NoDup_setdefault key c grouped :
  NoDup grouped.*1 → NoDup (setdefault_append key c grouped).*1.
Proof.
  intros H. rewrite keys_setdefault. case_bool_decide as Hk; [done|].
  apply NoDup_app. split; [done|]. split; [|apply NoDup_singleton].
  intros x Hx ->%list_elem_of_singleton. done.
Qed.

Lemma group_of_setdefault key c grouped k :
  group_of (setdefault_append key c grouped) k
  = if bool_decide (k = key) then Some (default [] (group_of grouped key) ++ [c])
    else group_of grouped k.
Proof.
  induction grouped as [|[k' cs] rest IH]; cbn [setdefault_append group_of].
  - destruct (decide (k = key)); decide_equalities; done.
  - destruct (decide (k' = key)), (decide (k = key)), (decide (k' = k));
      decide_equalities; cbn [group_of]; decide_equalities;
      try congruence; try done.
    all: rewrite IH; decide_equalities; done.
Qed.

Lemma routed_to_snoc sheet_map path seen c :
  routed_to sheet_map path (seen ++ [c])
  = routed_to sheet_map path seen
    ++ (if bool_decide (route sheet_map c = Some path) then [c] else []).
Proof.
  unfold routed_to. rewrite List.filter_app. simpl. by case_bool_decide.
Qed.

Lemma groups_inv_step sheet_map seen grouped issues c grouped' issues' :
  groups_inv sheet_map seen grouped →
  group_change sheet_map (grouped, issues) c = Ok (grouped', issues') →
  groups_inv sheet_map (seen ++ [c]) grouped'.
Proof.
  intros [Hnd Hg]. rewrite group_change_route.
  destruct (route sheet_map c) as [p|] eqn:Hr.
  - intros [= <- <-]. split; [by apply NoDup_setdefault|].
    intros path. rewrite group_of_setdefault, routed_to_snoc, Hr.
    destruct (decide (path = p)) as [->|Hp]; decide_equalities.
    + rewrite Hg. by destruct (routed_to sheet_map p seen).
    + by rewrite app_nil_r.
  - destruct (unrouted_issue c _) as [i|]; cbn; [|done]. intros [= <- <-].
    split; [done|]. intros path. rewrite routed_to_snoc, Hr.
    decide_equalities. by rewrite app_nil_r.
Qed.

Lemma groups_inv_fold sheet_map changes :
  ∀ seen grouped issues grouped' issues',
    groups_inv sheet_map seen grouped →
    foldM (group_change sheet_map) (grouped, issues) changes = Ok (grouped', issues') →
    groups_inv sheet_map (seen ++ changes) grouped'.
Proof.
  induction changes as [|c cs IH]; intros seen g i g' i' Hinv; cbn [foldM].
  - intros [= <- <-]. by rewrite app_nil_r.
  - destruct (group_change sheet_map (g, i) c) as [[g1 i1]|] eqn:E;
      cbn [mbind result_bind]; [|done].
    intros H. replace (seen ++ c :: cs) with ((seen ++ [c]) ++ cs)
      by (by rewrite <- app_assoc).
    eapply IH; [|exact H]. by eapply groups_inv_step.
Qed.

Lemma groups_inv_empty sheet_map : groups_inv sheet_map [] [].
Proof. split; [apply NoDup_nil_2 | done]. Qed.

Lemma group_of_elem grouped path cs :
  NoDup grouped.*1 → (path, cs) ∈ grouped → group_of grouped path = Some cs.
Proof.
  induction grouped as [|[k cs'] rest IH]; simpl; intros Hnd Hin.
  - by apply not_elem_of_nil in Hin.
  - apply NoDup_cons in Hnd as [Hk Hnd].
    apply elem_of_cons in Hin as [[= -> ->] | Hin].
    + by rewrite bool_decide_eq_true_2.
    + rewrite bool_decide_eq_false_2; [by apply IH|].
      intros ->. apply Hk. apply list_elem_of_fmap. by exists (path, cs).
Qed.

Lemma group_of_Some grouped path cs :
  group_of grouped path = Some cs → (path, cs) ∈ grouped.
Proof.
  induction grouped as [|[k cs'] rest IH]; simpl; [done|].
  case_bool_decide as Hk.
  - intros [= ->]. subst k. apply list_elem_of_here.
  - intros H. apply list_elem_of_further. by apply IH.
Qed.

Lemma routed_to_elem sheet_map path changes c :
  c ∈ routed_to sheet_map path changes ↔ c ∈ changes ∧ route sheet_map c = Some path.
Proof.
  unfold routed_to. rewrite list_elem_of_In, List.filter_In, <- list_elem_of_In.
  by rewrite bool_decide_eq_true.
Qed.

(** Every group [main] forms is the non-empty list of the requests routed
    to its path. *)
Lemma grouped_spec sheet_map changes grouped issues :
  foldM (group_change sheet_map) ([], []) changes = Ok (grouped, issues) →
  NoDup grouped.*1
  ∧ (∀ path cs, (path, cs) ∈ grouped →
       cs = routed_to sheet_map path changes ∧ cs ≠ [])
  ∧ (∀ path c, c ∈ changes → route sheet_map c = Some path →
       (path, routed_to sheet_map path changes) ∈ grouped).
Proof.
  intros H.
  destruct (groups_inv_fold sheet_map changes [] [] [] grouped issues
              (groups_inv_empty sheet_map) H) as [Hnd Hg].
  simpl in Hg. split; [done|]. split.
  - intros path cs Hin. pose proof (group_of_elem _ _ _ Hnd Hin) as E.
    rewrite Hg in E. destruct (routed_to sheet_map path changes); [done|].
    injection E as <-. done.
  - intros path c Hc Hr. apply group_of_Some. rewrite Hg.
    assert (c ∈ routed_to sheet_map path changes) as Hin by (by apply routed_to_elem).
    destruct (routed_to sheet_map path changes); [by apply not_elem_of_nil in Hin | done].
Qed.

(** ** The run *)

Lemma missing_issues_count reason changes :
  ∀ issues issues',
    foldM (λ acc c, i ← unrouted_issue c reason; Ok (acc ++ [i])) issues changes
    = Ok issues' →
    length issues' = (length issues + length changes)%nat.
Proof.
  induction changes as [|c cs IH]; intros issues issues'; cbn [foldM].
  - intros [= <-]. simpl. lia.
  - destruct (unrouted_issue c reason) as [i|]; cbn [mbind result_bind]; [|done].
    intros H. apply IH in H. rewrite length_app in H. simpl in *. lia.
Qed.

Lemma missing_issues_total reason changes :
  Forall (λ c, well_typed c = true) changes →
  ∀ issues, ∃ issues',
    foldM (λ acc c, i ← unrouted_issue c reason; Ok (acc ++ [i])) issues changes
    = Ok issues'.
Proof.
  induction 1 as [|c cs Hc _ IH]; intros issues; cbn [foldM]; [eauto|].
  destruct (unrouted_issue_total c reason Hc) as [i ->]. cbn [mbind result_bind].
  apply IH.
Qed.

Lemma group_changes_total sheet_map changes :
  Forall (λ c, well_typed c = true) changes →
  ∀ st, ∃ st', foldM (group_change sheet_map) st changes = Ok st'.
Proof.
  induction 1 as [|c cs Hc _ IH]; intros [g i]; cbn [foldM]; [eauto|].
  rewrite group_change_route. destruct (route sheet_map c) as [p|].
  - cbn [mbind result_bind]. apply IH.
  - destruct (unrouted_issue_total c "Worksheet not found in workbook" Hc) as [x ->].
    cbn [mbind result_bind]. apply IH.
Qed.

Section Run.

Variable ET_fromstring : bytes → result Element.
Variable ET_tostring : Element → bytes.
Variable build_sheet_name_to_path : archive → result (gmap string string).

Lemma patch_sheet_xml_count data shared_strings changes patched applied issues :
  patch_sheet_xml ET_fromstring ET_tostring data shared_strings changes
  = Ok (patched, applied, issues) →
  applied + Z.of_nat (length issues) = Z.of_nat (length changes).
Proof.
  unfold patch_sheet_xml.
  destruct (ET_fromstring data) as [root|]; cbn [mbind result_bind]; [|done].
  destruct (find tag_sheetData root) as [[k sd]|]; [|done].
  destruct (foldM (patch_change shared_strings) (sd, 0, []) changes)
    as [[[sd' a'] i']|] eqn:E; cbn [mbind result_bind]; [|done].
  intros [= _ <- <-]. apply patch_changes_count in E. simpl in E. lia.
Qed.

Lemma patch_sheet_xml_total data shared_strings changes root k sheet_data :
  Forall (λ c, well_typed c = true) changes →
  ET_fromstring data = Ok root →
  find tag_sheetData root = Some (k, sheet_data) →
  ∃ r, patch_sheet_xml ET_fromstring ET_tostring data shared_strings changes = Ok r.
Proof.
  intros Hty Hroot Hsd. unfold patch_sheet_xml. rewrite Hroot.
  cbn [mbind result_bind]. rewrite Hsd.
  destruct (patch_changes_total shared_strings changes Hty (sheet_data, 0, []))
    as [[[sd' a'] i'] ->].
  cbn [mbind result_bind]. eauto.
Qed.

Lemma patch_group_count zin shared_strings r a i path cs r' a' i' :
  patch_group ET_fromstring ET_tostring zin shared_strings (r, a, i) (path, cs)
  = Ok (r', a', i') →
  a' + Z.of_nat (length i') = a + Z.of_nat (length i) + Z.of_nat (length cs).
Proof.
  unfold patch_group. case_bool_decide as Hin.
  - destruct (zip_read zin path) as [data|]; cbn [mbind result_bind]; [|done].
    destruct (patch_sheet_xml _ _ data shared_strings cs) as [[[p a1] i1]|] eqn:E;
      cbn [mbind result_bind]; [|done].
    intros [= _ <- <-]. apply patch_sheet_xml_count in E.
    rewrite length_app. lia.
  - destruct (foldM _ i cs) as [i1|] eqn:E; cbn [mbind result_bind]; [|done].
    intros [= _ <- <-]. apply missing_issues_count in E. lia.
Qed.

Lemma patch_groups_count zin shared_strings grouped :
  ∀ r a i r' a' i',
    foldM (patch_group ET_fromstring ET_tostring zin shared_strings) (r, a, i) grouped
    = Ok (r', a', i') →
    a' + Z.of_nat (length i')
    = a + Z.of_nat (length i) + Z.of_nat (group_total grouped).
Proof.
  induction grouped as [|[path cs] rest IH]; intros r a i r' a' i'; cbn [foldM].
  - intros [= _ <- <-]. simpl. lia.
  - destruct (patch_group _ _ zin shared_strings (r, a, i) (path, cs))
      as [[[r1 a1] i1]|] eqn:E; cbn [mbind result_bind]; [|done].
    intros H. apply IH in H. apply patch_group_count in E.
    cbn [group_total]. lia.
Qed.

Lemma plan_count zin changes r a i :
  plan ET_fromstring ET_tostring build_sheet_name_to_path zin changes = Ok (r, a, i) →
  a + Z.of_nat (length i) = Z.of_nat (length changes).
Proof.
  unfold plan.
  destruct (get_shared_strings ET_fromstring zin) as [shared|];
    cbn [mbind result_bind]; [|done].
  destruct (build_sheet_name_to_path zin) as [sm|]; cbn [mbind result_bind]; [|done].
  destruct (foldM (group_change sm) ([], []) changes) as [[g i0]|] eqn:E;
    cbn [mbind result_bind]; [|done].
  intros H. apply patch_groups_count in H. apply group_changes_count in E.
  simpl in E. lia.
Qed.

Lemma main_count temp_path workbook_path changes f fs fs' a i :
  main ET_fromstring ET_tostring build_sheet_name_to_path
       temp_path workbook_path changes f fs = (fs', Ok (a, i)) →
  a + Z.of_nat (length i) = Z.of_nat (length changes).
Proof.
  unfold main. destruct (fs !! workbook_path) as [zin|]; [|done].
  destruct (plan _ _ _ zin changes) as [[[r a0] i0]|] eqn:E; [|done].
  apply plan_count in E. case_bool_decide.
  - by intros [= _ <- <-].
  - destruct (copy_zip_with_replacements _ _ r f fs) as [fs1 [[]|e]];
      cbn [mbind result_bind]; [|done].
    by intros [= _ <- <-].
Qed.

Lemma group_of_None grouped path : path ∉ grouped.*1 → group_of grouped path = None.
Proof.
  induction grouped as [|[k cs] rest IH]; cbn [group_of fmap list_fmap fst]; [done|].
  intros Hn. rewrite bool_decide_eq_false_2.
  - apply IH. intros Hin. apply Hn. by apply list_elem_of_further.
  - intros ->. apply Hn. apply list_elem_of_here.
Qed.

(** What the loop over the groups leaves in [replacements]: under the path
    of every group whose worksheet is in the archive, the patched bytes of
    that worksheet; nothing else is added. *)
Lemma patch_groups_replacements zin shared_strings grouped :
  ∀ r a i r' a' i',
    NoDup grouped.*1 →
    foldM (patch_group ET_fromstring ET_tostring zin shared_strings) (r, a, i) grouped
    = Ok (r', a', i') →
    ∀ path,
      match group_of grouped path with
      | Some cs =>
          if bool_decide (path ∈ namelist zin) then
            ∃ data patched a1 i1,
              zip_lookup zin path = Some data
              ∧ patch_sheet_xml ET_fromstring ET_tostring data shared_strings cs
                = Ok (patched, a1, i1)
              ∧ r' !! path = Some patched
          else r' !! path = r !! path
      | None => r' !! path = r !! path
      end.
Proof.
  induction grouped as [|[p cs] rest IH]; intros r a i r' a' i' Hnd; cbn [foldM].
  - intros [= <- _ _] path. done.
  - cbn [fmap list_fmap fst] in Hnd. apply NoDup_cons in Hnd as [Hp Hnd].
    destruct (patch_group _ _ zin shared_strings (r, a, i) (p, cs))
      as [[[r1 a1] i1]|] eqn:E; cbn [mbind result_bind]; [|done].
    intros H path. specialize (IH _ _ _ _ _ _ Hnd H path).
    cbn [group_of]. unfold patch_group in E.
    destruct (decide (p = path)) as [->|Hne].
    + rewrite bool_decide_eq_true_2 by done.
      rewrite (group_of_None rest path Hp) in IH.
      destruct (bool_decide (path ∈ namelist zin)) eqn:Hin.
      * unfold zip_read in E.
        destruct (zip_lookup zin path) as [data|] eqn:Hd; cbn [mbind result_bind] in E;
          [|done].
        destruct (patch_sheet_xml _ _ data shared_strings cs) as [[[pt a2] i2]|] eqn:Ep;
          cbn [mbind result_bind] in E; [|done].
        injection E as <- _ _. exists data, pt, a2, i2.
        split; [done|]. split; [done|]. rewrite IH. apply lookup_insert_eq.
      * destruct (foldM _ i cs) as [i2|]; cbn [mbind result_bind] in E; [|done].
        injection E as <- _ _. exact IH.
    + rewrite bool_decide_eq_false_2 by done.
      assert (r1 !! path = r !! path) as Hr1.
      { destruct (bool_decide (p ∈ namelist zin)).
        - destruct (zip_read zin p) as [data|]; cbn [mbind result_bind] in E; [|done].
          destruct (patch_sheet_xml _ _ data shared_strings cs) as [[[pt a2] i2]|];
            cbn [mbind result_bind] in E; [|done].
          injection E as <- _ _. by apply lookup_insert_ne.
        - destruct (foldM _ i cs) as [i2|]; cbn [mbind result_bind] in E; [|done].
          by injection E as <- _ _. }
      destruct (group_of rest path) as [cs'|]; [|by rewrite IH].
      destruct (bool_decide (path ∈ namelist zin)); [done | by rewrite IH].
Qed.

Lemma patch_groups_total zin shared_strings grouped :
  (∀ path cs, (path, cs) ∈ grouped →
     Forall (λ c, well_typed c = true) cs ∧ readable ET_fromstring zin path) →
  ∀ st, ∃ st',
    foldM (patch_group ET_fromstring ET_tostring zin shared_strings) st grouped = Ok st'.
Proof.
  induction grouped as [|[p cs] rest IH]; intros Hall st; cbn [foldM]; [eauto|].
  destruct (Hall p cs) as [Hty Hread]; [apply list_elem_of_here|].
  assert (∃ st1, patch_group ET_fromstring ET_tostring zin shared_strings st (p, cs)
                 = Ok st1) as [st1 ->].
  { destruct st as [[r a] i]. unfold patch_group. case_bool_decide as Hin.
    - apply zip_lookup_is_Some in Hin as [data Hd]. unfold zip_read. rewrite Hd.
      cbn [mbind result_bind].
      destruct (Hread data Hd) as (root & k & sd & Hroot & Hsd).
      destruct (patch_sheet_xml_total data shared_strings cs root k sd Hty Hroot Hsd)
        as [[[pt a1] i1] ->].
      cbn [mbind result_bind]. eauto.
    - destruct (missing_issues_total "Worksheet xml entry not found in workbook zip"
                  cs Hty i) as [i1 ->].
      cbn [mbind result_bind]. eauto. }
  cbn [mbind result_bind]. apply IH.
  intros path cs' Hin. apply Hall. by apply list_elem_of_further.
Qed.

Lemma plan_total zin changes shared_strings sheet_map :
  Forall (λ c, well_typed c = true) changes →
  get_shared_strings ET_fromstring zin = Ok shared_strings →
  build_sheet_name_to_path zin = Ok sheet_map →
  (∀ c path, c ∈ changes → route sheet_map c = Some path →
     readable ET_fromstring zin path) →
  ∃ st, plan ET_fromstring ET_tostring build_sheet_name_to_path zin changes = Ok st.
Proof.
  intros Hty Hshared Hmap Hread. unfold plan. rewrite Hshared, Hmap.
  cbn [mbind result_bind].
  destruct (group_changes_total sheet_map changes Hty ([], [])) as [[g i0] Hg].
  rewrite Hg. cbn [mbind result_bind].
  destruct (grouped_spec sheet_map changes g i0 Hg) as (_ & Hgroups & _).
  apply patch_groups_total. intros path cs Hin.
  destruct (Hgroups path cs Hin) as [-> Hne]. split.
  - apply Forall_forall. intros c Hc. apply routed_to_elem in Hc as [Hc _].
    rewrite Forall_forall in Hty. by apply Hty.
  - destruct (routed_to sheet_map path changes) as [|c rest] eqn:E; [done|].
    assert (c ∈ routed_to sheet_map path changes) as Hc
      by (rewrite E; apply list_elem_of_here).
    apply routed_to_elem in Hc as [Hc Hr]. by apply (Hread c).
Qed.

End Run.

(** C10: when every change request has integer-coercible [tableIndex] and
    [columnIndex], each of them makes an iteration of the patch loop either
    count one more applied change or record one more issue; whatever a run
    reports, [appliedCount] plus the number of issues is the number of
    change requests; and the run does report when nothing fails in the
    copy and every worksheet a request is routed to parses and has a
    [sheetData] node. *)
Theorem every_change_has_one_outcome
    (ET_fromstring : bytes → result Element) (ET_tostring : Element → bytes)
    (build_sheet_name_to_path : archive → result (gmap string string))
    (temp_path workbook_path : string) (changes : list change)
    (fs : filesystem) (zin : archive) :
  Forall (λ c, well_typed c = true) changes →
  fs !! workbook_path = Some zin →
  fs !! temp_path = None →
  (∀ c, c ∈ changes → ∀ shared_strings sheet_data applied issues,
     ∃ st', patch_change shared_strings (sheet_data, applied, issues) c = Ok st'
            ∧ ((∃ sheet_data', st' = (sheet_data', applied + 1, issues))
               ∨ (∃ i, st' = (sheet_data, applied, issues ++ [i]))))
  ∧ (∀ f fs' applied_count issues,
       main ET_fromstring ET_tostring build_sheet_name_to_path
            temp_path workbook_path changes f fs = (fs', Ok (applied_count, issues)) →
       applied_count + Z.of_nat (length issues) = Z.of_nat (length changes))
  ∧ (∀ shared_strings sheet_map,
       get_shared_strings ET_fromstring zin = Ok shared_strings →
       build_sheet_name_to_path zin = Ok sheet_map →
       (∀ c path, c ∈ changes → route sheet_map c = Some path →
          readable ET_fromstring zin path) →
       ∃ fs' applied_count issues,
         main ET_fromstring ET_tostring build_sheet_name_to_path
              temp_path workbook_path changes NoFault fs
         = (fs', Ok (applied_count, issues))
         ∧ applied_count + Z.of_nat (length issues) = Z.of_nat (length changes)).
Proof.
  intros Hty Hwb Htemp. split; [|split].
  - intros c Hc shared_strings sheet_data applied issues.
    rewrite Forall_forall in Hty.
    destruct (patch_change_total shared_strings sheet_data applied issues c (Hty c Hc))
      as [st' Hst].
    exists st'. split; [done|]. by apply (patch_change_outcome _ _ _ _ _ _ Hst).
  - intros f fs' a i. apply main_count.
  - intros shared_strings sheet_map Hshared Hmap Hread.
    destruct (plan_total ET_fromstring ET_tostring build_sheet_name_to_path
                zin changes shared_strings sheet_map Hty Hshared Hmap Hread)
      as [[[r a] i] Hplan].
    pose proof (plan_count _ _ _ _ _ _ _ _ Hplan) as Hcount.
    unfold main. rewrite Hwb, Hplan. case_bool_decide.
    + eauto.
    + rewrite (copy_zip_completes temp_path workbook_path r NoFault fs zin Hwb Htemp)
        by done.
      cbn [mbind result_bind]. eauto.
Qed.

Lemma route_sample c path :
  route {[ "Sheet1" := sample_sheet_path ]} c = Some path → path = sample_sheet_path.
Proof.
  unfold route.
  destruct (_ !! _) as [s|] eqn:E; [|done].
  apply lookup_singleton_Some in E as [_ <-]. by intros [= <-].
Qed.

Lemma every_change_has_one_outcome_witness :
  ∃ fs' applied_count issues,
    main sample_fromstring sample_tostring sample_resolver
         "tmp.xlsx" "book.xlsx" sample_changes NoFault sample_fs
    = (fs', Ok (applied_count, issues))
    ∧ applied_count + Z.of_nat (length issues) = 3.
Proof.
  destruct (every_change_has_one_outcome sample_fromstring sample_tostring
              sample_resolver "tmp.xlsx" "book.xlsx" sample_changes
              sample_fs sample_archive) as (_ & _ & H).
  - repeat constructor.
  - vm_compute. reflexivity.
  - vm_compute. reflexivity.
  - apply (H [] {[ "Sheet1" := sample_sheet_path ]}).
    + vm_compute. reflexivity.
    + reflexivity.
    + intros c path _ Hr data Hd. rewrite (route_sample c path Hr) in Hd.
      vm_compute in Hd. injection Hd as <-.
      eexists _, _, _. split; [reflexivity | vm_compute; reflexivity].
Defined.




(** C5 (the code departs from the claim): after a run on a workbook whose
    members carry flag bits 6 and no external attributes, the member
    [xl/styles.xml], to which no change request is routed, has the contents
    it had, its timestamp and its compression type, but its flag bits are 0
    and its external attributes are those of a regular file.  The copy
    loop gives [new_info] the metadata of the member, flag bits and
    attributes included, and [writestr] then overwrites these two. *)
Theorem copied_member_loses_its_flags :
  routed_to {[ "Sheet1" := sample_sheet_path ]} "xl/styles.xml" sample_changes = []
  ∧ sample_office_archive !! 2%nat
    = Some (sample_office_info "xl/styles.xml", [Byte.x03])
  ∧ same_metadata (new_info_of (sample_office_info "xl/styles.xml"))
                  (sample_office_info "xl/styles.xml")
  ∧ flag_bits (sample_office_info "xl/styles.xml") = 6
  ∧ external_attr (sample_office_info "xl/styles.xml") = 0
  ∧ ∃ (fs' : filesystem) (zout : archive) (info' : ZipInfo) (issues : list issue),
      main sample_fromstring sample_tostring sample_resolver
           "tmp.xlsx" "book.xlsx" sample_changes NoFault sample_office_fs
      = (fs', Ok (1, issues))
      ∧ fs' !! "book.xlsx" = Some zout
      ∧ zout !! 2%nat = Some (info', [Byte.x03])
      ∧ filename info' = "xl/styles.xml"
      ∧ date_time info' = (1980, 1, 1, 0, 0, 0)
      ∧ compress_type info' = 8
      ∧ flag_bits info' = 0
      ∧ external_attr info' = 25165824
      ∧ ¬ same_metadata info' (sample_office_info "xl/styles.xml").
Proof.
  split; [vm_compute; reflexivity|]. split; [reflexivity|].
  split; [apply new_info_same_metadata|].
  split; [reflexivity|]. split; [reflexivity|].
  set (run := main sample_fromstring sample_tostring sample_resolver
                   "tmp.xlsx" "book.xlsx" sample_changes NoFault sample_office_fs).
  exists (fst run),
         (copied sample_office_archive {[ sample_sheet_path := [Byte.xff] ]}),
         (writestr_info (new_info_of (sample_office_info "xl/styles.xml"))),
         (match snd run with Ok (_, i) => i | Raise _ => [] end).
  split; [vm_compute; reflexivity|]. split; [vm_compute; reflexivity|].
  split; [vm_compute; reflexivity|].
  repeat (split; [reflexivity|]).
  intros (_ & _ & _ & _ & _ & _ & _ & _ & Hflags & _). discriminate Hflags.
Qed.

Lemma archive_replacement_is_atomic_witness :
  (∃ e, copy_zip_with_replacements "tmp.xlsx" "book.xlsx"
          {[ sample_sheet_path := [Byte.xff] ]} (FaultEntry 2) sample_fs
        = (sample_fs, Raise e))
  ∧ copy_zip_with_replacements "tmp.xlsx" "book.xlsx"
      {[ sample_sheet_path := [Byte.xff] ]} NoFault sample_fs
    = (<["book.xlsx" := copied sample_archive {[ sample_sheet_path := [Byte.xff] ]}]>
         sample_fs, Ok ()).
Proof.
  split.
  - destruct (archive_replacement_is_atomic "tmp.xlsx" "book.xlsx"
                {[ sample_sheet_path := [Byte.xff] ]} (FaultEntry 2)
                sample_fs sample_archive) as (_ & H & _);
      [vm_compute; reflexivity | vm_compute; reflexivity |].
    apply H. reflexivity.
  - destruct (archive_replacement_is_atomic "tmp.xlsx" "book.xlsx"
                {[ sample_sheet_path := [Byte.xff] ]} NoFault
                sample_fs sample_archive) as (H & _);
      [vm_compute; reflexivity | vm_compute; reflexivity |].
    apply H. reflexivity.
Defined.

(** ** Worked examples *)

Example col_index_examples :
  col_letters_to_index "ab" = 28 ∧ col_letters_to_index "ZZ" = 702
  ∧ col_letters_to_index "AAA" = 703.
Proof. repeat split. Qed.

Example parse_examples :
  parse_cell_ref "ab12" = Ok ("AB", 12)
  ∧ parse_cell_ref "A007" = Ok ("A", 7)
  ∧ parse_cell_ref "2B" = Raise (ValueError "Invalid cell address: 2B")
  ∧ parse_cell_ref "B 2" = Raise (ValueError "Invalid cell address: B 2")
  ∧ parse_cell_ref EmptyString = Raise (ValueError "Invalid cell address: ").
Proof. repeat split. Qed.

Example int_str_examples :
  Py.int_str " -1_000 " = Some (-1000) ∧ Py.int_str "+7" = Some 7
  ∧ Py.int_str "1__0" = None ∧ Py.int_str "_1" = None ∧ Py.int_str "12a" = None
  ∧ Py.int_str EmptyString = None ∧ Py.str_int (-120) = "-120".
Proof. repeat split. Qed.

Example strip_examples :
  Py.strip "  a b  " = "a b" ∧ Py.strip "   " = EmptyString.
Proof. repeat split. Qed.

(** The text runs of a rich inline string are read in document order. *)
Example rich_text_in_document_order :
  extract_cell_text
    (mkElement tag_c {[ "t" := "inlineStr" ]} None None
       [mkElement tag_is ∅ None None
          [mkElement (qname NS_MAIN "r") ∅ None None
             [mkElement tag_t ∅ (Some "Ol") None []];
           mkElement (qname NS_MAIN "r") ∅ None None
             [mkElement tag_t ∅ None None [];
              mkElement tag_t ∅ (Some "d") None []]]])
    []
  = "Old".
Proof. vm_compute. reflexivity. Qed.

(** A numeric cell, and a shared-string cell whose index is out of range,
    read as their raw value text. *)
Example raw_value_examples :
  extract_cell_text
    (mkElement tag_c {[ "t" := "n" ]} None None [mkElement tag_v ∅ (Some "1.50") None []])
    ["a"] = "1.50"
  ∧ extract_cell_text
      (mkElement tag_c {[ "t" := "s" ]} None None [mkElement tag_v ∅ (Some "4") None []])
      ["a"] = "4"
  ∧ extract_cell_text (mkElement tag_c {[ "t" := "s" ]} None None []) ["a"] = EmptyString.
Proof. repeat split; vm_compute; reflexivity. Qed.

(** The scenarios of the specification on the sample sheet: B2 holds "Old"
    and the change is applied; B2 holds something else and the change is
    rejected; the address is malformed and the change is rejected. *)
Example scenario_applied :
  ∃ sheet_data',
    patch_change [] (sample_sheet_data, 0, []) (sample_change "B2" "Old" "New")
    = Ok (sheet_data', 1, [])
    ∧ current_value_at [] sheet_data' 2 "B2" = "New"
    ∧ cell_at sheet_data' 1 0 = cell_at sample_sheet_data 1 0
    ∧ cell_at sheet_data' 1 2 = cell_at sample_sheet_data 1 2.
Proof. eexists. repeat split; vm_compute; reflexivity. Qed.

Example scenario_mismatch :
  patch_change [] (sample_sheet_data, 0, []) (sample_change "B2" "Was" "New")
  = Ok (sample_sheet_data, 0,
        [mkIssue (PStr "Sheet1") "B2" (mismatch_reason "Was" "Old") 0 PNone "column"]).
Proof. vm_compute. reflexivity. Qed.

Example scenario_malformed_address :
  patch_change [] (sample_sheet_data, 0, []) (sample_change "2B" "Old" "New")
  = Ok (sample_sheet_data, 0,
        [mkIssue (PStr "Sheet1") "2B" "Invalid cell address: 2B" 0 PNone "column"]).
Proof. vm_compute. reflexivity. Qed.

(** A change request whose [tableIndex] cannot be coerced aborts the whole
    patch: nothing is applied and no issue is recorded. *)
Example ill_typed_change_aborts :
  patch_change [] (sample_sheet_data, 0, [])
    (<["tableIndex" := PStr "first"]> (sample_change "B2" "Old" "New"))
  = Raise (ValueError "invalid literal for int() with base 10: 'first'").
Proof. vm_compute. reflexivity. Qed.

(** A new cell in an absent row: the row and the cell are created in
    order. *)
Example scenario_new_row :
  ∃ sheet_data',
    patch_change [] (sample_sheet_data, 0, []) (sample_change "C3" EmptyString "New")
    = Ok (sheet_data', 1, [])
    ∧ (existing_num <$> findall tag_row sheet_data') = [1; 2; 3; 5]
    ∧ current_value_at [] sheet_data' 3 "C3" = "New".
Proof. eexists. repeat split; vm_compute; reflexivity. Qed.

(** The positions the inserters compute count rows (cells) only, and are
    used on the whole child list: a child of another kind standing before
    the rows shifts the new row, which is why the ordering property asks
    for the rows to come first. *)
Example foreign_child_shifts_new_row :
  let sheet_data :=
    mkElement tag_sheetData ∅ None None
      [mkElement (qname NS_MAIN "other") ∅ None None [];
       sample_row 1 []; sample_row 5 []] in
  (existing_num <$> findall tag_row (insert_row_sorted sheet_data 3).1.1) = [3; 1; 5].
Proof. vm_compute. reflexivity. Qed.

(** Members are read by name: of two members with one name the copy gives
    both the contents of the later one, which is why the copy-through
    property asks for distinct names. *)
Example same_name_members_read_alike :
  snd <$> copied [(sample_info "a", [Byte.x01]); (sample_info "a", [Byte.x02])] ∅
  = [[Byte.x02]; [Byte.x02]].
Proof. vm_compute. reflexivity. Qed.

(** * Further properties of the code *)

(** ** The address parser *)

Lemma isletter_upper_char c : Py.isletter (Py.upper_char c) = Py.isletter c.
Proof. by destruct c as [[] [] [] [] [] [] [] []]. Qed.

Lemma isdigit_upper_char c : Py.isdigit (Py.upper_char c) = Py.isdigit c.
Proof. by destruct c as [[] [] [] [] [] [] [] []]. Qed.

Lemma isletter_isupper_upper c : Py.isletter c = true → Py.isupper (Py.upper_char c) = true.
Proof. by destruct c as [[] [] [] [] [] [] [] []]. Qed.

Lemma isdigit_upper_id c : Py.isdigit c = true → Py.upper_char c = c.
Proof. by destruct c as [[] [] [] [] [] [] [] []]. Qed.

Lemma isdigit_not_letter c : Py.isdigit c = true → Py.isletter c = false.
Proof. by destruct c as [[] [] [] [] [] [] [] []]. Qed.

Lemma all_letters_upper s : all_letters s = true → all_upper (Py.upper s) = true.
Proof.
  induction s as [|c r IH]; simpl; [done|]. intros H.
  apply andb_prop in H as [Hc Hr]. by rewrite (isletter_isupper_upper c Hc), IH.
Qed.

Lemma all_digits_upper s : all_digits s = true → Py.upper s = s.
Proof.
  induction s as [|c r IH]; simpl; [done|]. intros H.
  apply andb_prop in H as [Hc Hr]. by rewrite (isdigit_upper_id c Hc), IH.
Qed.

Lemma span_letters_upper s a b :
  span Py.isletter s = (a, b) →
  span Py.isletter (Py.upper s) = (Py.upper a, Py.upper b).
Proof.
  revert a b. induction s as [|c r IH]; intros a b; simpl.
  - by intros [= <- <-].
  - rewrite isletter_upper_char. destruct (Py.isletter c).
    + destruct (span Py.isletter r) as [a' b'] eqn:E. intros [= <- <-].
      by rewrite (IH a' b').
    + by intros [= <- <-].
Qed.

Lemma span_digits_upper s a b :
  span Py.isdigit s = (a, b) →
  span Py.isdigit (Py.upper s) = (a, Py.upper b).
Proof.
  revert a b. induction s as [|c r IH]; intros a b; simpl.
  - by intros [= <- <-].
  - rewrite isdigit_upper_char. destruct (Py.isdigit c) eqn:Hc.
    + destruct (span Py.isdigit r) as [a' b'] eqn:E. intros [= <- <-].
      by rewrite (IH a' b'), (isdigit_upper_id c Hc).
    + by intros [= <- <-].
Qed.

Lemma CELL_REF_RE_match_upper s g1 g2 :
  CELL_REF_RE_match s = Some (g1, g2) →
  CELL_REF_RE_match (Py.upper s) = Some (Py.upper g1, g2).
Proof.
  unfold CELL_REF_RE_match.
  destruct (span Py.isletter s) as [letters rest] eqn:E1.
  destruct (span Py.isdigit rest) as [digits rest'] eqn:E2.
  rewrite (span_letters_upper _ _ _ E1), (span_digits_upper _ _ _ E2).
  destruct letters as [|c l]; [done|]. destruct digits as [|d ds]; [done|].
  cbn [Py.upper].
  destruct (decide (rest' = EmptyString)) as [->|Hne].
  - cbn. by intros [= <- <-].
  - rewrite (bool_decide_eq_false_2 (rest' = EmptyString)) by done.
    destruct (decide (rest' = Py.newline)) as [->|Hnl].
    + cbn. by intros [= <- <-].
    + by rewrite (bool_decide_eq_false_2 (rest' = Py.newline)) by done.
Qed.

(** X1: on an address that the pattern does not match, [parse_cell_ref]
    raises [ValueError] with the message [Invalid cell address: ...].  On
    an address that it matches, with a digit group of at most 4300 digits
    (the limit within which [int()] converts), [parse_cell_ref] returns the
    upper-cased letters, which are not empty and have a column index of at
    least 1, with a row number that is not negative, and it returns the
    same on the upper-cased address.  Nothing is stated about a longer
    digit group. *)
Theorem parse_cell_ref_outcomes (address : string) :
  (CELL_REF_RE_match address = None →
     parse_cell_ref address
     = Raise (ValueError ("Invalid cell address: " +:+ address)))
  ∧ (∀ g1 g2,
       CELL_REF_RE_match address = Some (g1, g2) →
       Z.of_nat (String.length g2) ≤ 4300 →
       ∃ n, parse_cell_ref address = Ok (Py.upper g1, n)
            ∧ all_letters g1 = true ∧ all_digits g2 = true
            ∧ Py.upper g1 ≠ EmptyString ∧ all_upper (Py.upper g1) = true
            ∧ 1 ≤ col_letters_to_index (Py.upper g1) ∧ 0 ≤ n
            ∧ parse_cell_ref (Py.upper address) = Ok (Py.upper g1, n)).
Proof.
  split.
  - intros Hm. unfold parse_cell_ref. by rewrite Hm.
  - intros g1 g2 Hm _.
    destruct (parse_cell_ref_matches _ _ _ Hm) as [n E]. exists n. split; [done|].
    destruct (parse_cell_ref_inv _ _ _ E) as (g1' & g2' & Hm' & _ & Hn & Hpos).
    rewrite Hm in Hm'. injection Hm' as <- <-.
    destruct (CELL_REF_RE_match_groups _ _ _ Hm) as (Hl & Hne & Hd & _).
    split; [done|]. split; [done|].
    split; [by destruct g1|]. split; [by apply all_letters_upper|].
    split; [rewrite col_index_upper; by apply col_index_pos|]. split; [done|].
    unfold parse_cell_ref. rewrite (CELL_REF_RE_match_upper _ _ _ Hm), Hn.
    by rewrite upper_idem.
Qed.

Lemma parse_cell_ref_outcomes_witness :
  parse_cell_ref "2B" = Raise (ValueError "Invalid cell address: 2B")
  ∧ ∃ n, parse_cell_ref "ab12" = Ok ("AB", n) ∧ parse_cell_ref "AB12" = Ok ("AB", n).
Proof.
  split.
  - destruct (parse_cell_ref_outcomes "2B") as [H _]. apply H. reflexivity.
  - destruct (parse_cell_ref_outcomes "ab12") as [_ H].
    destruct (H "ab" "12") as (n & H1 & _ & _ & _ & _ & _ & _ & H2);
      [reflexivity | simpl; lia |].
    exists n. exact (conj H1 H2).
Defined.

Lemma all_digits_uint d : all_digits (NilEmpty.string_of_uint d) = true.
Proof. induction d; simpl; done. Qed.

Lemma str_int_digits n :
  0 ≤ n → all_digits (Py.str_int n) = true ∧ Py.str_int n ≠ EmptyString.
Proof.
  intros Hn. destruct n as [|p|p]; [done| |lia].
  unfold Py.str_int. simpl Z.to_int. cbn [NilZero.string_of_int NilZero.string_of_uint].
  pose proof (to_uint_not_nil p) as Hne.
  destruct (Pos.to_uint p) eqn:E; [done|..];
    (split; [rewrite <- E at 1; try (rewrite E; apply all_digits_uint) | done]).
Qed.

Lemma append_cons c r s : String c r +:+ s = String c (r +:+ s).
Proof. reflexivity. Qed.

Lemma span_letters_app letters rest :
  all_letters letters = true →
  match rest with String c _ => Py.isletter c = false | EmptyString => True end →
  span Py.isletter (letters +:+ rest) = (letters, rest).
Proof.
  intros Hl Hrest. induction letters as [|c r IH].
  - change (EmptyString +:+ rest) with rest.
    destruct rest as [|c r]; [done|]. simpl. by rewrite Hrest.
  - simpl in Hl. apply andb_prop in Hl as [Hc Hr].
    rewrite append_cons. simpl. by rewrite Hc, (IH Hr).
Qed.

Lemma span_digits_all s : all_digits s = true → span Py.isdigit s = (s, EmptyString).
Proof.
  induction s as [|c r IH]; simpl; [done|]. intros H.
  apply andb_prop in H as [Hc Hr]. by rewrite Hc, (IH Hr).
Qed.

(** X2: an address written as column letters followed by [str(n)] parses
    back to the upper-cased letters and [n]. *)
Theorem parse_cell_ref_of_formatted (letters : string) (n : Z) :
  all_letters letters = true → letters ≠ EmptyString → 0 ≤ n →
  parse_cell_ref (letters +:+ Py.str_int n) = Ok (Py.upper letters, n).
Proof.
  intros Hl Hne Hn. destruct (str_int_digits n Hn) as [Hd Hdne].
  unfold parse_cell_ref, CELL_REF_RE_match.
  rewrite (span_letters_app letters (Py.str_int n) Hl).
  2:{ destruct (Py.str_int n) as [|c r]; [done|]. simpl in Hd.
      apply andb_prop in Hd as [Hc _]. by apply isdigit_not_letter. }
  rewrite (span_digits_all _ Hd).
  destruct letters as [|c l]; [done|].
  destruct (Py.str_int n) as [|d ds] eqn:E; [done|].
  rewrite bool_decide_eq_true_2 by done. cbn [orb].
  by rewrite <- E, int_str_str_int.
Qed.

Lemma parse_cell_ref_of_formatted_witness :
  parse_cell_ref ("ab" +:+ Py.str_int 12) = Ok ("AB", 12).
Proof. apply (parse_cell_ref_of_formatted "ab" 12); [reflexivity | discriminate | lia]. Defined.

(** ** Column indices are distinct *)

Lemma upper_char_of_value a b :
  letter_value a = letter_value b → Py.upper_char a = Py.upper_char b.
Proof.
  unfold letter_value, Py.ord. intros H.
  assert (nat_of_ascii (Py.upper_char a) = nat_of_ascii (Py.upper_char b)) as E by lia.
  rewrite <- (ascii_nat_embedding (Py.upper_char a)), E.
  apply ascii_nat_embedding.
Qed.

Lemma numeral_same_length s t :
  all_letters s = true → all_letters t = true →
  numeral_value s = numeral_value t → String.length s = String.length t.
Proof.
  intros Hs Ht E.
  destruct (Nat.lt_trichotomy (String.length s) (String.length t)) as [H | [H | H]];
    [|done|].
  - pose proof (numeral_shorter s t Hs Ht H). lia.
  - pose proof (numeral_shorter t s Ht Hs H). lia.
Qed.

Lemma numeral_inj s t :
  all_letters s = true → all_letters t = true →
  String.length s = String.length t →
  numeral_value s = numeral_value t → Py.upper s = Py.upper t.
Proof.
  revert t. induction s as [|a r IH]; intros [|b u]; simpl all_letters;
    intros Hs Ht Hlen E; try discriminate; [done|].
  apply andb_prop in Hs as [Ha Hr]. apply andb_prop in Ht as [Hb Hu].
  injection Hlen as Hlen. cbn [numeral_value] in E. rewrite <- Hlen in E.
  pose proof (numeral_bounds r Hr) as Br. pose proof (numeral_bounds u Hu) as Bu.
  rewrite <- Hlen in Bu.
  assert (0 < 26 ^ Z.of_nat (String.length r)) by (apply Z.pow_pos_nonneg; lia).
  assert (letter_value a = letter_value b) as Ev by nia.
  assert (numeral_value r = numeral_value u) as Er by nia.
  cbn [Py.upper]. by rewrite (upper_char_of_value a b Ev), (IH u Hr Hu Hlen Er).
Qed.

(** X3: two column names have the same index only if they are the same
    name up to case: distinct columns never share an index. *)
Theorem col_letters_to_index_injective (s t : string) :
  all_letters s = true → all_letters t = true →
  col_letters_to_index s = col_letters_to_index t →
  Py.upper s = Py.upper t.
Proof.
  intros Hs Ht E. rewrite !col_index_numeral in E.
  apply numeral_inj; [done | done | by apply numeral_same_length | done].
Qed.

Lemma col_letters_to_index_injective_witness : Py.upper "ab" = Py.upper "AB".
Proof.
  apply (col_letters_to_index_injective "ab" "AB"); reflexivity.
Defined.

(** ** Looking up after inserting *)

Lemma str_int_inj a b : Py.str_int a = Py.str_int b → a = b.
Proof.
  intros E. pose proof (int_str_str_int a) as Ha. rewrite E, int_str_str_int in Ha.
  congruence.
Qed.

Lemma first_at_shift (P : Element → bool) o l :
  first_at P (S o) l = (λ found, (S found.1, found.2)) <$> first_at P o l.
Proof.
  revert o. induction l as [|a l IH]; intros o; simpl; [done|].
  destruct (P a); [done|]. rewrite (IH (S o)). by rewrite IH.
Qed.

Lemma first_at_insert_other (P : Element → bool) o l k x :
  P x = false → (k ≤ length l)%nat →
  first_at P o (list_insert_at k x l)
  = (λ found, (if bool_decide (found.1 < o + k)%nat then found.1 else S found.1, found.2))
      <$> first_at P o l.
Proof.
  intros Hx. revert o k. induction l as [|a l IH]; intros o k Hk.
  - simpl in Hk. assert (k = 0%nat) as -> by lia. simpl. by rewrite Hx.
  - destruct k as [|k].
    + rewrite list_insert_at_0. cbn [first_at]. rewrite Hx.
      destruct (P a) eqn:Ha.
      * cbn. rewrite bool_decide_eq_false_2 by lia. done.
      * rewrite (first_at_shift P (S o)).
        destruct (first_at P (S o) l) as [[i y]|] eqn:E; cbn; [|done].
        destruct (first_at_Some _ _ _ _ _ E) as (Hi & _).
        rewrite bool_decide_eq_false_2 by lia. done.
    + rewrite list_insert_at_S. cbn [first_at]. destruct (P a) eqn:Ha.
      * cbn. rewrite bool_decide_eq_true_2 by lia. done.
      * simpl in Hk. rewrite (IH (S o) k) by lia.
        replace (o + S k)%nat with (S o + k)%nat by lia. done.
Qed.

(** X4: after [insert_row_sorted] has added a row for a number that
    [find_row] did not find, [find_row] finds the new row, at the position
    of the insertion; for every other number it finds the row it found
    before, one position further if it stands after the new row. *)
Theorem find_row_after_insert_row_sorted (sheet_data : Element) (row_num : Z) :
  find_row sheet_data row_num = None →
  ∃ sheet_data' k new_row,
    insert_row_sorted sheet_data row_num = (sheet_data', k, new_row)
    ∧ find_row sheet_data' row_num = Some (k, new_row)
    ∧ children sheet_data' !! k = Some new_row
    ∧ ∀ m, m ≠ row_num →
        find_row sheet_data' m = shifted k <$> find_row sheet_data m.
Proof.
  intros Hnone. eexists _, _, _. split; [reflexivity|].
  assert (Hk : (insert_index (λ row, (row_num <? existing_num row)%Z)
                             (findall tag_row sheet_data)
                ≤ length (children sheet_data))%nat).
  { etrans; [apply insert_index_le | apply filter_length_le]. }
  split; [|split].
  - unfold find_row. cbn [children with_children].
    rewrite (first_at_insert _ _ _ _ _ Hnone); [done | apply new_row_test | done].
  - cbn [children with_children]. by apply list_insert_at_lookup.
  - intros m Hm. unfold find_row. cbn [children with_children].
    rewrite first_at_insert_other; [done | | done].
    unfold has_tag, r_is. cbn [tag attrib]. rewrite lookup_singleton_eq.
    rewrite (bool_decide_eq_false_2 (Some _ = Some _)); [apply andb_false_r|].
    intros [= E]. apply str_int_inj in E. done.
Qed.

Lemma find_row_after_insert_row_sorted_witness :
  ∃ sheet_data' new_row,
    insert_row_sorted sample_sheet_data 3 = (sheet_data', 2%nat, new_row)
    ∧ find_row sheet_data' 3 = Some (2%nat, new_row)
    ∧ find_row sheet_data' 5 = Some (3%nat, sample_row 5 []).
Proof.
  destruct (find_row_after_insert_row_sorted sample_sheet_data 3)
    as (sd & k & new_row & H1 & H2 & _ & H3); [vm_compute; reflexivity|].
  assert (k = 2%nat) as -> by (vm_compute in H1; congruence).
  exists sd, new_row. split; [exact H1|]. split; [exact H2|].
  rewrite (H3 5) by lia. vm_compute. reflexivity.
Defined.

(** X5: after [insert_cell_sorted] has added a cell for an address that
    parses and that [find_cell] did not find, [find_cell] finds the new
    cell, at the position of the insertion; for every other address it
    finds the cell it found before, one position further if it stands after
    the new cell. *)
Theorem find_cell_after_insert_cell_sorted
    (row : Element) (address letters : string) (n : Z) :
  parse_cell_ref address = Ok (letters, n) →
  find_cell row address = None →
  ∃ row' k new_cell,
    insert_cell_sorted row address = Ok (row', k, new_cell)
    ∧ find_cell row' address = Some (k, new_cell)
    ∧ children row' !! k = Some new_cell
    ∧ ∀ other, other ≠ address →
        find_cell row' other = shifted k <$> find_cell row other.
Proof.
  intros Hparse Hnone.
  destruct (insert_cell_sorted_eq row address letters n Hparse) as [Heq Hk].
  eexists _, _, _. split; [exact Heq|]. split; [|split].
  - unfold find_cell. cbn [children with_children].
    rewrite (first_at_insert _ _ _ _ _ Hnone); [done | apply new_cell_test | done].
  - cbn [children with_children]. by apply list_insert_at_lookup.
  - intros other Hother. unfold find_cell. cbn [children with_children].
    rewrite first_at_insert_other; [done | | done].
    unfold has_tag, r_is. cbn [tag attrib]. rewrite lookup_singleton_eq.
    rewrite (bool_decide_eq_false_2 (Some _ = Some _)); [apply andb_false_r|].
    by intros [= E].
Qed.

Lemma find_cell_after_insert_cell_sorted_witness :
  ∃ row' k new_cell,
    insert_cell_sorted
      (sample_row 2 [sample_cell "A2" "Id"; sample_cell "B2" "Old"; sample_cell "D2" "x"])
      "C2"
    = Ok (row', k, new_cell)
    ∧ find_cell row' "C2" = Some (k, new_cell).
Proof.
  destruct (find_cell_after_insert_cell_sorted
              (sample_row 2 [sample_cell "A2" "Id"; sample_cell "B2" "Old";
                             sample_cell "D2" "x"]) "C2" "C" 2)
    as (row' & k & new_cell & H1 & H2 & _);
    [vm_compute; reflexivity | vm_compute; reflexivity |].
  exists row', k, new_cell. exact (conj H1 H2).
Defined.

(** ** Rewriting a cell, again *)

Lemma write_inline_string_twice cell v w :
  write_inline_string (write_inline_string cell v) w = write_inline_string cell w.
Proof.
  unfold write_inline_string. cbn [tag attrib text tail]. f_equal.
  apply insert_insert_eq.
Qed.

(** X6: [write_inline_string] keeps the tag, the text, the tail and every
    attribute of the cell other than [t] (its style among them), and
    replaces the children by one [is] node holding one [t] node with the
    value, marked [xml:space="preserve"] exactly when the value starts or
    ends with a space.  A second write replaces the first: the result is
    that of the last write alone. *)
Theorem write_inline_string_overwrites (cell : Element) (v w : string) :
  write_inline_string (write_inline_string cell v) w = write_inline_string cell w
  ∧ tag (write_inline_string cell w) = tag cell
  ∧ text (write_inline_string cell w) = text cell
  ∧ tail (write_inline_string cell w) = tail cell
  ∧ attrib (write_inline_string cell w) !! "t" = Some "inlineStr"
  ∧ (∀ key, key ≠ "t" → attrib (write_inline_string cell w) !! key = attrib cell !! key)
  ∧ ∃ text_node,
      children (write_inline_string cell w) = [mkElement tag_is ∅ None None [text_node]]
      ∧ tag text_node = tag_t ∧ text text_node = Some w ∧ children text_node = []
      ∧ (attrib text_node !! attr_space = Some "preserve"
         ↔ Py.startswith_space w = true ∨ Py.endswith_space w = true)
      ∧ (∀ key, key ≠ attr_space → attrib text_node !! key = None).
Proof.
  split; [apply write_inline_string_twice|].
  split; [done|]. split; [done|]. split; [done|].
  split; [apply write_inline_string_type|].
  split. { intros key Hkey. unfold write_inline_string. cbn [attrib].
           by apply lookup_insert_ne. }
  unfold write_inline_string. cbn [children]. eexists. split; [reflexivity|].
  cbn [tag text children attrib]. split; [done|]. split; [done|]. split; [done|].
  destruct (Py.startswith_space w || Py.endswith_space w) eqn:E.
  - split.
    + rewrite lookup_singleton_eq. split; [|done]. intros _. by apply orb_prop.
    + intros key Hkey. by apply lookup_singleton_ne.
  - apply orb_false_elim in E as [E1 E2]. split; [|done].
    rewrite lookup_empty, E1, E2. split; [done | by intros [|]].
Qed.

Lemma write_inline_string_overwrites_witness :
  attrib (write_inline_string
            (mkElement tag_c {[ "r" := "B2"; "s" := "7"; "t" := "s" ]} None None
               [mkElement tag_v ∅ (Some "1") None []]) " New") !! "s"
  = Some "7".
Proof.
  destruct (write_inline_string_overwrites
              (mkElement tag_c {[ "r" := "B2"; "s" := "7"; "t" := "s" ]} None None
                 [mkElement tag_v ∅ (Some "1") None []]) "Old" " New")
    as (_ & _ & _ & _ & _ & H & _).
  rewrite H by discriminate. vm_compute. reflexivity.
Defined.

(** ** The patch loop *)

Lemma set_child_same e i c : children e !! i = Some c → set_child e i c = e.
Proof.
  intros H. unfold set_child, with_children. rewrite list_insert_id by done.
  by destruct e.
Qed.

Lemma find_Some_child t e k c : find t e = Some (k, c) → children e !! k = Some c.
Proof.
  intros H. destruct (first_at_Some _ _ _ _ _ H) as (_ & Hk & _).
  by rewrite Nat.sub_0_r in Hk.
Qed.

Lemma patch_changes_frame shared_strings changes :
  ∀ sheet_data applied issues sheet_data' applied' issues',
    foldM (patch_change shared_strings) (sheet_data, applied, issues) changes
    = Ok (sheet_data', applied', issues') →
    applied ≤ applied'
    ∧ (applied' = applied → sheet_data' = sheet_data)
    ∧ ∃ new, issues' = issues ++ new.
Proof.
  induction changes as [|c cs IH]; intros sd a i sd' a' i'; cbn [foldM].
  - intros [= -> -> ->]. split; [lia|]. split; [done|]. exists []. by rewrite app_nil_r.
  - destruct (patch_change shared_strings (sd, a, i) c) as [[[sd1 a1] i1]|] eqn:E;
      cbn [mbind result_bind]; [|done].
    intros H. apply IH in H as (Hle & Hsame & new & ->).
    apply patch_change_outcome in E as [(sd2 & [= -> -> ->]) | (x & [= -> -> ->])].
    + split; [lia|]. split; [lia | eauto].
    + split; [done|]. split; [done|]. exists (x :: new). by rewrite <- app_assoc.
Qed.

(** X7: [patch_sheet_xml] never counts down and never drops an issue, and
    it changes the tree only by applying a change: when it reports no
    applied change, what it returns is the serialisation of the tree as
    parsed, with one issue for every change request. *)
Theorem nothing_applied_nothing_changed
    (ET_fromstring : bytes → result Element) (ET_tostring : Element → bytes)
    (data : bytes) (shared_strings : list string) (changes : list change)
    (patched : bytes) (applied : Z) (issues : list issue) :
  patch_sheet_xml ET_fromstring ET_tostring data shared_strings changes
  = Ok (patched, applied, issues) →
  0 ≤ applied ≤ Z.of_nat (length changes)
  ∧ ∃ root, ET_fromstring data = Ok root
            ∧ (applied = 0 →
               patched = ET_tostring root ∧ length issues = length changes).
Proof.
  intros H. pose proof (patch_sheet_xml_count _ _ _ _ _ _ _ _ H) as Hcount.
  unfold patch_sheet_xml in H.
  destruct (ET_fromstring data) as [root|]; cbn [mbind result_bind] in H; [|done].
  destruct (find tag_sheetData root) as [[k sd]|] eqn:Hsd; [|done].
  destruct (foldM (patch_change shared_strings) (sd, 0, []) changes)
    as [[[sd' a'] i']|] eqn:E; cbn [mbind result_bind] in H; [|done].
  injection H as <- <- <-.
  apply patch_changes_frame in E as (Hle & Hsame & _).
  split; [lia|]. exists root. split; [done|]. intros ->.
  rewrite (Hsame eq_refl), (set_child_same _ _ _ (find_Some_child _ _ _ _ Hsd)).
  split; [done | lia].
Qed.

Lemma nothing_applied_nothing_changed_witness :
  ∃ root, sample_fromstring [Byte.x02] = Ok root
          ∧ [Byte.xff] = sample_tostring root.
Proof.
  destruct (nothing_applied_nothing_changed sample_fromstring sample_tostring
              [Byte.x02] [] [sample_change "2B" "x" "y"] [Byte.xff] 0
              [mkIssue (PStr "Sheet1") "2B" "Invalid cell address: 2B" 0 PNone "column"])
    as [_ (root & H1 & H2)]; [vm_compute; reflexivity|].
  destruct (H2 eq_refl) as [H3 _]. exists root. exact (conj H1 H3).
Defined.

(** X8: a change request whose stripped address the pattern does not
    match is rejected with the parser's message, [Invalid cell address:
    ...], as the reason and the stripped address recorded; the tree and
    the counter are left as they were. *)
Theorem malformed_address_is_rejected
    (shared_strings : list string) (sheet_data : Element) (applied : Z)
    (issues : list issue) (c : change) :
  let address := Py.strip (py_str (get c "sourceAddress" (PStr EmptyString))) in
  well_typed c = true →
  CELL_REF_RE_match address = None →
  ∃ i, patch_change shared_strings (sheet_data, applied, issues) c
       = Ok (sheet_data, applied, issues ++ [i])
       ∧ i_reason i = "Invalid cell address: " +:+ address
       ∧ i_sourceAddress i = address
       ∧ i_sheetName i = get c "sheetName" (PStr EmptyString)
       ∧ py_int (get c "tableIndex" (PInt (-1))) = Ok (i_tableIndex i)
       ∧ column_index_of c = Ok (i_columnIndex i)
       ∧ i_target i = target_of c.
Proof.
  intros address Htyped Hmatch.
  destruct (well_typed_ints c Htyped) as (ti & ci & Hti & Hci).
  unfold patch_change. rewrite Hti, Hci. cbn [mbind result_bind].
  fold address. unfold parse_cell_ref. rewrite Hmatch.
  eexists. split; [reflexivity|]. repeat split.
Qed.

Lemma malformed_address_is_rejected_witness :
  ∃ i, patch_change [] (sample_sheet_data, 0, []) (sample_change " 2B " "x" "y")
       = Ok (sample_sheet_data, 0, [i])
       ∧ i_reason i = "Invalid cell address: 2B".
Proof.
  destruct (malformed_address_is_rejected [] sample_sheet_data 0 []
              (sample_change " 2B " "x" "y"))
    as (i & H1 & H2 & _); [vm_compute; reflexivity | vm_compute; reflexivity |].
  exists i. exact (conj H1 H2).
Defined.

Lemma ill_typed_raises shared_strings st c :
  well_typed c = false → ∃ e, patch_change shared_strings st c = Raise e.
Proof.
  destruct st as [[sd a] i]. unfold well_typed, int_coercible, patch_change.
  destruct (py_int (get c "tableIndex" (PInt (-1)))) as [ti|e]; [|eauto].
  cbn [mbind result_bind andb]. unfold column_index_of.
  destruct (get c "columnIndex" PNone) as [| b | n | s | s o]; cbn; try done.
  - destruct (Py.int_str s); cbn; [done | eauto].
  - destruct o; cbn; [done | eauto].
Qed.

(** X9: one change request whose [tableIndex] or [columnIndex] cannot be
    coerced makes [patch_sheet_xml] raise, wherever it stands in the list
    and whatever the worksheet holds: no patched bytes, count or issue is
    returned for any request of that worksheet. *)
Theorem ill_typed_change_raises
    (ET_fromstring : bytes → result Element) (ET_tostring : Element → bytes)
    (data : bytes) (shared_strings : list string) (changes : list change)
    (c : change) :
  c ∈ changes → well_typed c = false →
  ∃ e, patch_sheet_xml ET_fromstring ET_tostring data shared_strings changes = Raise e.
Proof.
  intros Hin Hc.
  assert (Hfold : ∀ st, ∃ e, foldM (patch_change shared_strings) st changes = Raise e).
  { induction changes as [|c' cs IH]; [by apply not_elem_of_nil in Hin|].
    intros st. cbn [foldM].
    destruct (patch_change shared_strings st c') as [st'|e] eqn:E;
      cbn [mbind result_bind]; [|eauto].
    apply elem_of_cons in Hin as [-> | Hin]; [|by apply IH].
    destruct (ill_typed_raises shared_strings st c' Hc) as [e He]. congruence. }
  unfold patch_sheet_xml.
  destruct (ET_fromstring data) as [root|e]; cbn [mbind result_bind]; [|eauto].
  destruct (find tag_sheetData root) as [[k sd]|]; [|eauto].
  destruct (Hfold (sd, 0, [])) as [e ->]. cbn [mbind result_bind]. eauto.
Qed.

Lemma ill_typed_change_raises_witness :
  ∃ e, patch_sheet_xml sample_fromstring sample_tostring [Byte.x02] []
         [sample_change "B2" "Old" "New";
          <["columnIndex" := PStr "two"]> (sample_change "A1" "Name" "Title")]
       = Raise e.
Proof.
  apply (ill_typed_change_raises sample_fromstring sample_tostring [Byte.x02] []
           _ (<["columnIndex" := PStr "two"]> (sample_change "A1" "Name" "Title"))).
  - apply list_elem_of_further, list_elem_of_here.
  - vm_compute. reflexivity.
Defined.

(** ** Changes in sequence *)

Section PatchChangeShape.

Variables (shared_strings : list string) (sheet_data : Element) (applied : Z)
          (issues : list issue) (c : change) (letters : string) (row_num : Z).

Let address := Py.strip (py_str (get c "sourceAddress" (PStr EmptyString))).
Let before := py_str (get c "beforeName" (PStr EmptyString)).
Let after := py_str (get c "afterName" (PStr EmptyString)).
Let current_value := current_value_at shared_strings sheet_data row_num address.

Hypothesis Htyped : well_typed c = true.
Hypothesis Hparse : parse_cell_ref address = Ok (letters, row_num).

(** Where an applied change leaves the cell it wrote. *)
Lemma patch_change_applied_shape :
  Py.strip current_value = Py.strip before ∨ Py.strip current_value = Py.strip after →
  ∃ sheet_data' i row j cell0,
    patch_change shared_strings (sheet_data, applied, issues) c
    = Ok (sheet_data', applied + 1, issues)
    ∧ find_row sheet_data' row_num = Some (i, row)
    ∧ find_cell row address = Some (j, write_inline_string cell0 after).
Proof.
  intros Hmatch.
  destruct (well_typed_ints c Htyped) as (ti & ci & Hti & Hci).
  unfold patch_change. rewrite Hti, Hci. cbn [mbind result_bind].
  fold address before after. rewrite Hparse.
  unfold current_value, current_value_at in Hmatch.
  destruct (find_row sheet_data row_num) as [[i row]|] eqn:Hrow.
  - destruct (first_at_Some _ _ _ _ _ Hrow) as (_ & _ & Hrowtest & _).
    destruct (find_cell row address) as [[j cell]|] eqn:Hcell.
    + assert (bool_decide (Py.strip (extract_cell_text cell shared_strings) = Py.strip before)
              || bool_decide (Py.strip (extract_cell_text cell shared_strings) = Py.strip after)
              = true) as ->.
      { destruct Hmatch as [H | H]; rewrite (bool_decide_eq_true_2 _ H);
          [done | apply orb_true_r]. }
      eexists _, i, _, j, cell. split; [reflexivity|].
      destruct (first_at_Some _ _ _ _ _ Hcell) as (_ & _ & Hcelltest & _).
      split.
      * unfold find_row. cbn [set_child with_children children].
        rewrite <- (Nat.sub_0_r i) at 1.
        by rewrite (first_at_update _ _ _ _ _
                      (set_child row j (write_inline_string cell after)) Hrow)
          by (by rewrite row_test_set_child).
      * unfold find_cell. cbn [set_child with_children children].
        rewrite <- (Nat.sub_0_r j) at 1.
        by rewrite (first_at_update _ _ _ _ _ (write_inline_string cell after) Hcell)
          by (by rewrite cell_test_written).
    + assert (bool_decide (Py.strip EmptyString = Py.strip before)
              || bool_decide (Py.strip EmptyString = Py.strip after) = true) as ->.
      { destruct Hmatch as [H | H]; rewrite (bool_decide_eq_true_2 _ H);
          [done | apply orb_true_r]. }
      destruct (insert_cell_sorted_eq row address letters row_num Hparse) as [-> Hk].
      cbn [mbind result_bind].
      eexists _, i, _, _, _. split; [reflexivity|]. split.
      * unfold find_row. cbn [set_child with_children children].
        rewrite <- (Nat.sub_0_r i) at 1.
        by erewrite (first_at_update _ _ _ _ _ _ Hrow) by exact Hrowtest.
      * unfold find_cell. cbn [set_child with_children children].
        rewrite list_insert_at_update by exact Hk.
        by rewrite (first_at_insert _ _ _ _ _ Hcell) by
          (first [ by rewrite cell_test_written, new_cell_test | exact Hk ]).
  - assert (bool_decide (Py.strip EmptyString = Py.strip before)
            || bool_decide (Py.strip EmptyString = Py.strip after) = true) as ->.
    { destruct Hmatch as [H | H]; rewrite (bool_decide_eq_true_2 _ H);
        [done | apply orb_true_r]. }
    unfold insert_row_sorted.
    destruct (insert_cell_sorted_eq
                (mkElement tag_row {[ "r" := Py.str_int row_num ]} None None [])
                address letters row_num Hparse) as [-> _].
    cbn [mbind result_bind].
    eexists _, _, _, _, _. split; [reflexivity|]. split.
    * unfold find_row. cbn [set_child with_children children].
      rewrite list_insert_at_update
        by (etrans; [apply insert_index_le | apply filter_length_le]).
      by rewrite (first_at_insert _ _ _ _ _ Hrow)
        by (first [ apply new_row_test
                  | etrans; [apply insert_index_le | apply filter_length_le] ]).
    * unfold find_cell, findall.
      cbn [children List.filter insert_index list_insert_at take drop app
           set_child with_children insert list_insert first_at].
      by rewrite cell_test_written, new_cell_test.
Qed.

End PatchChangeShape.

(** X10: applying an applicable change a second time is counted again and
    leaves the tree exactly as the first application left it. *)
Theorem reapplying_a_change_changes_nothing
    (shared_strings : list string) (sheet_data : Element) (applied : Z)
    (issues : list issue) (c : change) (letters : string) (row_num : Z) :
  let address := Py.strip (py_str (get c "sourceAddress" (PStr EmptyString))) in
  let before := py_str (get c "beforeName" (PStr EmptyString)) in
  let after := py_str (get c "afterName" (PStr EmptyString)) in
  let current_value := current_value_at shared_strings sheet_data row_num address in
  well_typed c = true →
  parse_cell_ref address = Ok (letters, row_num) →
  Py.strip current_value = Py.strip before ∨ Py.strip current_value = Py.strip after →
  ∃ sheet_data',
    patch_change shared_strings (sheet_data, applied, issues) c
    = Ok (sheet_data', applied + 1, issues)
    ∧ patch_change shared_strings (sheet_data', applied + 1, issues) c
      = Ok (sheet_data', applied + 1 + 1, issues)
    ∧ foldM (patch_change shared_strings) (sheet_data, applied, issues) [c; c]
      = Ok (sheet_data', applied + 1 + 1, issues).
Proof.
  intros address before after current_value Htyped Hparse Hmatch.
  destruct (patch_change_applied_shape shared_strings sheet_data applied issues c
              letters row_num Htyped Hparse Hmatch)
    as (sd' & i & row & j & cell0 & Hfirst & Hrow & Hcell).
  assert (Hsecond : patch_change shared_strings (sd', applied + 1, issues) c
                    = Ok (sd', applied + 1 + 1, issues)).
  { rewrite (patch_change_existing shared_strings sd' (applied + 1) issues c
               letters row_num Htyped Hparse i row j _ Hrow Hcell).
    2:{ right. by rewrite extract_write_inline_string. }
    destruct (first_at_Some _ _ _ _ _ Hrow) as (_ & Hi & _).
    destruct (first_at_Some _ _ _ _ _ Hcell) as (_ & Hj & _).
    rewrite Nat.sub_0_r in Hi, Hj.
    rewrite write_inline_string_twice.
    by rewrite (set_child_same row j _ Hj), (set_child_same sd' i _ Hi). }
  exists sd'. split; [done|]. split; [done|].
  cbn [foldM]. rewrite Hfirst. cbn [mbind result_bind]. rewrite Hsecond. done.
Qed.

Lemma reapplying_a_change_changes_nothing_witness :
  ∃ sheet_data',
    foldM (patch_change []) (sample_sheet_data, 0, [])
      [sample_change "B2" "Old" "New"; sample_change "B2" "Old" "New"]
    = Ok (sheet_data', 2, [])
    ∧ patch_change [] (sample_sheet_data, 0, []) (sample_change "B2" "Old" "New")
      = Ok (sheet_data', 1, []).
Proof.
  destruct (reapplying_a_change_changes_nothing [] sample_sheet_data 0 []
              (sample_change "B2" "Old" "New") "B" 2)
    as (sd' & H1 & _ & H3);
    [vm_compute; reflexivity | vm_compute; reflexivity | left; vm_compute; reflexivity |].
  exists sd'. exact (conj H3 H1).
Defined.

(** X11: changes are applied in sequence on the same tree: when a first
    change applies and a second change to the same address expects (or sets)
    what the first one wrote, both are counted and the cell reads the second
    [afterName]. *)
Theorem chained_changes_compose
    (shared_strings : list string) (sheet_data : Element) (applied : Z)
    (issues : list issue) (c1 c2 : change) (letters : string) (row_num : Z) :
  let address := Py.strip (py_str (get c1 "sourceAddress" (PStr EmptyString))) in
  let before1 := py_str (get c1 "beforeName" (PStr EmptyString)) in
  let after1 := py_str (get c1 "afterName" (PStr EmptyString)) in
  let before2 := py_str (get c2 "beforeName" (PStr EmptyString)) in
  let after2 := py_str (get c2 "afterName" (PStr EmptyString)) in
  let current_value := current_value_at shared_strings sheet_data row_num address in
  well_typed c1 = true → well_typed c2 = true →
  Py.strip (py_str (get c2 "sourceAddress" (PStr EmptyString))) = address →
  parse_cell_ref address = Ok (letters, row_num) →
  Py.strip current_value = Py.strip before1 ∨ Py.strip current_value = Py.strip after1 →
  Py.strip after1 = Py.strip before2 ∨ Py.strip after1 = Py.strip after2 →
  ∃ sheet_data',
    foldM (patch_change shared_strings) (sheet_data, applied, issues) [c1; c2]
    = Ok (sheet_data', applied + 1 + 1, issues)
    ∧ current_value_at shared_strings sheet_data' row_num address = after2.
Proof.
  intros address before1 after1 before2 after2 current_value
         Hty1 Hty2 Haddr Hparse Hm1 Hm2.
  destruct (patch_change_applied shared_strings sheet_data applied issues c1
              letters row_num Hty1 Hparse Hm1) as (sd1 & H1 & Hcur1).
  fold address in Hcur1. fold after1 in Hcur1.
  destruct (patch_change_applied shared_strings sd1 (applied + 1) issues c2
              letters row_num Hty2) as (sd2 & H2 & Hcur2).
  { by rewrite Haddr. }
  { rewrite Haddr, Hcur1. exact Hm2. }
  rewrite Haddr in Hcur2.
  exists sd2. split; [|exact Hcur2].
  cbn [foldM]. rewrite H1. cbn [mbind result_bind]. rewrite H2. done.
Qed.

Lemma chained_changes_compose_witness :
  ∃ sheet_data',
    foldM (patch_change []) (sample_sheet_data, 0, [])
      [sample_change "B2" "Old" "New"; sample_change "B2" "New" "Newer"]
    = Ok (sheet_data', 2, [])
    ∧ current_value_at [] sheet_data' 2 "B2" = "Newer".
Proof.
  destruct (chained_changes_compose [] sample_sheet_data 0 []
              (sample_change "B2" "Old" "New") (sample_change "B2" "New" "Newer") "B" 2)
    as (sd' & H1 & H2);
    [vm_compute; reflexivity | vm_compute; reflexivity | vm_compute; reflexivity
    | vm_compute; reflexivity | left; vm_compute; reflexivity
    | left; vm_compute; reflexivity |].
  exists sd'. exact (conj H1 H2).
Defined.

(** ** The run and the file system *)

Lemma routed_to_nonempty sheet_map path changes :
  routed_to sheet_map path changes ≠ [] →
  ∃ c, c ∈ changes ∧ route sheet_map c = Some path.
Proof.
  destruct (routed_to sheet_map path changes) as [|c cs] eqn:E; [done|]. intros _.
  exists c. apply routed_to_elem. rewrite E. apply list_elem_of_here.
Qed.

(** X12: [main] changes no file but the workbook and leaves no temporary
    file; when it raises, whether in planning or in the copy, the file
    system is what it was; and when the workbook does not exist it raises
    without creating anything. *)
Theorem main_touches_only_the_workbook
    (ET_fromstring : bytes → result Element) (ET_tostring : Element → bytes)
    (build_sheet_name_to_path : archive → result (gmap string string))
    (temp_path workbook_path : string) (changes : list change) (f : fault)
    (fs fs' : filesystem) (r : result (Z * list issue)) :
  fs !! temp_path = None →
  main ET_fromstring ET_tostring build_sheet_name_to_path
       temp_path workbook_path changes f fs = (fs', r) →
  fs' !! temp_path = None
  ∧ (∀ p, p ≠ workbook_path → fs' !! p = fs !! p)
  ∧ (∀ e, r = Raise e → fs' = fs)
  ∧ (fs !! workbook_path = None → r = Raise OSError).
Proof.
  intros Htemp Hmain. unfold main in Hmain.
  destruct (fs !! workbook_path) as [zin|] eqn:Hwb.
  2:{ injection Hmain as <- <-. done. }
  destruct (plan _ _ _ zin changes) as [[[rep a] i]|e] eqn:Hplan.
  2:{ injection Hmain as <- <-. done. }
  case_bool_decide as Hsize.
  { injection Hmain as <- <-. done. }
  destruct (fires f zin) eqn:Hf.
  - destruct (copy_zip_fails temp_path workbook_path rep f fs zin Hwb Htemp Hf)
      as [e He].
    rewrite He in Hmain. cbn [mbind result_bind] in Hmain.
    injection Hmain as <- <-. done.
  - rewrite (copy_zip_completes temp_path workbook_path rep f fs zin Hwb Htemp Hf)
      in Hmain.
    cbn [mbind result_bind] in Hmain. injection Hmain as <- <-.
    pose proof (temp_is_not_workbook temp_path workbook_path fs zin Hwb Htemp).
    split; [by rewrite lookup_insert_ne|].
    split; [intros p Hp; by rewrite lookup_insert_ne|]. done.
Qed.

Lemma main_touches_only_the_workbook_witness :
  (main sample_fromstring sample_tostring sample_resolver
        "tmp.xlsx" "book.xlsx" sample_changes (FaultEntry 1) sample_fs).1
    !! "tmp.xlsx" = None
  ∧ (main sample_fromstring sample_tostring sample_resolver
          "tmp.xlsx" "book.xlsx" sample_changes (FaultEntry 1) sample_fs).1
    = sample_fs.
Proof.
  destruct (main_touches_only_the_workbook sample_fromstring sample_tostring
              sample_resolver "tmp.xlsx" "book.xlsx" sample_changes (FaultEntry 1)
              sample_fs
              (main sample_fromstring sample_tostring sample_resolver
                 "tmp.xlsx" "book.xlsx" sample_changes (FaultEntry 1) sample_fs).1
              (main sample_fromstring sample_tostring sample_resolver
                 "tmp.xlsx" "book.xlsx" sample_changes (FaultEntry 1) sample_fs).2)
    as (H1 & _ & H3 & _);
    [vm_compute; reflexivity | apply surjective_pairing |].
  split; [exact H1|]. apply (H3 OSError). vm_compute. reflexivity.
Defined.

(** X13: when no change request is routed to a member of the archive,
    [main] does not start the copy at all: whichever operation of the copy
    would have failed, the file system is returned as it was. *)
Theorem no_routed_change_no_copy
    (ET_fromstring : bytes → result Element) (ET_tostring : Element → bytes)
    (build_sheet_name_to_path : archive → result (gmap string string))
    (temp_path workbook_path : string) (changes : list change) (f : fault)
    (fs : filesystem) (zin : archive) (sheet_map : gmap string string) :
  fs !! workbook_path = Some zin →
  build_sheet_name_to_path zin = Ok sheet_map →
  (∀ c path, c ∈ changes → route sheet_map c = Some path → path ∉ namelist zin) →
  main ET_fromstring ET_tostring build_sheet_name_to_path
       temp_path workbook_path changes f fs
  = (fs, '(_, applied_count, issues) ←
           plan ET_fromstring ET_tostring build_sheet_name_to_path zin changes;
         Ok (applied_count, issues)).
Proof.
  intros Hwb Hmap Hnone. unfold main. rewrite Hwb.
  destruct (plan _ _ _ zin changes) as [[[rep a] i]|e] eqn:Hplan; [|done].
  cbn [mbind result_bind].
  rewrite bool_decide_eq_true_2; [done|].
  apply map_size_empty_iff, map_eq. intros path. rewrite lookup_empty.
  unfold plan in Hplan.
  destruct (get_shared_strings ET_fromstring zin) as [shared|];
    cbn [mbind result_bind] in Hplan; [|done].
  rewrite Hmap in Hplan. cbn [mbind result_bind] in Hplan.
  destruct (foldM (group_change sheet_map) ([], []) changes) as [[g i0]|] eqn:Hgroup;
    cbn [mbind result_bind] in Hplan; [|done].
  destruct (groups_inv_fold sheet_map changes [] [] [] g i0
              (groups_inv_empty sheet_map) Hgroup) as [Hnd Hg].
  simpl in Hg.
  pose proof (patch_groups_replacements ET_fromstring ET_tostring zin shared g
                _ _ _ _ _ _ Hnd Hplan path) as Hrep.
  rewrite Hg in Hrep.
  destruct (routed_to sheet_map path changes) as [|c cs] eqn:E.
  - by rewrite Hrep.
  - destruct (routed_to_nonempty sheet_map path changes) as (c' & Hc' & Hr');
      [by rewrite E|].
    rewrite bool_decide_eq_false_2 in Hrep by (by apply (Hnone c')).
    by rewrite Hrep.
Qed.

Lemma no_routed_change_no_copy_witness :
  main sample_fromstring sample_tostring sample_resolver "tmp.xlsx" "book.xlsx"
       [<["sheetName" := PStr "NoSuchSheet"]> (sample_change "A1" "Name" "Title")]
       FaultOpen sample_fs
  = (sample_fs,
     Ok (0, [mkIssue (PStr "NoSuchSheet") "A1" "Worksheet not found in workbook"
                     0 PNone "column"])).
Proof.
  rewrite (no_routed_change_no_copy sample_fromstring sample_tostring sample_resolver
             "tmp.xlsx" "book.xlsx" _ FaultOpen sample_fs sample_archive
             {[ "Sheet1" := sample_sheet_path ]}).
  - vm_compute. reflexivity.
  - vm_compute. reflexivity.
  - reflexivity.
  - intros c path Hc Hr. apply list_elem_of_singleton in Hc as ->.
    vm_compute in Hr. discriminate Hr.
Defined.

(** X14: a completed copy keeps the list of member names, in order: a
    replacement creates no member, so bytes recorded under a name the
    archive does not have are dropped, and two replacement tables that
    agree on the member names give the same archive. *)
Theorem copy_keeps_the_member_list
    (temp_path workbook_path : string) (r1 r2 : gmap string bytes)
    (f : fault) (fs : filesystem) (zin : archive) :
  fs !! workbook_path = Some zin →
  fs !! temp_path = None →
  fires f zin = false →
  ∃ zout,
    copy_zip_with_replacements temp_path workbook_path r1 f fs
    = (<[workbook_path := zout]> fs, Ok ())
    ∧ namelist zout = namelist zin
    ∧ ((∀ name, name ∈ namelist zin → r1 !! name = r2 !! name) →
       copy_zip_with_replacements temp_path workbook_path r2 f fs
       = (<[workbook_path := zout]> fs, Ok ())).
Proof.
  intros Hwb Htemp Hf. exists (copied zin r1).
  split; [by apply copy_zip_completes|]. split.
  - unfold namelist, copied, infolist. rewrite <- !list_fmap_compose.
    apply list_fmap_ext. by intros k [info data] _.
  - intros Hagree.
    rewrite (copy_zip_completes temp_path workbook_path r2 f fs zin Hwb Htemp Hf).
    do 2 f_equal. unfold copied. apply list_fmap_ext. intros k info Hk.
    rewrite Hagree; [done|]. unfold namelist.
    apply list_elem_of_fmap_2, list_elem_of_lookup. eauto.
Qed.

Lemma copy_keeps_the_member_list_witness :
  ∃ zout,
    copy_zip_with_replacements "tmp.xlsx" "book.xlsx"
      {[ "xl/worksheets/sheet9.xml" := [Byte.xff] ]} NoFault sample_fs
    = (<["book.xlsx" := zout]> sample_fs, Ok ())
    ∧ namelist zout = namelist sample_archive.
Proof.
  destruct (copy_keeps_the_member_list "tmp.xlsx" "book.xlsx"
              {[ "xl/worksheets/sheet9.xml" := [Byte.xff] ]} ∅ NoFault
              sample_fs sample_archive) as (zout & H1 & H2 & _);
    [vm_compute; reflexivity | vm_compute; reflexivity | reflexivity |].
  exists zout. exact (conj H1 H2).
Defined.

(** ** Requests that reach no worksheet *)

Lemma unrouted_issue_fields c reason x :
  unrouted_issue c reason = Ok x →
  i_reason x = reason
  ∧ i_sheetName x = PStr (py_str (get c "sheetName" (PStr EmptyString)))
  ∧ i_sourceAddress x = py_str (get c "sourceAddress" (PStr EmptyString))
  ∧ py_int (get c "tableIndex" (PInt (-1))) = Ok (i_tableIndex x)
  ∧ i_columnIndex x = get c "columnIndex" PNone
  ∧ i_target x = target_of c.
Proof.
  unfold unrouted_issue.
  destruct (py_int (get c "tableIndex" (PInt (-1)))) as [ti|]; cbn; [|done].
  intros [= <-]. repeat split.
Qed.

Lemma missing_issues_Forall2 reason changes :
  ∀ issues issues',
    foldM (λ acc c, i ← unrouted_issue c reason; Ok (acc ++ [i])) issues changes
    = Ok issues' →
    ∃ new, issues' = issues ++ new
           ∧ Forall2 (λ c x, unrouted_issue c reason = Ok x) changes new.
Proof.
  induction changes as [|c cs IH]; intros issues issues'; cbn [foldM].
  - intros [= <-]. exists []. by rewrite app_nil_r.
  - destruct (unrouted_issue c reason) as [x|] eqn:E; cbn [mbind result_bind]; [|done].
    intros H. apply IH in H as (new & -> & Hnew).
    exists (x :: new). rewrite <- app_assoc. split; [done|]. by constructor.
Qed.

Lemma missing_issues_returns reason changes :
  Forall (λ c, int_coercible (get c "tableIndex" (PInt (-1))) = true) changes →
  ∀ issues, ∃ issues',
    foldM (λ acc c, i ← unrouted_issue c reason; Ok (acc ++ [i])) issues changes
    = Ok issues'.
Proof.
  induction 1 as [|c cs Hc _ IH]; intros issues; cbn [foldM]; [eauto|].
  assert (∃ x, unrouted_issue c reason = Ok x) as [x ->].
  { unfold unrouted_issue. unfold int_coercible in Hc.
    destruct (py_int (get c "tableIndex" (PInt (-1)))); [cbn; eauto | done]. }
  cbn [mbind result_bind]. apply IH.
Qed.

Lemma missing_issues_raises reason changes c :
  c ∈ changes → int_coercible (get c "tableIndex" (PInt (-1))) = false →
  ∀ issues, ∃ e,
    foldM (λ acc c, i ← unrouted_issue c reason; Ok (acc ++ [i])) issues changes
    = Raise e.
Proof.
  intros Hc Hbad. induction changes as [|c' cs IH]; intros issues;
    [by apply not_elem_of_nil in Hc|].
  cbn [foldM].
  destruct (unrouted_issue c' reason) as [x|e] eqn:E; cbn [mbind result_bind]; [|eauto].
  apply elem_of_cons in Hc as [-> | Hc]; [|by apply IH].
  unfold unrouted_issue, int_coercible in E, Hbad.
  destruct (py_int (get c' "tableIndex" (PInt (-1)))); [done | by cbn in E].
Qed.

(** X15: the change requests routed to a path that is not a member of the
    archive are each rejected with the reason [Worksheet xml entry not found
    in workbook zip], in order; nothing is read, patched or replaced.  The
    issue records the address as given (not stripped) and the [columnIndex]
    as given (not coerced), and only [tableIndex] has to be coercible. *)
Theorem missing_worksheet_entry_rejects_its_group
    (ET_fromstring : bytes → result Element) (ET_tostring : Element → bytes)
    (zin : archive) (shared_strings : list string)
    (replacements : gmap string bytes) (applied_count : Z) (issues : list issue)
    (path : string) (sheet_changes : list change) :
  path ∉ namelist zin →
  (Forall (λ c, int_coercible (get c "tableIndex" (PInt (-1))) = true) sheet_changes →
   ∃ new,
     patch_group ET_fromstring ET_tostring zin shared_strings
       (replacements, applied_count, issues) (path, sheet_changes)
     = Ok (replacements, applied_count, issues ++ new)
     ∧ Forall2 (λ c x,
          i_reason x = "Worksheet xml entry not found in workbook zip"
          ∧ i_sheetName x = PStr (py_str (get c "sheetName" (PStr EmptyString)))
          ∧ i_sourceAddress x = py_str (get c "sourceAddress" (PStr EmptyString))
          ∧ py_int (get c "tableIndex" (PInt (-1))) = Ok (i_tableIndex x)
          ∧ i_columnIndex x = get c "columnIndex" PNone
          ∧ i_target x = target_of c) sheet_changes new)
  ∧ (∀ c, c ∈ sheet_changes →
       int_coercible (get c "tableIndex" (PInt (-1))) = false →
       ∃ e, patch_group ET_fromstring ET_tostring zin shared_strings
              (replacements, applied_count, issues) (path, sheet_changes)
            = Raise e).
Proof.
  intros Hpath. unfold patch_group. rewrite bool_decide_eq_false_2 by done.
  split.
  - intros Hty.
    destruct (missing_issues_returns "Worksheet xml entry not found in workbook zip"
                sheet_changes Hty issues) as [issues' H].
    rewrite H. cbn [mbind result_bind].
    apply missing_issues_Forall2 in H as (new & -> & Hnew).
    exists new. split; [done|].
    eapply Forall2_impl; [exact Hnew|]. intros c x Hx.
    by apply (unrouted_issue_fields c _ x).
  - intros c Hc Hbad.
    destruct (missing_issues_raises "Worksheet xml entry not found in workbook zip"
                sheet_changes c Hc Hbad issues) as [e ->].
    cbn. eauto.
Qed.

Lemma missing_worksheet_entry_rejects_its_group_witness :
  ∃ new,
    patch_group sample_fromstring sample_tostring sample_archive []
      (∅, 0, []) ("xl/worksheets/sheet9.xml",
                  [<["columnIndex" := PStr "two"]> (sample_change " B2 " "Old" "New")])
    = Ok (∅, 0, [] ++ new)
    ∧ i_sourceAddress <$> new = [" B2 "].
Proof.
  destruct (missing_worksheet_entry_rejects_its_group sample_fromstring sample_tostring
              sample_archive [] ∅ 0 [] "xl/worksheets/sheet9.xml"
              [<["columnIndex" := PStr "two"]> (sample_change " B2 " "Old" "New")])
    as [H _].
  - apply (bool_decide_eq_false_1 _). vm_compute. reflexivity.
  - destruct H as (new & H1 & H2); [repeat constructor|].
    exists new. split; [exact H1|].
    inversion H2 as [|c x cs xs (_ & _ & Hx & _) Hrest]; subst.
    inversion Hrest; subst. cbn. rewrite Hx. vm_compute. reflexivity.
Defined.

Lemma group_changes_issues sheet_map changes :
  ∀ grouped issues grouped' issues',
    foldM (group_change sheet_map) (grouped, issues) changes = Ok (grouped', issues') →
    ∃ new, issues' = issues ++ new
           ∧ Forall2 (λ c x, unrouted_issue c "Worksheet not found in workbook" = Ok x)
               (List.filter (λ c, bool_decide (route sheet_map c = None)) changes) new.
Proof.
  induction changes as [|c cs IH]; intros g i g' i'; cbn [foldM].
  - intros [= <- <-]. exists []. by rewrite app_nil_r.
  - rewrite group_change_route. cbn [List.filter].
    destruct (route sheet_map c) as [p|] eqn:Hr.
    + cbn [mbind result_bind]. rewrite bool_decide_eq_false_2 by done. apply IH.
    + rewrite bool_decide_eq_true_2 by done.
      destruct (unrouted_issue c _) as [x|] eqn:E; cbn [mbind result_bind]; [|done].
      intros H. apply IH in H as (new & -> & Hnew).
      exists (x :: new). rewrite <- app_assoc. split; [done|]. by constructor.
Qed.

(** X16: the first loop of [main] splits the change requests: the groups
    have distinct paths, a path has a group exactly when some request is
    routed to it, the group holds the requests routed to the path in
    payload order, and the requests routed nowhere (unknown sheet name, or
    a sheet resolved to an empty path) are each rejected, in payload order,
    with the reason [Worksheet not found in workbook]. *)
Theorem grouping_partitions_the_changes
    (sheet_map : gmap string string) (changes : list change)
    (grouped : list (string * list change)) (issues : list issue) :
  foldM (group_change sheet_map) ([], []) changes = Ok (grouped, issues) →
  NoDup grouped.*1
  ∧ (∀ path cs, (path, cs) ∈ grouped
                ↔ cs = routed_to sheet_map path changes ∧ cs ≠ [])
  ∧ Forall2 (λ c x,
       i_reason x = "Worksheet not found in workbook"
       ∧ i_sheetName x = PStr (py_str (get c "sheetName" (PStr EmptyString)))
       ∧ i_sourceAddress x = py_str (get c "sourceAddress" (PStr EmptyString))
       ∧ py_int (get c "tableIndex" (PInt (-1))) = Ok (i_tableIndex x)
       ∧ i_columnIndex x = get c "columnIndex" PNone
       ∧ i_target x = target_of c)
      (List.filter (λ c, bool_decide (route sheet_map c = None)) changes) issues
  ∧ (group_total grouped + length issues = length changes)%nat.
Proof.
  intros H. destruct (grouped_spec sheet_map changes grouped issues H)
    as (Hnd & Hin & Hall).
  split; [done|]. split; [|split].
  - intros path cs. split; [apply Hin|]. intros [-> Hne].
    destruct (routed_to_nonempty sheet_map path changes Hne) as (c & Hc & Hr).
    by apply (Hall path c).
  - destruct (group_changes_issues sheet_map changes [] [] grouped issues H)
      as (new & -> & Hnew).
    eapply Forall2_impl; [exact Hnew|]. intros c x Hx.
    by apply (unrouted_issue_fields c _ x).
  - apply group_changes_count in H. simpl in H. lia.
Qed.

Lemma grouping_partitions_the_changes_witness :
  ∃ grouped issues,
    foldM (group_change {[ "Sheet1" := sample_sheet_path ]}) ([], []) sample_changes
    = Ok (grouped, issues)
    ∧ (group_total grouped + length issues = 3)%nat.
Proof.
  exists [(sample_sheet_path,
           [sample_change "B2" "Old" "New"; sample_change "2B" "x" "y"])],
         [mkIssue (PStr "NoSuchSheet") "A1" "Worksheet not found in workbook"
                  0 PNone "column"].
  assert (foldM (group_change {[ "Sheet1" := sample_sheet_path ]}) ([], [])
                sample_changes
          = Ok ([(sample_sheet_path,
                  [sample_change "B2" "Old" "New"; sample_change "2B" "x" "y"])],
                [mkIssue (PStr "NoSuchSheet") "A1" "Worksheet not found in workbook"
                         0 PNone "column"])) as H
    by (vm_compute; reflexivity).
  split; [exact H|].
  destruct (grouping_partitions_the_changes _ _ _ _ H) as (_ & _ & _ & H4).
  exact H4.
Defined.

(** ** Shared strings *)

(** X17: without a shared-strings member the table is empty, and a part
    that does not parse makes [get_shared_strings] raise.  Otherwise the
    table has one entry for each [si] node below the root, in document
    order: the concatenation of the texts of the text nodes below that
    node, in document order.  A shared-string cell whose value is
    [str(idx)] reads the entry of the [idx]-th [si] node, which is also
    what an inline-string cell holding the children of that node reads. *)
Theorem shared_string_cell_reads_its_entry
    (ET_fromstring : bytes → result Element) (zin : archive) :
  ("xl/sharedStrings.xml" ∉ namelist zin → get_shared_strings ET_fromstring zin = Ok [])
  ∧ (∀ data e,
       zip_lookup zin "xl/sharedStrings.xml" = Some data →
       ET_fromstring data = Raise e →
       get_shared_strings ET_fromstring zin = Raise e)
  ∧ (∀ data root,
       zip_lookup zin "xl/sharedStrings.xml" = Some data →
       ET_fromstring data = Ok root →
       ∃ shared_strings,
         get_shared_strings ET_fromstring zin = Ok shared_strings
         ∧ length shared_strings = length (tagged_below tag_si root)
         ∧ ∀ idx si,
             tagged_below tag_si root !! idx = Some si →
             shared_strings !! idx = Some (String.concat EmptyString (text_runs si))
             ∧ extract_cell_text
                 (mkElement tag_c {[ "t" := "inlineStr" ]} None None
                    [mkElement tag_is ∅ None None (children si)]) shared_strings
               = String.concat EmptyString (text_runs si)
             ∧ ∀ cell k value_node,
                 attrib cell !! "t" = Some "s" →
                 find tag_v cell = Some (k, value_node) →
                 text value_node = Some (Py.str_int (Z.of_nat idx)) →
                 extract_cell_text cell shared_strings
                 = String.concat EmptyString (text_runs si)).
Proof.
  assert (Hread : ∀ data, zip_lookup zin "xl/sharedStrings.xml" = Some data →
            get_shared_strings ET_fromstring zin
            = root ← ET_fromstring data;
              Ok ((λ si, String.concat EmptyString (text_runs si))
                    <$> tagged_below tag_si root)).
  { intros data Hdata. unfold get_shared_strings.
    rewrite bool_decide_eq_true_2
      by (apply zip_lookup_is_Some; rewrite Hdata; eauto).
    unfold zip_read. rewrite Hdata. cbn [mbind result_bind].
    destruct (ET_fromstring data) as [root|e]; [|done]. cbn [mbind result_bind].
    f_equal. rewrite findall_desc_tagged_below. apply list_fmap_ext.
    intros idx si _. rewrite join_concat. unfold text_runs.
    by rewrite findall_desc_tagged_below. }
  split; [|split].
  - intros H. unfold get_shared_strings. by rewrite bool_decide_eq_false_2.
  - intros data e Hdata Hroot. by rewrite (Hread data Hdata), Hroot.
  - intros data root Hdata Hroot. rewrite (Hread data Hdata), Hroot.
    cbn [mbind result_bind]. eexists. split; [reflexivity|].
    split; [by rewrite length_fmap|].
    intros idx si Hsi.
    assert (Hentry : ((λ si, String.concat EmptyString (text_runs si))
                        <$> tagged_below tag_si root) !! idx
                     = Some (String.concat EmptyString (text_runs si)))
      by (by rewrite list_lookup_fmap, Hsi).
    split; [exact Hentry|]. split.
    + unfold extract_cell_text. cbn [attrib]. rewrite lookup_singleton_eq.
      rewrite bool_decide_eq_true_2 by done.
      rewrite join_concat. f_equal. unfold text_runs.
      rewrite <- (findall_desc_tagged_below tag_t si).
      unfold findall_desc. cbn [children flat_map]. rewrite app_nil_r.
      rewrite iter_children. cbn [children List.filter].
      unfold has_tag at 1. cbn [tag].
      assert (bool_decide (tag_is = tag_t) = false) as -> by (by vm_compute).
      done.
    + intros cell k v Ht Hv Htext.
      unfold extract_cell_text. rewrite Ht, Hv, Htext.
      rewrite bool_decide_eq_false_2 by done.
      rewrite bool_decide_eq_true_2 by done.
      rewrite int_str_str_int, Nat2Z.id, length_fmap.
      pose proof (lookup_lt_Some _ _ _ Hsi) as Hlt.
      rewrite (proj2 (Z.leb_le 0 _)), (proj2 (Z.ltb_lt _ _)) by lia.
      cbn [andb]. by rewrite Hentry.
Qed.

Lemma shared_string_cell_reads_its_entry_witness :
  ∃ shared_strings,
    get_shared_strings sample_strings_codec sample_strings_archive = Ok shared_strings
    ∧ shared_strings !! 1%nat = Some "Newer"
    ∧ extract_cell_text
        (mkElement tag_c {[ "r" := "B2"; "t" := "s" ]} None None
           [mkElement tag_v ∅ (Some "1") None []]) shared_strings
      = "Newer".
Proof.
  destruct (shared_string_cell_reads_its_entry sample_strings_codec
              sample_strings_archive) as (_ & _ & H).
  destruct (H [Byte.x05] sample_shared_strings) as (shared & Hshared & _ & Hentries);
    [vm_compute; reflexivity | reflexivity |].
  set (si := mkElement tag_si ∅ None None
               [mkElement (qname NS_MAIN "r") ∅ None None
                  [mkElement tag_t ∅ (Some "Ne") None []];
                mkElement (qname NS_MAIN "r") ∅ None None
                  [mkElement tag_t ∅ (Some "wer") None []]]).
  destruct (Hentries 1%nat si) as (Hentry & _ & Hcell); [vm_compute; reflexivity|].
  exists shared. split; [exact Hshared|]. split; [exact Hentry|].
  apply (Hcell _ 0%nat (mkElement tag_v ∅ (Some "1") None [])); reflexivity.
Defined.

(** ** The sheet-name resolver *)

Lemma lstrip_sep_relative s :
  posixpath.startswith_sep (posixpath.lstrip_sep s) = false.
Proof.
  induction s as [|c r IH]; [done|]. simpl.
  destruct (decide (c = posixpath.sep)) as [->|Hc].
  - by rewrite bool_decide_eq_true_2.
  - rewrite (bool_decide_eq_false_2 _ Hc). simpl. by rewrite bool_decide_eq_false_2.
Qed.

Lemma lstrip_sep_id s :
  posixpath.startswith_sep s = false → posixpath.lstrip_sep s = s.
Proof. destruct s as [|c r]; [done|]. simpl. by intros ->. Qed.

Lemma split_not_nil s : posixpath.split s ≠ [].
Proof.
  destruct s as [|c r]; [done|]. simpl.
  case_bool_decide; [done|]. by destruct (posixpath.split r).
Qed.

Lemma split_sep r :
  posixpath.split (String posixpath.sep r) = EmptyString :: posixpath.split r.
Proof. reflexivity. Qed.

Lemma split_other c r :
  c ≠ posixpath.sep →
  ∃ comp rest, posixpath.split r = comp :: rest
               ∧ posixpath.split (String c r) = String c comp :: rest.
Proof.
  intros Hc. simpl. rewrite (bool_decide_eq_false_2 _ Hc).
  destruct (posixpath.split r) as [|comp rest] eqn:E; [by apply split_not_nil in E|].
  eauto.
Qed.

Lemma split_components_relative s :
  Forall (λ comp, posixpath.startswith_sep comp = false) (posixpath.split s).
Proof.
  induction s as [|c r IH]; [by repeat constructor|].
  destruct (decide (c = posixpath.sep)) as [->|Hc].
  - rewrite split_sep. by constructor.
  - destruct (split_other c r Hc) as (comp & rest & Hr & ->).
    rewrite Hr in IH. apply Forall_cons in IH as [_ IH].
    constructor; [|done]. simpl. by rewrite bool_decide_eq_false_2.
Qed.

Lemma join_sep_cons comp rest :
  rest ≠ [] →
  posixpath.join_sep (comp :: rest)
  = comp +:+ String posixpath.sep (posixpath.join_sep rest).
Proof. by destruct rest. Qed.

Lemma join_sep_split s : posixpath.join_sep (posixpath.split s) = s.
Proof.
  induction s as [|c r IH]; [done|].
  destruct (decide (c = posixpath.sep)) as [->|Hc].
  - rewrite split_sep, join_sep_cons by apply split_not_nil. by rewrite IH.
  - destruct (split_other c r Hc) as (comp & rest & Hr & ->).
    rewrite Hr in IH. destruct rest as [|comp' rest].
    + simpl in *. by rewrite IH.
    + rewrite join_sep_cons by done. rewrite join_sep_cons in IH by done.
      rewrite append_cons. by rewrite IH.
Qed.

Lemma split_plain_relative s :
  Forall plain_component (posixpath.split s) →
  s ≠ EmptyString ∧ posixpath.startswith_sep s = false.
Proof.
  intros H. destruct s as [|c r].
  - apply Forall_cons in H as [[H _] _]. done.
  - split; [done|]. simpl. case_bool_decide as Hc; [|done]. subst c.
    rewrite split_sep in H. apply Forall_cons in H as [[H _] _]. done.
Qed.

Lemma normpath_fold_plain n comps acc :
  Forall plain_component comps →
  fold_left (posixpath.normpath_step n) comps acc = acc ++ comps.
Proof.
  intros H. revert acc. induction H as [|comp comps (H1 & H2 & H3) _ IH]; intros acc.
  - by rewrite app_nil_r.
  - cbn [fold_left]. rewrite IH. unfold posixpath.normpath_step.
    rewrite bool_decide_eq_false_2 by (intros [?|?]; done).
    rewrite bool_decide_eq_true_2 by (by left).
    by rewrite <- app_assoc.
Qed.

Lemma normpath_fold_relative comps acc :
  Forall (λ comp, comp ≠ EmptyString ∧ posixpath.startswith_sep comp = false) acc →
  Forall (λ comp, posixpath.startswith_sep comp = false) comps →
  Forall (λ comp, comp ≠ EmptyString ∧ posixpath.startswith_sep comp = false)
         (fold_left (posixpath.normpath_step 0) comps acc).
Proof.
  intros Hacc H. revert acc Hacc.
  induction H as [|comp comps Hc _ IH]; intros acc Hacc; [done|].
  cbn [fold_left]. apply IH. unfold posixpath.normpath_step.
  case_bool_decide as Hskip; [done|]. case_bool_decide.
  - apply Forall_app. split; [done|]. constructor; [|done].
    split; [|done]. intros ->. apply Hskip. by left.
  - clear -Hacc. induction Hacc as [|x l Hx Hl IHl]; [done|].
    destruct l as [|y l]; [done|]. cbn [removelast].
    cbn [removelast] in IHl. by constructor.
Qed.

Lemma join_sep_relative comps :
  Forall (λ comp, comp ≠ EmptyString ∧ posixpath.startswith_sep comp = false) comps →
  posixpath.startswith_sep (posixpath.join_sep comps) = false
  ∧ (posixpath.join_sep comps = EmptyString → comps = []).
Proof.
  intros H. destruct H as [|comp comps [Hne Hc] _]; [done|].
  destruct comp as [|c r]; [done|]. destruct comps as [|comp' comps]; [done|].
  rewrite join_sep_cons by done. rewrite append_cons. done.
Qed.

Lemma normalize_target_relative_branch target :
  posixpath.startswith_sep target = false →
  normalize_target target
  = match fold_left (posixpath.normpath_step 0) (posixpath.split target) ["xl"] with
    | [] => "."
    | comps => posixpath.join_sep comps
    end
  ∧ Forall (λ comp, comp ≠ EmptyString ∧ posixpath.startswith_sep comp = false)
           (fold_left (posixpath.normpath_step 0) (posixpath.split target) ["xl"]).
Proof.
  intros Hrel. split.
  2:{ apply normpath_fold_relative; [by repeat constructor|].
      apply split_components_relative. }
  unfold normalize_target, posixpath.join. rewrite Hrel.
  change (bool_decide ("xl" = EmptyString) || posixpath.endswith_sep "xl") with false.
  cbv iota. change ("xl" +:+ String posixpath.sep target) with (String "x" (String "l" (String "/" target))).
  unfold posixpath.normpath. rewrite bool_decide_eq_false_2 by done.
  cbv iota zeta.
  assert (posixpath.split (String "x" (String "l" (String "/" target)))
          = "xl" :: posixpath.split target) as ->.
  { destruct (split_other "l" (String "/" target)) as (comp & rest & Hr & Hs); [done|].
    change (String "/" target) with (String posixpath.sep target) in Hr.
    rewrite split_sep in Hr. injection Hr as <- <-.
    destruct (split_other "x" (String "l" (String "/" target)))
      as (comp & rest & Hr & Hs'); [done|].
    rewrite Hs in Hr. injection Hr as <- <-. exact Hs'. }
  cbn [fold_left]. change (posixpath.normpath_step 0 [] "xl") with ["xl"].
  change (Py.join (replicate 0 "/") +:+ ?x) with x.
  pose proof (normpath_fold_relative (posixpath.split target) ["xl"]) as Hf.
  destruct (fold_left _ _ _) as [|comp comps] eqn:E; [done|].
  rewrite bool_decide_eq_false_2; [done|].
  intros Hj. apply join_sep_relative in Hj; [done|].
  apply Hf; [by repeat constructor|apply split_components_relative].
Qed.

(** X18: without the workbook part the resolver raises [KeyError], and it
    raises as well when the relationships part is missing or a part does
    not parse; a run on such an archive raises and leaves the file system
    as it was, whatever the change list. *)
Theorem resolver_needs_both_parts
    (ET_fromstring : bytes → result Element) (ET_tostring : Element → bytes)
    (temp_path workbook_path : string) (changes : list change) (f : fault)
    (fs : filesystem) (zin : archive) :
  fs !! workbook_path = Some zin →
  "xl/workbook.xml" ∉ namelist zin ∨ "xl/_rels/workbook.xml.rels" ∉ namelist zin →
  ("xl/workbook.xml" ∉ namelist zin →
   build_sheet_name_to_path ET_fromstring zin = Raise KeyError)
  ∧ (∀ data root, zip_lookup zin "xl/workbook.xml" = Some data →
       ET_fromstring data = Ok root →
       build_sheet_name_to_path ET_fromstring zin = Raise KeyError)
  ∧ (∀ data e, zip_lookup zin "xl/workbook.xml" = Some data →
       ET_fromstring data = Raise e →
       build_sheet_name_to_path ET_fromstring zin = Raise e)
  ∧ ∃ e, main ET_fromstring ET_tostring (build_sheet_name_to_path ET_fromstring)
              temp_path workbook_path changes f fs = (fs, Raise e).
Proof.
  intros Hfs Hmissing.
  assert (∀ name, name ∉ namelist zin → zip_read zin name = Raise KeyError) as Hread.
  { intros name Hname. unfold zip_read.
    destruct (zip_lookup zin name) as [d|] eqn:E; [|done].
    exfalso. apply Hname, zip_lookup_is_Some. by rewrite E. }
  assert (∃ e, build_sheet_name_to_path ET_fromstring zin = Raise e) as [e He].
  { unfold build_sheet_name_to_path. destruct Hmissing as [H|H].
    - rewrite (Hread _ H). by eexists.
    - destruct (zip_read zin "xl/workbook.xml") as [d|e]; [|by eexists].
      cbn [mbind result_bind]. destruct (ET_fromstring d) as [root|e]; [|by eexists].
      cbn [mbind result_bind]. rewrite (Hread _ H). by eexists. }
  split; [|split; [|split]].
  - intros H. unfold build_sheet_name_to_path. by rewrite (Hread _ H).
  - intros data root Hd Hroot.
    assert (zip_read zin "xl/workbook.xml" = Ok data) as Hwb
      by (unfold zip_read; by rewrite Hd).
    unfold build_sheet_name_to_path.
    rewrite Hwb. cbn [mbind result_bind]. rewrite Hroot. cbn [mbind result_bind].
    destruct Hmissing as [H|H]; [|by rewrite (Hread _ H)].
    exfalso. apply H, zip_lookup_is_Some. by rewrite Hd.
  - intros data e' Hd Hroot.
    assert (zip_read zin "xl/workbook.xml" = Ok data) as Hwb
      by (unfold zip_read; by rewrite Hd).
    unfold build_sheet_name_to_path.
    rewrite Hwb. cbn [mbind result_bind]. by rewrite Hroot.
  - unfold main. rewrite Hfs. unfold plan.
    destruct (get_shared_strings ET_fromstring zin) as [shared|e']; [|by eexists].
    cbn [mbind result_bind]. rewrite He. by eexists.
Qed.

Lemma resolver_needs_both_parts_witness :
  build_sheet_name_to_path sample_codec sample_archive = Raise KeyError
  ∧ ∃ e, main sample_codec sample_tostring (build_sheet_name_to_path sample_codec)
              "tmp.xlsx" "book.xlsx" sample_changes NoFault sample_fs
         = (sample_fs, Raise e).
Proof.
  destruct (resolver_needs_both_parts sample_codec sample_tostring
              "tmp.xlsx" "book.xlsx" sample_changes NoFault sample_fs sample_archive)
    as (_ & H2 & _ & H4);
    [vm_compute; reflexivity
    | right; apply (bool_decide_eq_false_1 _); vm_compute; reflexivity |].
  split; [|exact H4].
  apply (H2 [Byte.x01] sample_workbook); vm_compute; reflexivity.
Defined.

(** X19: the path recorded for a target never starts with a slash, so it
    has the form of a member name; it is empty exactly when the target
    consists of slashes only, the case in which [main] treats the sheet as
    not found. *)
Theorem resolved_path_is_relative (target : string) :
  posixpath.startswith_sep (normalize_target target) = false
  ∧ (normalize_target target = EmptyString
     ↔ posixpath.startswith_sep target = true
       ∧ posixpath.lstrip_sep target = EmptyString).
Proof.
  destruct (posixpath.startswith_sep target) eqn:Hs.
  - unfold normalize_target. rewrite Hs. split; [apply lstrip_sep_relative|].
    split; [done|]. by intros [_ ?].
  - destruct (normalize_target_relative_branch target Hs) as [-> Hf].
    destruct (fold_left _ _ _) as [|comp comps] eqn:E.
    + split; [done|]. split; [done|]. by intros [? _].
    + destruct (join_sep_relative _ Hf) as [H1 H2]. split; [done|].
      split; [|by intros [? _]]. intros H. by apply H2 in H.
Qed.

(** X20: a target made of plain components (none empty, [.] or [..])
    resolves to itself under [xl/]; written from the package root, with
    one leading slash, or from the parent of [xl], with a leading [../],
    it resolves to itself. *)
Theorem plain_target_resolves_under_xl (target : string) :
  Forall plain_component (posixpath.split target) →
  normalize_target target = "xl/" +:+ target
  ∧ normalize_target ("/" +:+ target) = target
  ∧ normalize_target ("../" +:+ target) = target.
Proof.
  intros Hplain. destruct (split_plain_relative target Hplain) as [Hne Hrel].
  split; [|split].
  - destruct (normalize_target_relative_branch target Hrel) as [-> _].
    rewrite normpath_fold_plain by done. cbn [app].
    rewrite join_sep_cons by apply split_not_nil. by rewrite join_sep_split.
  - unfold normalize_target. change ("/" +:+ target) with (String posixpath.sep target).
    cbn [posixpath.startswith_sep]. rewrite bool_decide_eq_true_2 by done.
    cbn [posixpath.lstrip_sep]. rewrite bool_decide_eq_true_2 by done.
    by apply lstrip_sep_id.
  - destruct (normalize_target_relative_branch ("../" +:+ target)) as [-> _]; [done|].
    assert (posixpath.split ("../" +:+ target) = ".." :: posixpath.split target) as ->.
    { change ("../" +:+ target) with (String "." (String "." (String posixpath.sep target))).
      destruct (split_other "." (String posixpath.sep target)) as (comp & rest & Hr & Hs);
        [done|].
      rewrite split_sep in Hr. injection Hr as <- <-.
      destruct (split_other "." (String "." (String posixpath.sep target)))
        as (comp & rest & Hr & Hs'); [done|].
      rewrite Hs in Hr. injection Hr as <- <-. exact Hs'. }
    cbn [fold_left]. change (posixpath.normpath_step 0 ["xl"] "..") with (@nil string).
    rewrite normpath_fold_plain by done. cbn [app].
    destruct (posixpath.split target) as [|comp comps] eqn:E;
      [by apply split_not_nil in E|].
    rewrite <- E. apply join_sep_split.
Qed.

Lemma plain_target_resolves_under_xl_witness :
  normalize_target "worksheets/sheet1.xml" = "xl/worksheets/sheet1.xml"
  ∧ normalize_target "/worksheets/sheet1.xml" = "worksheets/sheet1.xml"
  ∧ normalize_target "../worksheets/sheet1.xml" = "worksheets/sheet1.xml".
Proof.
  apply (plain_target_resolves_under_xl "worksheets/sheet1.xml").
  apply (bool_decide_eq_true_1 (Forall plain_component _)). vm_compute. reflexivity.
Defined.

Lemma rel_map_sound rels acc rel_id target :
  fold_left add_relationship rels acc !! rel_id = Some target →
  acc !! rel_id = Some target
  ∨ ∃ rel, rel ∈ rels ∧ attrib rel !! "Id" = Some rel_id
           ∧ attrib rel !! "Target" = Some target
           ∧ rel_id ≠ EmptyString ∧ target ≠ EmptyString.
Proof.
  revert acc. induction rels as [|rel rels IH]; intros acc H; [by left|].
  cbn [fold_left] in H. apply IH in H as [H|(rel' & Hin & H)].
  2:{ right. exists rel'. split; [by apply list_elem_of_further|done]. }
  unfold add_relationship in H.
  destruct (attrib rel !! "Id") as [[|a i]|] eqn:Hid; [by left| |by left].
  destruct (attrib rel !! "Target") as [[|b t]|] eqn:Ht; [by left| |by left].
  destruct (decide (String a i = rel_id)) as [<-|Hne].
  - rewrite lookup_insert_eq in H. injection H as <-.
    right. exists rel. split; [apply list_elem_of_here|done].
  - rewrite lookup_insert_ne in H by done. by left.
Qed.

Lemma rel_map_keeps rels acc rel_id :
  (∃ target, acc !! rel_id = Some target ∧ target ≠ EmptyString) →
  ∃ target, fold_left add_relationship rels acc !! rel_id = Some target
            ∧ target ≠ EmptyString.
Proof.
  revert acc. induction rels as [|rel rels IH]; intros acc H; [done|].
  cbn [fold_left]. apply IH. unfold add_relationship.
  destruct (attrib rel !! "Id") as [[|a i]|]; [done| |done].
  destruct (attrib rel !! "Target") as [[|b t]|]; [done| |done].
  destruct (decide (String a i = rel_id)) as [<-|Hne].
  - rewrite lookup_insert_eq. by eexists.
  - by rewrite lookup_insert_ne.
Qed.

Lemma rel_map_complete rels acc rel rel_id target :
  rel ∈ rels → attrib rel !! "Id" = Some rel_id → attrib rel !! "Target" = Some target →
  rel_id ≠ EmptyString → target ≠ EmptyString →
  ∃ target', fold_left add_relationship rels acc !! rel_id = Some target'
             ∧ target' ≠ EmptyString.
Proof.
  intros Hin Hid Ht Hi Hne. revert acc.
  induction Hin as [rel rels|rel rel' rels _ IH]; intros acc;
    [|cbn [fold_left]; by apply IH].
  cbn [fold_left]. apply rel_map_keeps. unfold add_relationship.
  rewrite Hid, Ht. destruct rel_id as [|a i]; [done|]. destruct target as [|b t]; [done|].
  rewrite lookup_insert_eq. by eexists.
Qed.

Lemma sheets_sound rel_map sheets acc name path :
  fold_left (add_sheet rel_map) sheets acc !! name = Some path →
  acc !! name = Some path
  ∨ ∃ sheet rel_id target,
      sheet ∈ sheets ∧ attrib sheet !! "name" = Some name
      ∧ attrib sheet !! qname NS_REL_DOC "id" = Some rel_id
      ∧ rel_map !! rel_id = Some target
      ∧ name ≠ EmptyString ∧ rel_id ≠ EmptyString ∧ target ≠ EmptyString
      ∧ path = normalize_target target.
Proof.
  revert acc. induction sheets as [|sheet sheets IH]; intros acc H; [by left|].
  cbn [fold_left] in H. apply IH in H as [H|(sheet' & rel_id & target & Hin & H)].
  2:{ right. exists sheet', rel_id, target.
      split; [by apply list_elem_of_further|done]. }
  unfold add_sheet in H.
  destruct (attrib sheet !! "name") as [[|a n]|] eqn:Hn; [by left| |by left].
  destruct (attrib sheet !! qname NS_REL_DOC "id") as [[|b i]|] eqn:Hi;
    [by left| |by left].
  destruct (rel_map !! String b i) as [[|c t]|] eqn:Ht; [by left| |by left].
  destruct (decide (String a n = name)) as [<-|Hne].
  - rewrite lookup_insert_eq in H. injection H as <-.
    right. exists sheet, (String b i), (String c t).
    split; [apply list_elem_of_here|done].
  - rewrite lookup_insert_ne in H by done. by left.
Qed.

Lemma sheets_keep rel_map sheets acc name :
  is_Some (acc !! name) → is_Some (fold_left (add_sheet rel_map) sheets acc !! name).
Proof.
  revert acc. induction sheets as [|sheet sheets IH]; intros acc H; [done|].
  cbn [fold_left]. apply IH. unfold add_sheet.
  destruct (attrib sheet !! "name") as [[|a n]|]; [done| |done].
  destruct (attrib sheet !! qname NS_REL_DOC "id") as [[|b i]|]; [done| |done].
  destruct (rel_map !! String b i) as [[|c t]|]; [done| |done].
  destruct (decide (String a n = name)) as [<-|Hne].
  - by rewrite lookup_insert_eq.
  - by rewrite lookup_insert_ne.
Qed.

Lemma sheets_complete rel_map sheets acc sheet name rel_id target :
  sheet ∈ sheets → attrib sheet !! "name" = Some name →
  attrib sheet !! qname NS_REL_DOC "id" = Some rel_id →
  rel_map !! rel_id = Some target →
  name ≠ EmptyString → rel_id ≠ EmptyString → target ≠ EmptyString →
  is_Some (fold_left (add_sheet rel_map) sheets acc !! name).
Proof.
  intros Hin Hn Hi Ht Hne1 Hne2 Hne3. revert acc.
  induction Hin as [sheet sheets|sheet sheet' sheets _ IH]; intros acc;
    [|cbn [fold_left]; by apply IH].
  cbn [fold_left]. apply sheets_keep. unfold add_sheet. rewrite Hn, Hi.
  destruct name as [|a n]; [done|]. destruct rel_id as [|b i]; [done|].
  rewrite Ht. destruct target as [|c t]; [done|]. by rewrite lookup_insert_eq.
Qed.

Lemma resolver_returns ET_fromstring zin workbook_xml rels_xml workbook_root rels_root :
  zip_lookup zin "xl/workbook.xml" = Some workbook_xml →
  ET_fromstring workbook_xml = Ok workbook_root →
  zip_lookup zin "xl/_rels/workbook.xml.rels" = Some rels_xml →
  ET_fromstring rels_xml = Ok rels_root →
  build_sheet_name_to_path ET_fromstring zin
  = Ok (fold_left
          (add_sheet (fold_left add_relationship
                        (findall_desc (qname NS_REL_PKG "Relationship") rels_root) ∅))
          (findall_desc (qname NS_MAIN "sheet") workbook_root) ∅).
Proof.
  intros Hwb Hwr Hrl Hrr. unfold build_sheet_name_to_path, zip_read.
  rewrite Hwb. cbn [mbind result_bind]. rewrite Hwr. cbn [mbind result_bind].
  rewrite Hrl. cbn [mbind result_bind]. rewrite Hrr. reflexivity.
Qed.

Lemma resolver_sound workbook_root rels_root name path :
  fold_left
    (add_sheet (fold_left add_relationship
                  (findall_desc (qname NS_REL_PKG "Relationship") rels_root) ∅))
    (findall_desc (qname NS_MAIN "sheet") workbook_root) ∅ !! name = Some path →
  ∃ target, resolves_to workbook_root rels_root name target
            ∧ path = normalize_target target.
Proof.
  intros H. apply sheets_sound in H as [H|H]; [by rewrite lookup_empty in H|].
  destruct H as (sheet & rel_id & target & Hin & Hn & Hi & Hrel & Hne1 & Hne2 & Hne3 & ->).
  apply rel_map_sound in Hrel as [Hrel|Hrel]; [by rewrite lookup_empty in Hrel|].
  destruct Hrel as (rel & Hrin & Hid & Ht & _ & _).
  exists target. split; [|done]. by exists sheet, rel, rel_id.
Qed.

Lemma resolver_complete workbook_root rels_root name target :
  resolves_to workbook_root rels_root name target →
  is_Some (fold_left
             (add_sheet (fold_left add_relationship
                           (findall_desc (qname NS_REL_PKG "Relationship") rels_root) ∅))
             (findall_desc (qname NS_MAIN "sheet") workbook_root) ∅ !! name).
Proof.
  intros (sheet & rel & rel_id & Hin & Hrin & Hn & Hi & Hid & Ht & Hne1 & Hne2 & Hne3).
  destruct (rel_map_complete _ ∅ rel rel_id target Hrin Hid Ht Hne2 Hne3)
    as (target' & Hrel & Hne).
  by apply (sheets_complete _ _ ∅ sheet name rel_id target').
Qed.

(** X21: when both parts are present and parse, the resolver returns a
    table in which every entry comes from a sheet of the workbook part and
    the relationship its id names, with the target normalised; every sheet
    that has such a relationship has an entry; and the entry is determined
    when the name has one target only. *)
Theorem resolver_entries_come_from_the_parts
    (ET_fromstring : bytes → result Element) (zin : archive)
    (workbook_xml rels_xml : bytes) (workbook_root rels_root : Element) :
  zip_lookup zin "xl/workbook.xml" = Some workbook_xml →
  ET_fromstring workbook_xml = Ok workbook_root →
  zip_lookup zin "xl/_rels/workbook.xml.rels" = Some rels_xml →
  ET_fromstring rels_xml = Ok rels_root →
  ∃ sheet_map,
    build_sheet_name_to_path ET_fromstring zin = Ok sheet_map
    ∧ (∀ name path, sheet_map !! name = Some path →
         ∃ target, resolves_to workbook_root rels_root name target
                   ∧ path = normalize_target target)
    ∧ (∀ name target, resolves_to workbook_root rels_root name target →
         is_Some (sheet_map !! name))
    ∧ (∀ name target, resolves_to workbook_root rels_root name target →
         (∀ target', resolves_to workbook_root rels_root name target' → target' = target) →
         sheet_map !! name = Some (normalize_target target)).
Proof.
  intros Hwb Hwr Hrl Hrr. eexists. split; [by eapply resolver_returns|].
  split; [apply resolver_sound|]. split; [apply resolver_complete|].
  intros name target Hres Huniq.
  destruct (resolver_complete _ _ _ _ Hres) as [path Hpath]. rewrite Hpath.
  apply resolver_sound in Hpath as (target' & Hres' & ->).
  by rewrite (Huniq _ Hres').
Qed.

Lemma resolver_entries_come_from_the_parts_witness :
  ∃ sheet_map,
    build_sheet_name_to_path sample_codec sample_package = Ok sheet_map
    ∧ sheet_map !! "Sheet1" = Some sample_sheet_path
    ∧ sheet_map !! "Orphan" = None.
Proof.
  destruct (resolver_entries_come_from_the_parts sample_codec sample_package
              [Byte.x01] [Byte.x04] sample_workbook sample_rels)
    as (sheet_map & Hm & Hsound & _ & _); try (vm_compute; reflexivity).
  exists sheet_map. split; [exact Hm|].
  vm_compute in Hm. injection Hm as <-. split; vm_compute; reflexivity.
Defined.

(** X22: a change request whose sheet the parts do not resolve (the
    workbook part lists no sheet of that name, or the sheet's relationship
    is missing or has no target) is rejected by the grouping loop with the
    reason "Worksheet not found in workbook", and joins no group. *)
Theorem unresolved_sheet_is_not_found
    (ET_fromstring : bytes → result Element) (zin : archive)
    (workbook_xml rels_xml : bytes) (workbook_root rels_root : Element)
    (c : change) (grouped : list (string * list change)) (issues : list issue) :
  zip_lookup zin "xl/workbook.xml" = Some workbook_xml →
  ET_fromstring workbook_xml = Ok workbook_root →
  zip_lookup zin "xl/_rels/workbook.xml.rels" = Some rels_xml →
  ET_fromstring rels_xml = Ok rels_root →
  (∀ target, ¬ resolves_to workbook_root rels_root
                 (py_str (get c "sheetName" (PStr EmptyString))) target) →
  well_typed c = true →
  ∃ sheet_map i,
    build_sheet_name_to_path ET_fromstring zin = Ok sheet_map
    ∧ group_change sheet_map (grouped, issues) c = Ok (grouped, issues ++ [i])
    ∧ i_reason i = "Worksheet not found in workbook".
Proof.
  intros Hwb Hwr Hrl Hrr Hnone Htyped. eexists.
  destruct (unrouted_issue_total c "Worksheet not found in workbook" Htyped) as [i Hi].
  exists i. split; [by eapply resolver_returns|].
  split; [|by apply unrouted_issue_fields in Hi as [? _]].
  rewrite group_change_route. unfold route.
  destruct (_ !! py_str _) as [path|] eqn:E.
  - apply resolver_sound in E as (target & Hres & _). by apply Hnone in Hres.
  - by rewrite Hi.
Qed.

Lemma unresolved_sheet_is_not_found_witness :
  ∃ sheet_map i,
    build_sheet_name_to_path sample_codec sample_package = Ok sheet_map
    ∧ group_change sheet_map ([], [])
        (<["sheetName" := PStr "Orphan"]> (sample_change "A1" "Name" "Title"))
      = Ok ([], [i])
    ∧ i_reason i = "Worksheet not found in workbook".
Proof.
  apply (unresolved_sheet_is_not_found sample_codec sample_package
           [Byte.x01] [Byte.x04] sample_workbook sample_rels
           (<["sheetName" := PStr "Orphan"]> (sample_change "A1" "Name" "Title")) [] []);
    try (vm_compute; reflexivity).
  intros target (sheet & rel & rel_id & Hs & Hr & Hn & Hi & Hid & _).
  vm_compute in Hs, Hr.
  apply elem_of_cons in Hs as [->|Hs].
  { vm_compute in Hn. discriminate Hn. }
  apply elem_of_cons in Hs as [->|Hs]; [|by apply not_elem_of_nil in Hs].
  vm_compute in Hi. injection Hi as <-.
  apply elem_of_cons in Hr as [->|Hr].
  { vm_compute in Hid. discriminate Hid. }
  apply elem_of_cons in Hr as [->|Hr]; [|by apply not_elem_of_nil in Hr].
  vm_compute in Hid. discriminate Hid.
Defined.
